(** * Subtitle segment engine: timestamp codec, SRT/VTT parsers and
      generators, and the merge / split / shift editing operations.

    Shallow embedding of [utils/subtitle.py], of the handlers of the
    subtitle editor page (global shift, merge and split buttons, exports,
    upload, the time columns of the table), and of the parts of
    [utils/translator.py] and [utils/tts.py] that work on segments and on
    the language and voice tables.

    Modelling choices.
    - Seconds are Python floats in the source; they are modelled by exact
      rationals ([Q]), and each operation of the code on them is computed
      without rounding.  The floats that are no numbers (infinities, NaN)
      are not modelled.  A float operation rounds its result, by a relative
      error of at most [2^-53].  Where the code stores, copies or compares
      times, or computes a new time by one expression, the statements give
      the time or the expression as the code has it.  Where the code turns
      a time into a whole number (the milliseconds of a printed timestamp,
      the offset at which a split cuts the text), or where a statement
      relates times computed by different expressions, a float next to a
      boundary can fall on either side of it once rounded; such statements
      are written with a margin that the rounding cannot cross ([near_ms],
      [proportional], [within_us]).
    - A Python [str] is a list of characters ([list ascii], code points
      below 256).
    - A segment is a Python dict with the keys [index], [start], [end],
      [text] and, after translation, [original]; it is modelled by a record
      whose [index] and [original] fields are optional (a missing key).
    - Segment dicts are shared, mutable objects: a sequence of segments is
      a list of references into a store, and the editing operations thread
      the store.
    - A Python exception is an explicit outcome of a call.
    - The translation service, the speech service, the file system
      ([os.makedirs]) and [float] on the text of a table cell are outside
      the program: they are arguments of the functions that call them, and
      what is proved holds for each of them. *)

From Stdlib Require Import ZArith QArith Qround Lqa Ascii String List Lia.
From stdpp Require Import base option list sorting.

Local Open Scope Z_scope.

(** ** Outcomes of a call *)

Inductive exn := IndexError | ValueError.

(** [Ok a]: the call returns [a].  [Raise e]: the call raises [e].
    [Dangling]: the model read a reference that is not in the store; no
    Python run reaches it, and the well-formedness lemmas below exclude
    it. *)
Inductive outcome (A : Type) :=
  | Ok (a : A)
  | Raise (e : exn)
  | Dangling.
Arguments Ok {A} a.
Arguments Raise {A} e.
Arguments Dangling {A}.

Definition bind {A B} (m : outcome A) (k : A -> outcome B) : outcome B :=
  match m with
  | Ok a => k a
  | Raise e => Raise e
  | Dangling => Dangling
  end.

Declare Scope py_scope.
Delimit Scope py_scope with py.
Notation "x <- m ;; k" := (bind m (fun x => k))
  (at level 60, m at next level, right associativity) : py_scope.
Local Open Scope py_scope.

(** Traversal of a list by a call that may raise, left to right. *)
Fixpoint mapO {A B} (f : A -> outcome B) (l : list A) : outcome (list B) :=
  match l with
  | [] => Ok []
  | a :: l' => b <- f a ;; bs <- mapO f l' ;; Ok (b :: bs)
  end.

(** ** Python strings *)

Abbreviation str := (list ascii).

Definition lit (s : string) : str := list_ascii_of_string s.

Definition sp : ascii := " "%char.
Definition nl : ascii := "010"%char.

(** ** Segments and the store *)

Record seg := mkSeg {
  index : option Z;
  start : Q;
  end_ : Q;
  text : str;
  original : option str
}.

Definition set_index (i : Z) (s : seg) : seg :=
  mkSeg (Some i) (start s) (end_ s) (text s) (original s).

Definition set_times (a b : Q) (s : seg) : seg :=
  mkSeg (index s) a b (text s) (original s).

(** The dict literal [{'start': a, 'end': b, 'text': t}]. *)
Definition new_seg (a b : Q) (t : str) : seg := mkSeg None a b t None.

Abbreviation loc := nat (only parsing).
Abbreviation heap := (list seg) (only parsing).

Definition deref (h : heap) (l : loc) : outcome seg :=
  match h !! l with
  | Some s => Ok s
  | None => Dangling
  end.

(** Allocation of a fresh dict: the new reference is the next free one. *)
Definition alloc (h : heap) (s : seg) : loc * heap := (length h, h ++ [s]).

(** The values of a sequence of references, when none dangles. *)
Definition read_all (h : heap) (ls : list loc) : option (list seg) :=
  mapM (fun l => h !! l) ls.

Definition wf (h : heap) (ls : list loc) : Prop :=
  Forall (fun l => (l < length h)%nat) ls.

(** ** Python primitives *)

(** [l[k]]: a negative [k] counts from the end; out of range raises. *)
Definition getitem {A} (l : list A) (k : Z) : outcome A :=
  let n := Z.of_nat (length l) in
  let k' := if k <? 0 then k + n else k in
  if (k' <? 0) || (n <=? k') then Raise IndexError
  else match l !! Z.to_nat k' with
       | Some a => Ok a
       | None => Raise IndexError
       end.

(** [sorted(indices)] on integers. *)
Definition sorted (l : list Z) : list Z := merge_sort Z.le l.

(** [sep.join(parts)]. *)
Fixpoint join (sep : str) (parts : list str) : str :=
  match parts with
  | [] => []
  | [p] => p
  | p :: ps => p ++ sep ++ join sep ps
  end.

(** [max(a, b)]: the first argument unless the second is greater. *)
Definition py_max (a b : Q) : Q := if Qlt_le_dec a b then b else a.

(** [int(x)] on a float: truncation towards zero. *)
Definition int_of_float (x : Q) : Z := Z.quot (Qnum x) (Zpos (Qden x)).

(** [str.isspace] on one character, for code points below 256:
    TAB, LF, VT, FF, CR, FS, GS, RS, US, SPACE, NEL, NBSP. *)
Definition is_space (c : ascii) : bool :=
  let n := nat_of_ascii c in
  ((9 <=? n) && (n <=? 13))%nat || ((28 <=? n) && (n <=? 32))%nat
  || (n =? 133)%nat || (n =? 160)%nat.

Fixpoint lstrip (s : str) : str :=
  match s with
  | c :: s' => if is_space c then lstrip s' else s
  | [] => []
  end.

Definition rstrip (s : str) : str := rev (lstrip (rev s)).

(** [s.strip()]. *)
Definition strip (s : str) : str := rstrip (lstrip s).

(** [text.rfind(c, 0, stop)] for [0 <= stop]: the greatest position below
    [stop] holding [c], or [-1]. *)
Fixpoint rfind_from (c : ascii) (s : str) (pos : nat) (stop : nat) (found : Z) : Z :=
  match stop, s with
  | S stop', x :: s' =>
      rfind_from c s' (S pos) stop' (if Ascii.eqb x c then Z.of_nat pos else found)
  | _, _ => found
  end.

Definition rfind (c : ascii) (s : str) (stop : Z) : Z :=
  rfind_from c s 0 (Z.to_nat stop) (-1).

(** ** Editing operations *)

(** The renumbering loop [for i, seg in enumerate(result): seg['index'] = i + 1],
    started at position [i]. *)
Fixpoint renumber (h : heap) (i : nat) (ls : list loc) : heap :=
  match ls with
  | [] => h
  | l :: ls' =>
      match h !! l with
      | Some s => renumber (<[l := set_index (Z.of_nat i + 1) s]> h) (S i) ls'
      | None => renumber h (S i) ls'
      end
  end.

(** The loop of [merge_segments] that builds [result]: position [i] of the
    input, first sorted index [first], sorted indices [ixs]. *)
Fixpoint merge_build (h : heap) (i : nat) (segments : list loc)
    (first : Z) (ixs : list Z) (merged : seg) : list loc * heap :=
  match segments with
  | [] => ([], h)
  | l :: rest =>
      if Z.of_nat i =? first then
        let '(m, h1) := alloc h merged in
        let '(r, h2) := merge_build h1 (S i) rest first ixs merged in
        (m :: r, h2)
      else if bool_decide (Z.of_nat i ∈ ixs) then
        merge_build h (S i) rest first ixs merged
      else
        let '(r, h2) := merge_build h (S i) rest first ixs merged in
        (l :: r, h2)
  end.

Definition merge_segments (h : heap) (segments : list loc) (indices : list Z)
  : outcome (list loc * heap) :=
  if (length indices <? 2)%nat then Ok (segments, h)
  else
    let indices := sorted indices in
    i0 <- getitem indices 0 ;;
    l0 <- getitem segments i0 ;;
    s0 <- deref h l0 ;;
    let merged_start := start s0 in
    i1 <- getitem indices (-1) ;;
    l1 <- getitem segments i1 ;;
    s1 <- deref h l1 ;;
    let merged_end := end_ s1 in
    texts <- mapO (fun i => l <- getitem segments i ;; s <- deref h l ;; Ok (text s))
                  indices ;;
    let merged_text := join [sp] texts in
    let '(result, h1) :=
      merge_build h 0 segments i0 indices
                  (new_seg merged_start merged_end merged_text) in
    Ok (result, renumber h1 0 result).

Definition split_segment (h : heap) (segments : list loc) (index : Z)
    (split_position : Q) : outcome (list loc * heap) :=
  if (index <? 0) || (Z.of_nat (length segments) <=? index) then Ok (segments, h)
  else
    l <- getitem segments index ;;
    seg <- deref h l ;;
    if Qle_bool split_position (start seg) || Qle_bool (end_ seg) split_position
    then Ok (segments, h)
    else
      let text := text seg in
      let ratio := ((split_position - start seg) / (end_ seg - start seg))%Q in
      let split_char := int_of_float (inject_Z (Z.of_nat (length text)) * ratio)%Q in
      let space_pos := rfind sp text split_char in
      let split_char := if 0 <? space_pos then space_pos else split_char in
      let text1 := strip (take (Z.to_nat split_char) text) in
      let text2 := strip (drop (Z.to_nat split_char) text) in
      let result := take (Z.to_nat index) segments in
      let '(a, h1) := alloc h (new_seg (start seg) split_position text1) in
      let result := result ++ [a] in
      let '(b, h2) := alloc h1 (new_seg split_position (end_ seg) text2) in
      let result := result ++ [b] in
      let result := result ++ drop (Z.to_nat (index + 1)) segments in
      Ok (result, renumber h2 0 result).

(** The comprehension [[dict(seg) for seg in segments]]. *)
Fixpoint copy_all (h : heap) (segments : list loc) : outcome (list loc * heap) :=
  match segments with
  | [] => Ok ([], h)
  | l :: rest =>
      s <- deref h l ;;
      let '(c, h1) := alloc h s in
      p <- copy_all h1 rest ;;
      Ok (c :: fst p, snd p)
  end.

Definition adjust_timing (h : heap) (segments : list loc) (index : Z)
    (start_delta end_delta : Q) : outcome (list loc * heap) :=
  if (index <? 0) || (Z.of_nat (length segments) <=? index) then Ok (segments, h)
  else
    p <- copy_all h segments ;;
    let '(result, h1) := p in
    l <- getitem result index ;;
    seg <- deref h1 l ;;
    let new_start := py_max 0 (start seg + start_delta) in
    let new_end := py_max (new_start + (1 # 10)) (end_ seg + end_delta) in
    Ok (result, <[l := set_times new_start new_end seg]> h1).

(** The handler of the editor page's global-shift button: with a non-zero
    [time_adjust], every segment of the session's sequence is updated in
    place. *)
Fixpoint shift_each (h : heap) (segments : list loc) (time_adjust : Q) : outcome heap :=
  match segments with
  | [] => Ok h
  | l :: rest =>
      seg <- deref h l ;;
      let new_start := py_max 0 (start seg + time_adjust) in
      let h1 := <[l := set_times new_start (end_ seg) seg]> h in
      seg' <- deref h1 l ;;
      let new_end := py_max (1 # 10) (end_ seg' + time_adjust) in
      shift_each (<[l := set_times (start seg') new_end seg']> h1) rest time_adjust
  end.

Definition global_shift (h : heap) (segments : list loc) (time_adjust : Q)
  : outcome heap :=
  if Qeq_bool time_adjust 0 then Ok h else shift_each h segments time_adjust.

(** ** Integers and text *)

Definition is_digit (c : ascii) : bool :=
  let n := nat_of_ascii c in ((48 <=? n) && (n <=? 57))%nat.

Definition digit_val (c : ascii) : Z := Z.of_nat (nat_of_ascii c) - 48.

Definition digit_char (d : Z) : ascii := ascii_of_nat (Z.to_nat (d + 48)).

(** The decimal digits of a non-negative integer, most significant first. *)
Fixpoint digits_fuel (fuel : nat) (n : Z) (acc : str) : str :=
  match fuel with
  | O => acc
  | S fuel' =>
      let acc' := digit_char (n mod 10) :: acc in
      if n / 10 =? 0 then acc' else digits_fuel fuel' (n / 10) acc'
  end.

Definition digits (n : Z) : str := digits_fuel (S (Z.to_nat (Z.log2 n))) n [].

(** The format specification [{n:0wd}]: at least [w] characters, padded
    with zeros after the sign. *)
Definition fmt_d (w : nat) (n : Z) : str :=
  if n <? 0 then
    let d := digits (- n) in "-"%char :: replicate (w - 1 - length d) "0"%char ++ d
  else
    let d := digits n in replicate (w - length d) "0"%char ++ d.

(** [str(n)], also the format [{n}]. *)
Definition str_of_int (n : Z) : str := fmt_d 0 n.

(** The digits of an integer literal after its sign: digits with single
    underscores between them. *)
Fixpoint int_digits (s : str) (acc : Z) (after_digit : bool) : option Z :=
  match s with
  | [] => if after_digit then Some acc else None
  | c :: s' =>
      if is_digit c then int_digits s' (10 * acc + digit_val c) true
      else if Ascii.eqb c "_"%char && after_digit then int_digits s' acc false
      else None
  end.

(** [int(s)] on a string: surrounding whitespace, an optional sign, then
    digits; anything else raises [ValueError].  The limit that recent
    versions of CPython put on the number of digits (4300 unless the
    interpreter is set otherwise) is not modelled: beyond it [int] raises
    [ValueError] too, which [parse_srt] catches like any other; the codec
    only reads groups of two or three digits. *)
Definition py_int (s : str) : outcome Z :=
  let s := strip s in
  let r := match s with
           | c :: s' =>
               if Ascii.eqb c "-"%char then Z.opp <$> int_digits s' 0 false
               else if Ascii.eqb c "+"%char then int_digits s' 0 false
               else int_digits s 0 false
           | [] => None
           end in
  match r with
  | Some n => Ok n
  | None => Raise ValueError
  end.

(** [s.split('\n')], for any separator character. *)
Fixpoint split_on (d : ascii) (s : str) : list str :=
  match s with
  | [] => [[]]
  | c :: rest =>
      if Ascii.eqb c d then [] :: split_on d rest
      else match split_on d rest with
           | p :: ps => (c :: p) :: ps
           | [] => [[c]]
           end
  end.

Definition starts_with_nl (s : str) : bool :=
  match s with
  | c :: _ => Ascii.eqb c nl
  | [] => false
  end.

(** [re.split(r'\n\n+', s)]: the pieces between the maximal runs of two or
    more newlines.  [skipping] holds inside such a run. *)
Fixpoint split_blank (s : str) (skipping : bool) : list str :=
  match s with
  | [] => [[]]
  | c :: rest =>
      if skipping && Ascii.eqb c nl then split_blank rest true
      else if Ascii.eqb c nl && starts_with_nl rest then [] :: split_blank rest true
      else match split_blank rest false with
           | p :: ps => (c :: p) :: ps
           | [] => [[c]]
           end
  end.

Definition re_split_blank (s : str) : list str := split_blank s false.

(** ** Regular expressions of the codec and the parsers

    Each matcher is [re.match]: anchored at the start of the string, free
    at its end; it returns the groups and the unmatched rest. *)

(** [\d{n}] *)
Fixpoint take_digits (n : nat) (s : str) : option (str * str) :=
  match n with
  | O => Some ([], s)
  | S n' =>
      match s with
      | c :: s' =>
          if is_digit c then
            match take_digits n' s' with
            | Some (d, r) => Some (c :: d, r)
            | None => None
            end
          else None
      | [] => None
      end
  end.

Definition expect (p : ascii -> bool) (s : str) : option (ascii * str) :=
  match s with
  | c :: s' => if p c then Some (c, s') else None
  | [] => None
  end.

Definition is_colon (c : ascii) : bool := Ascii.eqb c ":"%char.
Definition is_sep (c : ascii) : bool := Ascii.eqb c ","%char || Ascii.eqb c "."%char.

(** [(\d{2}):(\d{2}):(\d{2})[,.](\d{3})] *)
Definition match_full (s : str) : option ((str * str * str * str) * str) :=
  match take_digits 2 s with
  | Some (hh, s1) =>
    match expect is_colon s1 with
    | Some (_, s2) =>
      match take_digits 2 s2 with
      | Some (mm, s3) =>
        match expect is_colon s3 with
        | Some (_, s4) =>
          match take_digits 2 s4 with
          | Some (ss, s5) =>
            match expect is_sep s5 with
            | Some (_, s6) =>
              match take_digits 3 s6 with
              | Some (ms, s7) => Some ((hh, mm, ss, ms), s7)
              | None => None
              end
            | None => None
            end
          | None => None
          end
        | None => None
        end
      | None => None
      end
    | None => None
    end
  | None => None
  end.

(** [(\d{2}):(\d{2})[.,](\d{3})] *)
Definition match_short (s : str) : option ((str * str * str) * str) :=
  match take_digits 2 s with
  | Some (mm, s1) =>
    match expect is_colon s1 with
    | Some (_, s2) =>
      match take_digits 2 s2 with
      | Some (ss, s3) =>
        match expect is_sep s3 with
        | Some (_, s4) =>
          match take_digits 3 s4 with
          | Some (ms, s5) => Some ((mm, ss, ms), s5)
          | None => None
          end
        | None => None
        end
      | None => None
      end
    | None => None
    end
  | None => None
  end.

(** The text a match consumed: what [group] returns for the whole
    timestamp. *)
Definition consumed (s rest : str) : str := take (length s - length rest) s.

(** [\s*-->\s*] *)
Definition match_arrow (s : str) : option str :=
  match lstrip s with
  | a :: b :: c :: r =>
      if Ascii.eqb a "-"%char && Ascii.eqb b "-"%char && Ascii.eqb c ">"%char
      then Some (lstrip r) else None
  | _ => None
  end.

(** The timing line of the primary format:
    [(\d{2}:\d{2}:\d{2}[,\.]\d{3})\s*-->\s*(\d{2}:\d{2}:\d{2}[,\.]\d{3})];
    the result is [(group(1), group(2))]. *)
Definition match_time_srt (s : str) : option (str * str) :=
  match match_full s with
  | Some (_, r1) =>
      match match_arrow r1 with
      | Some s2 =>
          match match_full s2 with
          | Some (_, r2) => Some (consumed s r1, consumed s2 r2)
          | None => None
          end
      | None => None
      end
  | None => None
  end.

(** One timestamp of the secondary format's timing line:
    [\d{2}:\d{2}:\d{2}[.,]\d{3}|\d{2}:\d{2}[.,]\d{3}].  The two alternatives
    differ at their sixth character, so at most one of them matches. *)
Definition match_either (s : str) : option str :=
  match match_full s with
  | Some (_, r) => Some r
  | None =>
      match match_short s with
      | Some (_, r) => Some r
      | None => None
      end
  end.

Definition match_time_vtt (s : str) : option (str * str) :=
  match match_either s with
  | Some r1 =>
      match match_arrow r1 with
      | Some s2 =>
          match match_either s2 with
          | Some r2 => Some (consumed s r1, consumed s2 r2)
          | None => None
          end
      | None => None
      end
  | None => None
  end.

(** ** Timestamp codec *)

(** [x // m] and [x % m] on floats, for a positive [m]. *)
Definition floordiv (x m : Q) : Z := Qfloor (x / m).
Definition fmod (x m : Q) : Q := (x - m * inject_Z (floordiv x m))%Q.

Definition format_timestamp (sep : ascii) (seconds : Q) : str :=
  let hours := floordiv seconds 3600 in
  let minutes := floordiv (fmod seconds 3600) 60 in
  let secs := int_of_float (fmod seconds 60) in
  let millis :=
    int_of_float ((seconds - inject_Z (int_of_float seconds)) * 1000)%Q in
  fmt_d 2 hours ++ [":"%char] ++ fmt_d 2 minutes ++ [":"%char] ++ fmt_d 2 secs
    ++ [sep] ++ fmt_d 3 millis.

Definition format_timestamp_srt (seconds : Q) : str := format_timestamp ","%char seconds.
Definition format_timestamp_vtt (seconds : Q) : str := format_timestamp "."%char seconds.

Definition parse_timestamp_srt (timestamp : str) : outcome Q :=
  match match_full (strip timestamp) with
  | None => Ok 0%Q
  | Some ((hh, mm, ss, ms), _) =>
      hours <- py_int hh ;;
      minutes <- py_int mm ;;
      seconds <- py_int ss ;;
      millis <- py_int ms ;;
      Ok (inject_Z (hours * 3600 + minutes * 60 + seconds) + inject_Z millis / 1000)%Q
  end.

Definition parse_timestamp_vtt (timestamp : str) : outcome Q :=
  match match_full (strip timestamp) with
  | Some ((hh, mm, ss, ms), _) =>
      hours <- py_int hh ;;
      minutes <- py_int mm ;;
      seconds <- py_int ss ;;
      millis <- py_int ms ;;
      Ok (inject_Z (hours * 3600 + minutes * 60 + seconds) + inject_Z millis / 1000)%Q
  | None =>
      match match_short (strip timestamp) with
      | Some ((mm, ss, ms), _) =>
          minutes <- py_int mm ;;
          seconds <- py_int ss ;;
          millis <- py_int ms ;;
          Ok (inject_Z (minutes * 60 + seconds) + inject_Z millis / 1000)%Q
      | None => Ok 0%Q
      end
  end.

(** ** Format parsers

    The parsers build fresh dicts; they are given here by the values of
    those dicts, in order. *)

(** The body of the loop of [parse_srt] for one block: [None] is
    [continue], the block is skipped. *)
Definition parse_srt_block (block : str) : outcome (option seg) :=
  let lines := split_on nl (strip block) in
  if (length lines <? 3)%nat then Ok None
  else
    l0 <- getitem lines 0 ;;
    match py_int (strip l0) with
    | Raise ValueError => Ok None
    | Raise e => Raise e
    | Dangling => Dangling
    | Ok index =>
        l1 <- getitem lines 1 ;;
        match match_time_srt (strip l1) with
        | None => Ok None
        | Some (g1, g2) =>
            start <- parse_timestamp_srt g1 ;;
            end_ <- parse_timestamp_srt g2 ;;
            let text := strip (join [nl] (drop 2 lines)) in
            Ok (Some (mkSeg (Some index) start end_ text None))
        end
    end.

Fixpoint parse_srt_blocks (blocks : list str) : outcome (list seg) :=
  match blocks with
  | [] => Ok []
  | block :: rest =>
      r <- parse_srt_block block ;;
      segments <- parse_srt_blocks rest ;;
      Ok (match r with Some s => s :: segments | None => segments end)
  end.

Definition parse_srt (content : str) : outcome (list seg) :=
  parse_srt_blocks (re_split_blank (strip content)).

(** ['-->' in line] *)
Fixpoint contains_arrow (s : str) : bool :=
  match s with
  | a :: rest =>
      match rest with
      | b :: c :: _ =>
          (Ascii.eqb a "-"%char && Ascii.eqb b "-"%char && Ascii.eqb c ">"%char)
          || contains_arrow rest
      | _ => false
      end
  | [] => false
  end.

(** The search loop for the timing line: the position of the first line
    holding the range separator; [None] is the loop's [else] branch. *)
Fixpoint find_time_line (i : nat) (lines : list str) : option nat :=
  match lines with
  | [] => None
  | line :: rest => if contains_arrow line then Some i else find_time_line (S i) rest
  end.

(** The rest of [s] after its first blank line ("\n\n"), if it has one. *)
Fixpoint after_blank (s : str) : option str :=
  match s with
  | [] => None
  | c :: rest =>
      if Ascii.eqb c nl && starts_with_nl rest then Some (tl rest)
      else after_blank rest
  end.

Fixpoint strip_prefix (p s : str) : option str :=
  match p, s with
  | [], _ => Some s
  | a :: p', b :: s' => if Ascii.eqb a b then strip_prefix p' s' else None
  | _ :: _, [] => None
  end.

(** [re.sub(r'^WEBVTT.*?\n\n', '', content, flags=re.DOTALL)] *)
Definition strip_header (content : str) : str :=
  match strip_prefix (lit "WEBVTT") content with
  | Some rest =>
      match after_blank rest with
      | Some body => body
      | None => content
      end
  | None => content
  end.

Definition parse_vtt_block (index : Z) (block : str) : outcome (option seg) :=
  let lines := split_on nl (strip block) in
  if (length lines =? 0)%nat then Ok None
  else
    match find_time_line 0 lines with
    | None => Ok None
    | Some time_line_idx =>
        line <- getitem lines (Z.of_nat time_line_idx) ;;
        match match_time_vtt (strip line) with
        | None => Ok None
        | Some (g1, g2) =>
            start <- parse_timestamp_vtt g1 ;;
            end_ <- parse_timestamp_vtt g2 ;;
            let text := strip (join [nl] (drop (time_line_idx + 1) lines)) in
            Ok (Some (mkSeg (Some (index + 1)) start end_ text None))
        end
    end.

Fixpoint parse_vtt_blocks (index : Z) (blocks : list str) : outcome (list seg) :=
  match blocks with
  | [] => Ok []
  | block :: rest =>
      r <- parse_vtt_block index block ;;
      match r with
      | Some s => segments <- parse_vtt_blocks (index + 1) rest ;; Ok (s :: segments)
      | None => parse_vtt_blocks index rest
      end
  end.

Definition parse_vtt (content : str) : outcome (list seg) :=
  parse_vtt_blocks 0 (re_split_blank (strip (strip_header content))).

(** ** Format generators

    The generators write a file; they are given here by the text they
    write. *)

Fixpoint generate_blocks (fmt : Q -> str) (i : Z) (segments : list seg) : str :=
  match segments with
  | [] => []
  | seg :: rest =>
      str_of_int i ++ [nl] ++ fmt (start seg) ++ lit " --> " ++ fmt (end_ seg)
        ++ [nl] ++ strip (text seg) ++ [nl; nl] ++ generate_blocks fmt (i + 1) rest
  end.

Definition generate_srt (segments : list seg) : str :=
  generate_blocks format_timestamp_srt 1 segments.

Definition generate_vtt (segments : list seg) : str :=
  lit "WEBVTT" ++ [nl; nl] ++ generate_blocks format_timestamp_vtt 1 segments.

(** ** Vocabulary of the statements *)

(** What a segment carries besides its number. *)
Definition content (s : seg) : Q * Q * str * option str :=
  (start s, end_ s, text s, original s).

(** The elements of [xs] whose position, counted from [i], is not in [ixs]. *)
Fixpoint non_selected {A} (ixs : list Z) (i : nat) (xs : list A) : list A :=
  match xs with
  | [] => []
  | x :: rest =>
      if bool_decide (Z.of_nat i ∈ ixs) then non_selected ixs (S i) rest
      else x :: non_selected ixs (S i) rest
  end.

(** The numbers [i+1], [i+2], ... of [n] consecutive positions. *)
Definition numbers (i n : nat) : list (option Z) :=
  (fun k => Some (Z.of_nat k + 1)) <$> seq i n.

(** A check that [n], printed with width [w], is [w] digits that read
    back as [n]. *)
Definition prints_width (w : nat) (n : Z) : bool :=
  (length (fmt_d w n) =? w)%nat && forallb is_digit (fmt_d w n)
  && match py_int (fmt_d w n) with
     | Ok m => m =? n
     | _ => false
     end.

(** [s] truncated to whole milliseconds. *)
Definition trunc_ms (s : Q) : Q := (inject_Z (Qfloor (1000 * s)) / 1000)%Q.

(** [q] is the time [s] after a print to the millisecond and a read: the
    print drops the part of [s] below the millisecond.  The margin of a
    microsecond on either side is what the rounding of the floats may
    add: a time next to a whole millisecond is printed as that
    millisecond or as the one before, and the time read is a sum of
    floats.  Below 100 hours this rounding stays under [1e-10]. *)
Definition near_ms (s q : Q) : Prop :=
  (s - (1001 # 1000000) < q)%Q /\ (q < s + (1 # 1000000))%Q.

(** [k] is the offset in a text of [n] characters at the fraction [ratio]
    of its length, rounded down.  The margin of a millionth of a character
    is what the rounding of the floats may add to the product: next to a
    whole number it falls on either side. *)
Definition proportional (n : nat) (ratio : Q) (k : nat) : Prop :=
  let x := (inject_Z (Z.of_nat n) * ratio)%Q in
  (x - 1 - (1 # 1000000) < inject_Z (Z.of_nat k))%Q
  /\ (inject_Z (Z.of_nat k) < x + (1 # 1000000))%Q.

(** [y] is [x] without the whitespace around it: [x] is [y] between two
    runs of whitespace, and [y] neither starts nor ends with whitespace. *)
Definition trimmed (x y : str) : Prop :=
  exists l r, x = l ++ y ++ r
    /\ Forall (fun c => is_space c = true) l
    /\ Forall (fun c => is_space c = true) r
    /\ (forall c, head y = Some c -> is_space c = false)
    /\ (forall c, last y = Some c -> is_space c = false).

(** The value a run of digits reads as, after [acc]. *)
Fixpoint digits_value (d : str) (acc : Z) : Z :=
  match d with
  | [] => acc
  | c :: d' => digits_value d' (10 * acc + digit_val c)
  end.

(** Whether a text holds a blank line, two newlines in a row. *)
Fixpoint has_blank (s : str) : bool :=
  match s with
  | [] => false
  | c :: rest => (Ascii.eqb c nl && starts_with_nl rest) || has_blank rest
  end.

(** The block the primary-format generator writes for one segment, without
    the blank line that ends it, and the blocks of a sequence. *)
Definition block_of (i : Z) (seg : seg) : str :=
  str_of_int i ++ [nl] ++ format_timestamp_srt (start seg) ++ lit " --> "
    ++ format_timestamp_srt (end_ seg) ++ [nl] ++ strip (text seg).

Fixpoint blocks_of (i : Z) (segments : list seg) : list str :=
  match segments with
  | [] => []
  | seg :: rest => block_of i seg :: blocks_of (i + 1) rest
  end.

(** The segments the primary format carries through a write and a read:
    times from 0 to below 100 hours, and a text that, stripped, is not
    empty and holds no blank line. *)
Definition printable (s : seg) : Prop :=
  (0 <= start s)%Q /\ (start s < 360000)%Q
  /\ (0 <= end_ s)%Q /\ (end_ s < 360000)%Q
  /\ strip (text s) <> [] /\ has_blank (strip (text s)) = false.

(** What reading back gives, in exact arithmetic, for the segment written
    at position [i]. *)
Definition read_back (i : Z) (s p : seg) : Prop :=
  index p = Some i
  /\ (start p == trunc_ms (start s))%Q /\ (end_ p == trunc_ms (end_ s))%Q
  /\ text p = strip (text s) /\ original p = None.

(** The same with the times as [near_ms] has them: what a write and a
    read of the code give for the segment written at position [i]. *)
Definition read_near (i : Z) (s p : seg) : Prop :=
  index p = Some i
  /\ near_ms (start s) (start p) /\ near_ms (end_ s) (end_ p)
  /\ text p = strip (text s) /\ original p = None.

(** Two times less than a microsecond apart: what the rounding of a few
    float operations on times below 100 hours cannot exceed. *)
Definition within_us (x y : Q) : Prop :=
  (x - (1 # 1000000) < y)%Q /\ (y < x + (1 # 1000000))%Q.

(** What every parsed segment satisfies. *)
Definition parsed_seg (p : seg) : Prop :=
  is_Some (index p) /\ original p = None /\ strip (text p) = text p
  /\ (0 <= start p)%Q /\ (start p < 362440)%Q
  /\ (0 <= end_ p)%Q /\ (end_ p < 362440)%Q.

(** [p] is numbered by the integer on the first line of one of [blocks]. *)
Definition numbered_by_block (blocks : list str) (p : seg) : Prop :=
  exists block l0 rest n,
    block ∈ blocks
    /\ split_on nl (strip block) = l0 :: rest
    /\ py_int (strip l0) = Ok n /\ index p = Some n.

(** The store [h'] still holds every dict of [h], each with the times, the
    text and the [original] it had. *)
Definition keeps_contents (h h' : list seg) : Prop :=
  (length h <= length h')%nat
  /\ forall l, (l < length h)%nat -> content <$> (h' !! l) = content <$> (h !! l).

(** A segment with the times of [s] moved by [d] as the global shift of
    the editor page moves them. *)
Definition shifted (d : Q) (s : seg) : seg :=
  set_times (py_max 0 (start s + d)) (py_max (1 # 10) (end_ s + d)) s.

(** ** The editor page: advanced operations and exports *)

(** [list(range(lo, hi))]. *)
Definition py_range (lo hi : Z) : list Z :=
  (fun k => lo + Z.of_nat k) <$> seq 0 (Z.to_nat (hi - lo)).

(** The handler of the merge button, given the two numbers of the form:
    unless the first is below the second, the session's sequence stays. *)
Definition merge_button (h : heap) (segments : list loc) (merge_start merge_end : Z)
  : outcome (list loc * heap) :=
  if merge_start <? merge_end then
    let indices := py_range (merge_start - 1) merge_end in
    merge_segments h segments indices
  else Ok (segments, h).

(** The handler of the split button, given the number and the ratio of the
    form. *)
Definition split_button (h : heap) (segments : list loc) (split_index : Z)
    (split_ratio : Q) : outcome (list loc * heap) :=
  l <- getitem segments (split_index - 1) ;;
  seg <- deref h l ;;
  let split_time := (start seg + (end_ seg - start seg) * split_ratio)%Q in
  split_segment h segments (split_index - 1) split_time.

(** [s.replace(old, new)] for two single characters. *)
Definition replace_char (old new : ascii) (s : str) : str :=
  (fun c => if Ascii.eqb c old then new else c) <$> s.

(** The text the page builds for a download: the blocks of the generators,
    with the text of each segment as it is. *)
Fixpoint export_blocks (fmt : Q -> str) (i : Z) (segments : list seg) : str :=
  match segments with
  | [] => []
  | seg :: rest =>
      str_of_int i ++ [nl] ++ fmt (start seg) ++ lit " --> " ++ fmt (end_ seg)
        ++ [nl] ++ text seg ++ [nl; nl] ++ export_blocks fmt (i + 1) rest
  end.

Definition export_srt (segments : list seg) : str :=
  export_blocks format_timestamp_srt 1 segments.

Definition export_vtt (segments : list seg) : str :=
  lit "WEBVTT" ++ [nl; nl]
    ++ export_blocks (fun s => replace_char ","%char "."%char (format_timestamp_srt s))
                     1 segments.

(** The block a generator writes for one segment with the timestamp
    printer [fmt], without the blank line that ends it, and the blocks of
    a sequence. *)
Definition block_with (fmt : Q -> str) (i : Z) (seg : seg) : str :=
  str_of_int i ++ [nl] ++ fmt (start seg) ++ lit " --> " ++ fmt (end_ seg)
    ++ [nl] ++ strip (text seg).

Fixpoint blocks_with (fmt : Q -> str) (i : Z) (segments : list seg) : list str :=
  match segments with
  | [] => []
  | seg :: rest => block_with fmt i seg :: blocks_with fmt (i + 1) rest
  end.

(** A read that returns one segment per written segment, in order, each
    reading back as what was written. *)
Definition reads_back (segments : list seg) (r : outcome (list seg)) : Prop :=
  exists parsed,
    r = Ok parsed
    /\ length parsed = length segments
    /\ forall (k : nat) s p, segments !! k = Some s -> parsed !! k = Some p ->
                             read_back (Z.of_nat k + 1) s p.

Definition reads_near (segments : list seg) (r : outcome (list seg)) : Prop :=
  exists parsed,
    r = Ok parsed
    /\ length parsed = length segments
    /\ forall (k : nat) s p, segments !! k = Some s -> parsed !! k = Some p ->
                             read_near (Z.of_nat k + 1) s p.

(** ** Choosing the parser by the name of the file *)

Fixpoint str_eqb (a b : str) : bool :=
  match a, b with
  | [], [] => true
  | x :: a', y :: b' => Ascii.eqb x y && str_eqb a' b'
  | _, _ => false
  end.

(** [s.endswith(suffix)]. *)
Definition endswith (s suffix : str) : bool :=
  (length suffix <=? length s)%nat && str_eqb (drop (length s - length suffix) s) suffix.

(** [s.lower()], for code points below 256: the letters A to Z and the
    capital letters of Latin-1. *)
Definition lower_char (c : ascii) : ascii :=
  let n := nat_of_ascii c in
  if ((65 <=? n) && (n <=? 90))%nat || ((192 <=? n) && (n <=? 222) && negb (n =? 215))%nat
  then ascii_of_nat (n + 32) else c.

Definition lower (s : str) : str := lower_char <$> s.

(** [os.path.splitext(p)[1]] with the separator of POSIX: the part from
    the last dot on, when that dot comes after the last separator and
    after a character of the file name that is no dot. *)
Definition splitext_ext (p : str) : str :=
  let sepIndex := rfind "/"%char p (Z.of_nat (length p)) in
  let dotIndex := rfind "."%char p (Z.of_nat (length p)) in
  if sepIndex <? dotIndex then
    let name := take (Z.to_nat (dotIndex - (sepIndex + 1))) (drop (Z.to_nat (sepIndex + 1)) p) in
    if existsb (fun c => negb (Ascii.eqb c "."%char)) name
    then drop (Z.to_nat dotIndex) p else []
  else [].

Definition cr : ascii := "013"%char.

(** What [f.read()] returns for a file opened in text mode that holds the
    characters [data] (universal newlines): each of the line ends "\r\n"
    and "\r" is read as "\n".  [after_cr] tells that the character before
    was a "\r". *)
Fixpoint read_text (after_cr : bool) (data : str) : str :=
  match data with
  | [] => []
  | c :: rest =>
      if Ascii.eqb c cr then nl :: read_text true rest
      else if Ascii.eqb c nl && after_cr then read_text false rest
      else c :: read_text false rest
  end.

(** [parse_file], given the path and the characters the file holds. *)
Definition parse_file (file_path data : str) : outcome (list seg) :=
  let content := read_text false data in
  let ext := lower (splitext_ext file_path) in
  if str_eqb ext (lit ".vtt") then parse_vtt content else parse_srt content.

(** A text without carriage return. *)
Definition no_cr (s : str) : Prop := Forall (fun c => Ascii.eqb c cr = false) s.

(** The upload of the editor page, given the name and the decoded text of
    the uploaded file. *)
Definition load_upload (name content : str) : outcome (list seg) :=
  if endswith name (lit ".vtt") then parse_vtt content else parse_srt content.

(** ** The time columns of the editor's table *)

(** The whitespace [int] skips around a number: that of [str.strip]
    without the separators FS, GS, RS and US. *)
Definition is_int_space (c : ascii) : bool :=
  let n := nat_of_ascii c in
  ((9 <=? n) && (n <=? 13))%nat || (n =? 32)%nat || (n =? 133)%nat || (n =? 160)%nat.

Fixpoint lstrip_with (p : ascii -> bool) (s : str) : str :=
  match s with
  | c :: s' => if p c then lstrip_with p s' else s
  | [] => []
  end.

Definition strip_with (p : ascii -> bool) (s : str) : str :=
  rev (lstrip_with p (rev (lstrip_with p s))).

(** [int(s)] on any text.  [py_int] is this function on the texts the
    parsers pass, which start and end like a stripped text. *)
Definition int_of_str (s : str) : outcome Z :=
  let s := strip_with is_int_space s in
  let r := match s with
           | c :: s' =>
               if Ascii.eqb c "-"%char then Z.opp <$> int_digits s' 0 false
               else if Ascii.eqb c "+"%char then int_digits s' 0 false
               else int_digits s 0 false
           | [] => None
           end in
  match r with
  | Some n => Ok n
  | None => Raise ValueError
  end.

(** The nearest integer, ties to the even one. *)
Definition round_half_even (x : Q) : Z :=
  let f := Qfloor x in
  match ((x - inject_Z f) ?= 1 # 2)%Q with
  | Lt => f
  | Gt => f + 1
  | Eq => if Z.even f then f else f + 1
  end.

(** The digits of [h] hundredths: integer part, point, two decimals. *)
Definition hundredths (h : Z) : str := digits (h / 100) ++ ["."%char] ++ fmt_d 2 (h mod 100).

(** The format specification [{x:0w.2f}]: the number rounded to two
    decimals, padded with zeros after the sign to [w] characters. *)
Definition fmt_f (w : nat) (x : Q) : str :=
  if Qlt_le_dec x 0 then
    let body := hundredths (round_half_even (- x * 100)) in
    "-"%char :: replicate (w - 1 - length body) "0"%char ++ body
  else
    let body := hundredths (round_half_even (x * 100)) in
    replicate (w - length body) "0"%char ++ body.

Definition format_time_display (seconds : Q) : str :=
  let minutes := floordiv seconds 60 in
  let secs := fmod seconds 60 in
  fmt_d 2 minutes ++ [":"%char] ++ fmt_f 5 secs.

(** [parse_time_display] on a text.  [py_float] stands for [float] on the
    texts it is given; whatever is raised inside is caught and the result
    is then 0. *)
Definition parse_time_display (py_float : str -> outcome Q) (time_str : str) : outcome Q :=
  let attempt : outcome (option Q) :=
    if existsb (fun c => Ascii.eqb c ","%char) time_str || (8 <? length time_str)%nat then
      q <- parse_timestamp_srt time_str ;; Ok (Some q)
    else
      let parts := split_on ":"%char time_str in
      if (length parts =? 2)%nat then
        p0 <- getitem parts 0 ;;
        minutes <- int_of_str p0 ;;
        p1 <- getitem parts 1 ;;
        secs <- py_float p1 ;;
        Ok (Some (inject_Z (minutes * 60) + secs)%Q)
      else if (length parts =? 3)%nat then
        p0 <- getitem parts 0 ;;
        hours <- int_of_str p0 ;;
        p1 <- getitem parts 1 ;;
        minutes <- int_of_str p1 ;;
        p2 <- getitem parts 2 ;;
        secs <- py_float (replace_char ","%char "."%char p2) ;;
        Ok (Some (inject_Z (hours * 3600 + minutes * 60) + secs)%Q)
      else Ok None in
  match attempt with
  | Ok (Some q) => Ok q
  | Ok None => Ok 0%Q
  | Raise _ => Ok 0%Q
  | Dangling => Dangling
  end.

(** A check that the text of [h] hundredths, padded to five characters,
    has five characters, none of them a colon or a comma. *)
Definition seconds_text (h : Z) : str :=
  replicate (5 - length (hundredths h)) "0"%char ++ hundredths h.

Definition seconds_text_plain (h : Z) : bool :=
  (length (seconds_text h) =? 5)%nat
  && forallb (fun c => negb (Ascii.eqb c ":"%char) && negb (Ascii.eqb c ","%char))
             (seconds_text h).

(** ** Translation

    The translation service is outside the program: [service sent text] is
    what it answers to the request [text] made after the requests [sent],
    or [None] when that request fails.  The functions return what they
    compute together with the requests made. *)

(** [not text or not text.strip()] *)
Definition is_blank (text : str) : bool :=
  match text with [] => true | _ => false end
  || match strip text with [] => true | _ => false end.

(** [MultiLangTranslator.translate]: a failed request is caught and the
    text returned as it is. *)
Definition translate (service : list str -> str -> option str) (sent : list str)
    (text : str) : str * list str :=
  if is_blank text then (text, sent)
  else
    match service sent text with
    | Some translated => (translated, sent ++ [text])
    | None => (text, sent ++ [text])
    end.

(** The loop of [MultiLangTranslator.translate_segments]; the dicts it
    builds are fresh and given by their values. *)
Fixpoint translate_loop (service : list str -> str -> option str) (sent : list str)
    (segments : list seg) : list seg * list str :=
  match segments with
  | [] => ([], sent)
  | seg :: rest =>
      let text := text seg in
      let '(translated_text, sent1) := translate service sent text in
      let '(translated, sent2) := translate_loop service sent1 rest in
      (mkSeg None (start seg) (end_ seg) translated_text (Some text) :: translated, sent2)
  end.

Definition translate_segments (service : list str -> str -> option str)
    (segments : list seg) : list seg * list str :=
  translate_loop service [] segments.

(** ** Languages and voices

    The tables are given with their codes and identifiers; the display
    names, which none of the functions below reads, are left out. *)

(** [d.get(k)] on a dict with the keys in the order of the literal. *)
Fixpoint dict_get {V} (d : list (str * V)) (k : str) : option V :=
  match d with
  | [] => None
  | (k', v) :: rest => if str_eqb k k' then Some v else dict_get rest k
  end.

Record language := mkLanguage {
  lang_whisper : str;
  lang_translate : str;
  lang_tts : str
}.

Definition SUPPORTED_LANGUAGES : list (str * language) :=
  [ (lit "en", mkLanguage (lit "en") (lit "en") (lit "en-US"));
    (lit "zh", mkLanguage (lit "zh") (lit "zh-CN") (lit "zh-CN"));
    (lit "ja", mkLanguage (lit "ja") (lit "ja") (lit "ja-JP"));
    (lit "ko", mkLanguage (lit "ko") (lit "ko") (lit "ko-KR"));
    (lit "es", mkLanguage (lit "es") (lit "es") (lit "es-ES"));
    (lit "fr", mkLanguage (lit "fr") (lit "fr") (lit "fr-FR"));
    (lit "de", mkLanguage (lit "de") (lit "de") (lit "de-DE"));
    (lit "ru", mkLanguage (lit "ru") (lit "ru") (lit "ru-RU"));
    (lit "pt", mkLanguage (lit "pt") (lit "pt") (lit "pt-BR"));
    (lit "ar", mkLanguage (lit "ar") (lit "ar") (lit "ar-SA"));
    (lit "it", mkLanguage (lit "it") (lit "it") (lit "it-IT"));
    (lit "nl", mkLanguage (lit "nl") (lit "nl") (lit "nl-NL"));
    (lit "pl", mkLanguage (lit "pl") (lit "pl") (lit "pl-PL"));
    (lit "tr", mkLanguage (lit "tr") (lit "tr") (lit "tr-TR"));
    (lit "vi", mkLanguage (lit "vi") (lit "vi") (lit "vi-VN"));
    (lit "th", mkLanguage (lit "th") (lit "th") (lit "th-TH"));
    (lit "id", mkLanguage (lit "id") (lit "id") (lit "id-ID"));
    (lit "hi", mkLanguage (lit "hi") (lit "hi") (lit "hi-IN")) ].

Definition get_whisper_code (code : str) : str :=
  match dict_get SUPPORTED_LANGUAGES code with
  | Some info => lang_whisper info
  | None => lit "en"
  end.

Definition get_translate_code (code : str) : str :=
  match dict_get SUPPORTED_LANGUAGES code with
  | Some info => lang_translate info
  | None => lit "en"
  end.

Definition get_tts_code (code : str) : str :=
  match dict_get SUPPORTED_LANGUAGES code with
  | Some info => lang_tts info
  | None => lit "en-US"
  end.

Definition VOICE_OPTIONS : list (str * list str) :=
  [ (lit "zh-CN",
     [lit "zh-CN-XiaoxiaoNeural"; lit "zh-CN-XiaoyiNeural"; lit "zh-CN-YunxiNeural";
      lit "zh-CN-YunjianNeural"; lit "zh-CN-YunyangNeural"]);
    (lit "en-US",
     [lit "en-US-JennyNeural"; lit "en-US-GuyNeural"; lit "en-US-AriaNeural";
      lit "en-US-DavisNeural"]);
    (lit "ja-JP",
     [lit "ja-JP-NanamiNeural"; lit "ja-JP-KeitaNeural"]);
    (lit "ko-KR",
     [lit "ko-KR-SunHiNeural"; lit "ko-KR-InJoonNeural"]);
    (lit "es-ES",
     [lit "es-ES-ElviraNeural"; lit "es-ES-AlvaroNeural"]);
    (lit "fr-FR",
     [lit "fr-FR-DeniseNeural"; lit "fr-FR-HenriNeural"]);
    (lit "de-DE",
     [lit "de-DE-KatjaNeural"; lit "de-DE-ConradNeural"]);
    (lit "ru-RU",
     [lit "ru-RU-SvetlanaNeural"; lit "ru-RU-DmitryNeural"]);
    (lit "pt-BR",
     [lit "pt-BR-FranciscaNeural"; lit "pt-BR-AntonioNeural"]);
    (lit "ar-SA",
     [lit "ar-SA-ZariyahNeural"; lit "ar-SA-HamedNeural"]) ].

Definition DEFAULT_VOICES : list (str * str) :=
  [ (lit "zh-CN", lit "zh-CN-XiaoxiaoNeural");
    (lit "en-US", lit "en-US-JennyNeural");
    (lit "ja-JP", lit "ja-JP-NanamiNeural");
    (lit "ko-KR", lit "ko-KR-SunHiNeural");
    (lit "es-ES", lit "es-ES-ElviraNeural");
    (lit "fr-FR", lit "fr-FR-DeniseNeural");
    (lit "de-DE", lit "de-DE-KatjaNeural");
    (lit "ru-RU", lit "ru-RU-SvetlanaNeural");
    (lit "pt-BR", lit "pt-BR-FranciscaNeural");
    (lit "ar-SA", lit "ar-SA-ZariyahNeural") ].

(** [VOICE_OPTIONS.get(lang_code, VOICE_OPTIONS['en-US'])]: the default is
    looked up first; [None] is the [KeyError] of that lookup. *)
Definition get_voices_for_language (lang_code : str) : option (list str) :=
  match dict_get VOICE_OPTIONS (lit "en-US") with
  | Some fallback =>
      Some (match dict_get VOICE_OPTIONS lang_code with
            | Some voices => voices
            | None => fallback
            end)
  | None => None
  end.

Definition get_default_voice (lang_code : str) : str :=
  match dict_get DEFAULT_VOICES lang_code with
  | Some voice => voice
  | None => lit "en-US-JennyNeural"
  end.

(** The codes of the languages that have voices of their own. *)
Definition voiced_languages : list str :=
  [lit "en"; lit "zh"; lit "ja"; lit "ko"; lit "es"; lit "fr"; lit "de"; lit "ru";
   lit "pt"; lit "ar"].

(** ** Speech synthesis

    The speech service is outside the program: [speak sent text path] tells
    whether the request to save [text] at [path], made after the requests
    [sent], succeeds; when it fails the exception leaves the function, which
    is the result [None].  So is the file system: [makedirs output_dir]
    tells whether the output directory can be made.  The functions return
    what they compute together with the requests made. *)

(** An entry of the list [synthesize_segments] returns. *)
Record audio := mkAudio {
  path : str;
  audio_start : Q;
  audio_end : Q;
  audio_text : str;
  audio_index : Z
}.

(** [os.path.join(a, b)] with the separator of POSIX. *)
Definition path_join (a b : str) : str :=
  if match b with c :: _ => Ascii.eqb c "/"%char | [] => false end then b
  else if match a with [] => true | _ => false end || endswith a (lit "/") then a ++ b
  else a ++ lit "/" ++ b.

(** [f"segment_{i:04d}.mp3"] *)
Definition segment_name (i : Z) : str := lit "segment_" ++ fmt_d 4 i ++ lit ".mp3".

(** [EdgeTTSEngine.synthesize]: no request for a blank text. *)
Definition synthesize (speak : list (str * str) -> str -> str -> bool)
    (sent : list (str * str)) (text output_path : str) : bool * list (str * str) :=
  if match strip text with [] => true | _ => false end then (true, sent)
  else (speak sent text output_path, sent ++ [(text, output_path)]).

(** The loop of [EdgeTTSEngine.synthesize_segments], at position [i]. *)
Fixpoint synthesize_loop (speak : list (str * str) -> str -> str -> bool)
    (output_dir : str) (i : Z) (sent : list (str * str)) (segments : list seg)
  : option (list audio) * list (str * str) :=
  match segments with
  | [] => (Some [], sent)
  | seg :: rest =>
      let text := strip (text seg) in
      if match text with [] => true | _ => false end
      then synthesize_loop speak output_dir (i + 1) sent rest
      else
        let output_path := path_join output_dir (segment_name i) in
        let '(saved, sent1) := synthesize speak sent text output_path in
        if saved then
          let '(r, sent2) := synthesize_loop speak output_dir (i + 1) sent1 rest in
          (match r with
           | Some audio_files =>
               Some (mkAudio output_path (start seg) (end_ seg) text i :: audio_files)
           | None => None
           end, sent2)
        else (None, sent1)
  end.

(** [EdgeTTSEngine.synthesize_segments].  It starts with
    [os.makedirs(output_dir, exist_ok=True)], which raises on the empty
    path; on any other path the file system decides, and
    [makedirs output_dir] tells whether the call returns. *)
Definition synthesize_segments (makedirs : str -> bool)
    (speak : list (str * str) -> str -> str -> bool)
    (segments : list seg) (output_dir : str) : option (list audio) * list (str * str) :=
  if match output_dir with [] => false | _ => makedirs output_dir end
  then synthesize_loop speak output_dir 0 [] segments
  else (None, []).

(** What an entry says of the segment it was made from, at position
    [audio_index] counted from [i]. *)
Definition entry_of (output_dir : str) (i : Z) (segments : list seg) (a : audio) : Prop :=
  i <= audio_index a
  /\ exists s, segments !! Z.to_nat (audio_index a - i) = Some s
               /\ audio_start a = start s /\ audio_end a = end_ s
               /\ audio_text a = strip (text s) /\ audio_text a <> []
               /\ path a = path_join output_dir (segment_name (audio_index a)).

(** ** Sample data

    Three segments in a store, the first two translated; the session's
    sequence refers to them in order. *)

Definition seg_a : seg :=
  mkSeg (Some 1) 1 (7 # 2) (lit "Hello world") (Some (lit "Hallo Welt")).
Definition seg_b : seg :=
  mkSeg (Some 2) (7 # 2) 5 (lit "Bye") (Some (lit "Tschuess")).
Definition seg_c : seg := mkSeg (Some 3) 6 7 (lit "See you later") None.

Definition sample_store : list seg := [seg_a; seg_b; seg_c].
Definition sample_segments : list nat := [0; 1; 2]%nat.

(** A sequence whose only segment is numbered 5. *)
Definition odd_store : list seg := [mkSeg (Some 5) 1 2 (lit "a") None].

(** A segment of fifty milliseconds. *)
Definition short_store : list seg := [mkSeg (Some 1) 1 (21 # 20) (lit "a") None].

(** A segment whose text holds a blank line, and one at 100 hours. *)
Definition blank_line_seg : seg :=
  mkSeg (Some 1) 0 1 (lit "a" ++ [nl; nl] ++ lit "b") None.
Definition late_seg : seg := mkSeg (Some 1) 360000 360001 (lit "x") None.

(** A block of the primary format whose timing line runs backwards. *)
Definition backwards_block : str :=
  lit "7" ++ [nl] ++ lit "00:00:05,000 --> 00:00:01,000" ++ [nl] ++ lit "x".

(** A segment whose text holds two carriage returns in a row. *)
Definition cr_seg : seg := mkSeg (Some 1) 0 1 (lit "a" ++ [cr; cr] ++ lit "b") None.

(* ================================================================== *)
(** * Properties *)

Section store.
Implicit Types (h : list seg) (ls : list nat) (l : nat).

Lemma read_all_spec h ls vs :
  read_all h ls = Some vs <-> Forall2 (fun l v => h !! l = Some v) ls vs.
Proof. apply mapM_Some. Qed.

Lemma read_all_length h ls vs : read_all h ls = Some vs -> length vs = length ls.
Proof. intros H. symmetry. by eapply length_mapM. Qed.

Lemma read_all_lookup h ls vs k l :
  read_all h ls = Some vs -> ls !! k = Some l -> h !! l = vs !! k /\ is_Some (vs !! k).
Proof.
  rewrite read_all_spec. intros HF Hl.
  destruct (Forall2_lookup_l _ _ _ _ _ HF Hl) as (v & Hv & Hh).
  rewrite Hv, Hh. eauto.
Qed.

Lemma read_all_wf h ls vs : read_all h ls = Some vs -> wf h ls.
Proof.
  rewrite read_all_spec. unfold wf. induction 1; constructor; auto.
  by eapply lookup_lt_Some.
Qed.

Lemma wf_read_all h ls : wf h ls -> exists vs, read_all h ls = Some vs.
Proof.
  intros H. apply (mapM_is_Some_2 (fun l => h !! l)).
  eapply Forall_impl; [exact H|]. intros l Hl. by apply lookup_lt_is_Some_2.
Qed.

Lemma read_all_app h ls1 ls2 vs1 vs2 :
  read_all h ls1 = Some vs1 -> read_all h ls2 = Some vs2 ->
  read_all h (ls1 ++ ls2) = Some (vs1 ++ vs2).
Proof. rewrite !read_all_spec. apply Forall2_app. Qed.

Lemma read_all_grow h h' ls vs :
  read_all h ls = Some vs -> read_all (h ++ h') ls = Some vs.
Proof.
  rewrite !read_all_spec. intros H. eapply Forall2_impl; [exact H|].
  intros l v Hl. by apply lookup_app_l_Some.
Qed.

(** *** Renumbering *)

Lemma renumber_length h i ls : length (renumber h i ls) = length h.
Proof.
  revert h i. induction ls as [|l ls IH]; intros h i; simpl; [done|].
  destruct (h !! l); rewrite IH; [by rewrite length_insert|done].
Qed.

Lemma renumber_content h i ls l :
  content <$> (renumber h i ls !! l) = content <$> (h !! l).
Proof.
  revert h i. induction ls as [|l' ls IH]; intros h i; simpl; [done|].
  destruct (h !! l') as [s|] eqn:E; rewrite IH; [|done].
  destruct (decide (l' = l)) as [->|Hne].
  - rewrite list_lookup_insert_eq by (by eapply lookup_lt_Some). by rewrite E.
  - by rewrite list_lookup_insert_ne.
Qed.

Lemma renumber_notin h i ls l : l ∉ ls -> renumber h i ls !! l = h !! l.
Proof.
  revert h i. induction ls as [|l' ls IH]; intros h i Hn; simpl; [done|].
  apply not_elem_of_cons in Hn as [Hne Hn].
  destruct (h !! l') as [s|] eqn:E; rewrite IH by done; [|done].
  by rewrite list_lookup_insert_ne.
Qed.

Lemma renumber_index h i ls k l :
  NoDup ls -> wf h ls -> ls !! k = Some l ->
  index <$> (renumber h i ls !! l) = Some (Some (Z.of_nat (i + k) + 1)).
Proof.
  revert h i k. induction ls as [|l' ls IH]; intros h i k Hnd Hwf Hk; [done|].
  apply NoDup_cons in Hnd as [Hni Hnd]. apply Forall_cons in Hwf as [Hl' Hwf].
  simpl. destruct (lookup_lt_is_Some_2 h l' Hl') as [s Hs]. rewrite Hs.
  destruct k as [|k]; simpl in Hk.
  - injection Hk as ->. rewrite renumber_notin by done.
    rewrite list_lookup_insert_eq by done. simpl. do 3 f_equal. lia.
  - rewrite (IH _ (S i) k); auto.
    + do 3 f_equal. lia.
    + unfold wf. by rewrite length_insert.
Qed.

Lemma read_all_renumber_content h i ls ls' vs :
  read_all h ls' = Some vs ->
  exists vs', read_all (renumber h i ls) ls' = Some vs'
              /\ content <$> vs' = content <$> vs.
Proof.
  rewrite read_all_spec. induction 1 as [|l v ls' vs Hl _ (vs' & H' & Hc)].
  - by exists [].
  - pose proof (renumber_content h i ls l) as Hcl. rewrite Hl in Hcl.
    destruct (renumber h i ls !! l) as [s'|] eqn:Es'; [|done].
    exists (s' :: vs'). split.
    + apply read_all_spec. constructor; [done|]. by apply read_all_spec.
    + change (Some (content s') = Some (content v)) in Hcl.
      apply (inj Some) in Hcl. by rewrite !fmap_cons, Hcl, Hc.
Qed.

Lemma read_all_renumber_index h ls vs :
  NoDup ls -> read_all h ls = Some vs ->
  exists vs', read_all (renumber h 0 ls) ls = Some vs'
              /\ index <$> vs' = numbers 0 (length ls).
Proof.
  intros Hnd H.
  destruct (read_all_renumber_content h 0 ls ls vs H) as (vs' & H' & _).
  exists vs'. split; [done|].
  apply list_eq. intros k. unfold numbers. rewrite !list_lookup_fmap.
  destruct (ls !! k) as [l|] eqn:El.
  - destruct (read_all_lookup _ _ _ _ _ H' El) as [Hh _].
    rewrite <- Hh, (renumber_index h 0 ls k l Hnd (read_all_wf _ _ _ H) El).
    rewrite lookup_seq_lt by (by eapply lookup_lt_Some). done.
  - apply lookup_ge_None in El.
    rewrite (lookup_ge_None_2 vs') by (rewrite (read_all_length _ _ _ H'); lia).
    rewrite lookup_seq_ge by lia. done.
Qed.
End store.

(** ** Indexing and sorting *)

Lemma getitem_ok {A} (l : list A) (k : Z) (a : A) :
  0 <= k -> l !! Z.to_nat k = Some a -> getitem l k = Ok a.
Proof.
  intros Hk Hl. pose proof (lookup_lt_Some _ _ _ Hl) as Hlt.
  assert (E1 : (k <? 0) = false) by lia.
  assert (E2 : (Z.of_nat (length l) <=? k) = false) by lia.
  unfold getitem. cbv zeta. rewrite E1. cbv iota. rewrite E1, E2. cbn [orb].
  by rewrite Hl.
Qed.

Lemma getitem_last {A} (l : list A) (a : A) :
  last l = Some a -> getitem l (-1) = Ok a.
Proof.
  intros Hl.
  assert (Hn : (0 < length l)%nat) by (destruct l; [done|simpl; lia]).
  assert (E1 : (-1 + Z.of_nat (length l) <? 0) = false) by lia.
  assert (E2 : (Z.of_nat (length l) <=? -1 + Z.of_nat (length l)) = false) by lia.
  unfold getitem. cbv zeta. change (-1 <? 0) with true. cbv iota.
  rewrite E1, E2. cbn [orb]. rewrite last_lookup in Hl.
  replace (Z.to_nat (-1 + Z.of_nat (length l))) with (Nat.pred (length l)) by lia.
  by rewrite Hl.
Qed.

Lemma getitem_too_large {A} (l : list A) (k : Z) :
  Z.of_nat (length l) <= k -> getitem l k = Raise IndexError.
Proof.
  intros Hk.
  assert (E1 : (k <? 0) = false) by lia.
  assert (E2 : (Z.of_nat (length l) <=? k) = true) by lia.
  unfold getitem. cbv zeta. rewrite E1. cbv iota. by rewrite E1, E2.
Qed.

Lemma sorted_perm (l : list Z) : sorted l ≡ₚ l.
Proof. apply merge_sort_Permutation. Qed.

Lemma sorted_le (l : list Z) : StronglySorted Z.le (sorted l).
Proof. apply StronglySorted_merge_sort; apply _. Qed.

Lemma sorted_lt (l : list Z) : NoDup l -> StronglySorted Z.lt (sorted l).
Proof.
  intros Hnd. rewrite <- (sorted_perm l) in Hnd.
  pose proof (sorted_le l) as Hs. induction Hs as [|x xs Hs IH Hx]; constructor.
  - apply IH. by apply NoDup_cons in Hnd as [_ ?].
  - apply NoDup_cons in Hnd as [Hni _].
    rewrite Forall_forall in Hx |- *. intros y Hy.
    assert (x <> y) by (intros ->; by apply Hni).
    specialize (Hx y Hy). lia.
Qed.

(** In an ascending list the head is the least and the last the greatest
    element. *)
Lemma ascending_head_least (l : list Z) (lo : Z) :
  StronglySorted Z.lt l -> head l = Some lo -> forall z, z ∈ l -> lo <= z.
Proof.
  intros Hs Hh z Hz. destruct l as [|x xs]; [done|]. injection Hh as ->.
  apply StronglySorted_inv in Hs as [_ Hx]. rewrite Forall_forall in Hx.
  apply elem_of_cons in Hz as [->|Hz]; [lia|]. specialize (Hx z Hz). lia.
Qed.

Lemma ascending_last_greatest (l : list Z) (hi : Z) :
  StronglySorted Z.lt l -> last l = Some hi -> forall z, z ∈ l -> z <= hi.
Proof.
  induction 1 as [|x xs Hs IH Hx]; intros Hl z Hz; [done|].
  rewrite Forall_forall in Hx.
  destruct xs as [|y ys].
  - injection Hl as <-. apply list_elem_of_singleton in Hz. lia.
  - change (last (y :: ys) = Some hi) in Hl.
    apply elem_of_cons in Hz as [->|Hz]; [|by apply IH].
    assert (hi ∈ y :: ys) as Hhi.
    { apply list_elem_of_lookup. exists (Nat.pred (length (y :: ys))).
      by rewrite <- last_lookup. }
    specialize (Hx hi Hhi). lia.
Qed.

(** ** The segments a merge keeps *)

Lemma non_selected_nil {A} (i : nat) (xs : list A) : non_selected [] i xs = xs.
Proof.
  revert i. induction xs as [|x xs IH]; intros i; cbn [non_selected]; [done|].
  rewrite bool_decide_eq_false_2 by apply not_elem_of_nil. by rewrite IH.
Qed.

Lemma non_selected_ext {A} (ixs ixs' : list Z) (i : nat) (xs : list A) :
  (forall z, z ∈ ixs <-> z ∈ ixs') -> non_selected ixs i xs = non_selected ixs' i xs.
Proof.
  intros He. revert i. induction xs as [|x xs IH]; intros i; cbn [non_selected]; [done|].
  rewrite (bool_decide_ext _ _ (He (Z.of_nat i))). by rewrite IH.
Qed.

Lemma non_selected_app {A} (ixs : list Z) (i : nat) (xs ys : list A) :
  non_selected ixs i (xs ++ ys)
  = non_selected ixs i xs ++ non_selected ixs (i + length xs) ys.
Proof.
  revert i. induction xs as [|x xs IH]; intros i; cbn [non_selected app length].
  - by rewrite Nat.add_0_r.
  - rewrite IH. replace (S i + length xs)%nat with (i + S (length xs))%nat by lia.
    by destruct (bool_decide _).
Qed.

(** Positions below every selected index are kept. *)
Lemma non_selected_below {A} (ixs : list Z) (i : nat) (xs : list A) :
  (forall z, z ∈ ixs -> Z.of_nat (i + length xs) <= z) -> non_selected ixs i xs = xs.
Proof.
  revert i. induction xs as [|x xs IH]; intros i Hlo; cbn [non_selected]; [done|].
  rewrite bool_decide_eq_false_2.
  - rewrite IH; [done|]. intros z Hz. specialize (Hlo z Hz). simpl in Hlo. lia.
  - intros Hi. specialize (Hlo _ Hi). simpl in Hlo. lia.
Qed.

(** An index below the current position selects nothing any more. *)
Lemma non_selected_passed {A} (z : Z) (ixs : list Z) (i : nat) (xs : list A) :
  z < Z.of_nat i -> non_selected (z :: ixs) i xs = non_selected ixs i xs.
Proof.
  revert i. induction xs as [|x xs IH]; intros i Hz; cbn [non_selected]; [done|].
  rewrite IH by lia. apply (f_equal (fun b : bool => if b then _ else _)).
  apply bool_decide_ext. rewrite elem_of_cons. intuition lia.
Qed.

Lemma non_selected_length_cons {A} (z : Z) (ixs : list Z) (i : nat) (xs : list A) :
  z ∉ ixs -> Z.of_nat i <= z < Z.of_nat (i + length xs) ->
  S (length (non_selected (z :: ixs) i xs)) = length (non_selected ixs i xs).
Proof.
  revert i. induction xs as [|x xs IH]; intros i Hni Hz; cbn [non_selected length] in *; [lia|].
  destruct (decide (Z.of_nat i = z)) as [<-|Hne].
  - rewrite bool_decide_eq_true_2 by (apply elem_of_cons; by left).
    rewrite bool_decide_eq_false_2 by done.
    rewrite non_selected_passed by lia. done.
  - rewrite (bool_decide_ext (Z.of_nat i ∈ z :: ixs) (Z.of_nat i ∈ ixs))
      by (rewrite elem_of_cons; intuition congruence).
    pose proof (IH (S i) Hni ltac:(lia)) as IH'.
    destruct (bool_decide _); cbn [length]; lia.
Qed.

Lemma non_selected_length {A} (ixs : list Z) (xs : list A) :
  NoDup ixs -> Forall (fun z => 0 <= z < Z.of_nat (length xs)) ixs ->
  (length (non_selected ixs 0 xs) + length ixs = length xs)%nat.
Proof.
  induction 1 as [|z ixs Hni Hnd IH]; intros Hr.
  - rewrite non_selected_nil. simpl. lia.
  - apply Forall_cons in Hr as [Hz Hr]. specialize (IH Hr).
    pose proof (non_selected_length_cons z ixs 0 xs Hni) as Hc.
    simpl in *. lia.
Qed.

Lemma non_selected_Forall2 {A B} (R : A -> B -> Prop) ixs i xs ys :
  Forall2 R xs ys -> Forall2 R (non_selected ixs i xs) (non_selected ixs i ys).
Proof.
  intros H. revert i. induction H; intros i; cbn [non_selected]; [constructor|].
  destruct (bool_decide _); [apply IHForall2|constructor; auto].
Qed.

Lemma non_selected_fmap {A B} (f : A -> B) ixs i (xs : list A) :
  f <$> non_selected ixs i xs = non_selected ixs i (f <$> xs).
Proof.
  revert i. induction xs as [|x xs IH]; intros i; [done|].
  rewrite fmap_cons. cbn [non_selected].
  destruct (bool_decide _); by rewrite ?fmap_cons, IH.
Qed.

(** *** The loop that builds the result of a merge *)

Lemma merge_build_after h i segments first ixs merged :
  first < Z.of_nat i ->
  merge_build h i segments first ixs merged = (non_selected ixs i segments, h).
Proof.
  revert i. induction segments as [|l rest IH]; intros i Hi; cbn [merge_build non_selected]; [done|].
  destruct (Z.eqb_spec (Z.of_nat i) first) as [?|_]; [lia|].
  rewrite IH by lia. by destruct (bool_decide _).
Qed.

Lemma merge_build_at h i segments (f : nat) ixs merged :
  (i <= f < i + length segments)%nat ->
  merge_build h i segments (Z.of_nat f) ixs merged
  = (non_selected ixs i (take (f - i) segments)
       ++ length h :: non_selected ixs (S f) (drop (S (f - i)) segments),
     h ++ [merged]).
Proof.
  revert i. induction segments as [|l rest IH]; intros i Hi; cbn [merge_build length] in *; [lia|].
  destruct (Z.eqb_spec (Z.of_nat i) (Z.of_nat f)) as [E|Hne].
  - assert (i = f) as -> by lia. rewrite Nat.sub_diag. simpl.
    rewrite merge_build_after by lia. by rewrite drop_0.
  - assert (f - i = S (f - S i))%nat as -> by lia. simpl.
    rewrite IH by lia. by destruct (bool_decide _).
Qed.

(** *** Reading a segment through an index *)

Lemma mapO_ok {A B} (f : A -> outcome B) (l : list A) (k : list B) :
  Forall2 (fun a b => f a = Ok b) l k -> mapO f l = Ok k.
Proof. induction 1 as [|a b l k Hab _ IH]; simpl; [done|]. by rewrite Hab, IH. Qed.

Lemma read_at h segments vs (z : Z) :
  read_all h segments = Some vs -> 0 <= z < Z.of_nat (length vs) ->
  exists l s, segments !! Z.to_nat z = Some l /\ h !! l = Some s
              /\ vs !! Z.to_nat z = Some s
              /\ getitem segments z = Ok l /\ deref h l = Ok s.
Proof.
  intros Hr Hz. pose proof (read_all_length _ _ _ Hr) as Hlen.
  destruct (lookup_lt_is_Some_2 segments (Z.to_nat z)) as [l Hl]; [lia|].
  destruct (read_all_lookup _ _ _ _ _ Hr Hl) as [Hh [s Hs]].
  exists l, s. rewrite Hh, Hs. repeat split; auto.
  - apply getitem_ok; [lia|done].
  - unfold deref. by rewrite Hh, Hs.
Qed.

(** *** What a merge with valid indices computes *)

Lemma merge_segments_ok h segments vs indices :
  read_all h segments = Some vs ->
  (2 <= length indices)%nat -> NoDup indices ->
  Forall (fun z => 0 <= z < Z.of_nat (length vs)) indices ->
  exists (f g : nat) s_lo s_hi texts,
    head (sorted indices) = Some (Z.of_nat f)
    /\ last (sorted indices) = Some (Z.of_nat g)
    /\ vs !! f = Some s_lo /\ vs !! g = Some s_hi
    /\ Forall2 (fun z t => exists s, vs !! Z.to_nat z = Some s /\ t = text s)
               (sorted indices) texts
    /\ let merged := new_seg (start s_lo) (end_ s_hi) (join [sp] texts) in
       let result :=
         take f segments ++ length h :: non_selected indices (S f) (drop (S f) segments) in
       merge_segments h segments indices = Ok (result, renumber (h ++ [merged]) 0 result)
       /\ read_all (h ++ [merged]) result
          = Some (take f vs ++ merged :: non_selected indices (S f) (drop (S f) vs)).
Proof.
  intros Hr Hlen Hnd Hrange.
  pose proof (sorted_perm indices) as Hp.
  pose proof (sorted_lt indices Hnd) as Hs.
  assert (Hrange' : Forall (fun z => 0 <= z < Z.of_nat (length vs)) (sorted indices))
    by (by rewrite Hp).
  assert (Hlen' : (2 <= length (sorted indices))%nat) by (by rewrite Hp).
  assert (Hmem : forall z, z ∈ sorted indices <-> z ∈ indices)
    by (intros z; by rewrite Hp).
  unfold merge_segments.
  destruct (Nat.ltb_spec (length indices) 2) as [?|_]; [lia|].
  cbv zeta. destruct (sorted indices) as [|lo rest] eqn:Eix; [simpl in Hlen'; lia|].
  destruct (last (lo :: rest)) as [hi|] eqn:Ehi; [|by apply last_None in Ehi].
  assert (Hlo : lo ∈ lo :: rest) by (apply elem_of_cons; by left).
  assert (Hhi : hi ∈ lo :: rest).
  { apply list_elem_of_lookup. exists (Nat.pred (length (lo :: rest))).
    by rewrite <- last_lookup. }
  rewrite Forall_forall in Hrange'.
  destruct (read_at _ _ _ lo Hr (Hrange' _ Hlo)) as (l0 & s0 & Hl0 & Hh0 & Hv0 & Hg0 & Hd0).
  destruct (read_at _ _ _ hi Hr (Hrange' _ Hhi)) as (l1 & s1 & Hl1 & Hh1 & Hv1 & Hg1 & Hd1).
  assert (exists texts,
    Forall2 (fun z t => exists s, vs !! Z.to_nat z = Some s /\ t = text s) (lo :: rest) texts
    /\ mapO (fun i => l <- getitem segments i ;; s <- deref h l ;; Ok (text s))
            (lo :: rest) = Ok texts) as (texts & Htexts & HmapO).
  { clear -Hrange' Hr. induction (lo :: rest) as [|z zs IH].
    - exists []. split; [constructor|done].
    - destruct IH as (ts & H1 & H2).
      { intros x Hx. apply Hrange'. apply elem_of_cons. by right. }
      destruct (read_at _ _ _ z Hr) as (l & s & _ & _ & Hv & Hg & Hd).
      { apply Hrange'. apply elem_of_cons. by left. }
      exists (text s :: ts). split; [constructor; eauto|].
      simpl. rewrite Hg. simpl. rewrite Hd. simpl. by rewrite H2. }
  exists (Z.to_nat lo), (Z.to_nat hi), s0, s1, texts.
  pose proof (Hrange' _ Hlo) as Hlo_r. pose proof (Hrange' _ Hhi) as Hhi_r.
  rewrite !Z2Nat.id by lia.
  split; [done|]. split; [done|]. split; [done|]. split; [done|]. split; [done|].
  cbv zeta.
  rewrite (getitem_ok (lo :: rest) 0 lo) by (done || lia). cbn [bind].
  rewrite Hg0. cbn [bind]. rewrite Hd0. cbn [bind].
  rewrite (getitem_last (lo :: rest) hi Ehi). cbn [bind].
  rewrite Hg1. cbn [bind]. rewrite Hd1. cbn [bind].
  rewrite HmapO. cbn [bind].
  pose proof (read_all_length _ _ _ Hr) as Hlenv.
  rewrite <- (Z2Nat.id lo) at 1 by lia.
  rewrite merge_build_at by lia.
  rewrite Nat.sub_0_r.
  rewrite (non_selected_below (lo :: rest)).
  2:{ intros z Hz. rewrite length_take.
      pose proof (ascending_head_least _ lo Hs eq_refl z Hz). lia. }
  rewrite !(non_selected_ext (lo :: rest) indices) by done.
  split; [done|].
  apply read_all_app.
  - apply read_all_spec. apply Forall2_take. apply read_all_spec.
    by apply read_all_grow.
  - apply read_all_spec. constructor.
    + by rewrite lookup_app_r, Nat.sub_diag.
    + apply non_selected_Forall2. apply Forall2_drop. apply read_all_spec.
      by apply read_all_grow.
Qed.

Lemma non_selected_split {A} (indices : list Z) (xs : list A) (f : nat) (x : A) :
  xs !! f = Some x -> Z.of_nat f ∈ indices ->
  (forall z, z ∈ indices -> Z.of_nat f <= z) ->
  non_selected indices 0 xs = take f xs ++ non_selected indices (S f) (drop (S f) xs).
Proof.
  intros Hx Hin Hleast. pose proof (lookup_lt_Some _ _ _ Hx) as Hlt.
  rewrite <- (take_drop_middle xs f x Hx) at 1.
  rewrite non_selected_app, length_take. cbn [non_selected].
  rewrite non_selected_below.
  2:{ intros z Hz. rewrite length_take. specialize (Hleast z Hz). lia. }
  replace (0 + f `min` length xs)%nat with f by lia.
  by rewrite bool_decide_eq_true_2.
Qed.

Lemma content_eq (a b : seg) :
  content a = content b ->
  start a = start b /\ end_ a = end_ b /\ text a = text b /\ original a = original b.
Proof. unfold content. intros [= -> -> -> ->]. done. Qed.

(** An ascending arrangement of two consecutive integers. *)
Lemma ascending_pair (l : list Z) (i : Z) :
  StronglySorted Z.lt l -> l ≡ₚ [i; i + 1] -> l = [i; i + 1].
Proof.
  intros Hs Hp. pose proof (Permutation_length Hp) as Hlen.
  destruct l as [|a [|b [|? ?]]]; try done.
  apply StronglySorted_inv in Hs as [_ Hab]. apply Forall_cons in Hab as [Hab _].
  assert (a ∈ [i; i + 1]) as Ha by (rewrite <- Hp; apply elem_of_cons; by left).
  assert (b ∈ [i; i + 1]) as Hb
    by (rewrite <- Hp; apply elem_of_cons; right; apply elem_of_cons; by left).
  rewrite !elem_of_cons, elem_of_nil in Ha, Hb.
  f_equal; [|f_equal]; lia.
Qed.

(** C3. A merge with at least two distinct valid indices returns a sequence
    shorter by the number of selected indices minus one.  One merged
    segment stands at the position of the least selected index; its start
    is that segment's start, its end is the end of the segment at the
    greatest selected index, its text is the selected texts in ascending
    index order joined by single spaces.  The other segments follow in
    their former order.  For the two indices [i] and [i + 1] the merged
    text is the two texts with one space between. *)
Theorem merge_segments_spec h segments vs indices :
  read_all h segments = Some vs ->
  (2 <= length indices)%nat -> NoDup indices ->
  Forall (fun z => 0 <= z < Z.of_nat (length vs)) indices ->
  exists result h' vs' ixs (lo hi : nat) s_lo s_hi m texts,
    merge_segments h segments indices = Ok (result, h')
    /\ read_all h' result = Some vs'
    /\ (length vs' + (length indices - 1) = length vs)%nat
    /\ ixs ≡ₚ indices /\ Sorted Z.lt ixs
    /\ head ixs = Some (Z.of_nat lo) /\ last ixs = Some (Z.of_nat hi)
    /\ vs !! lo = Some s_lo /\ vs !! hi = Some s_hi
    /\ vs' !! lo = Some m
    /\ start m = start s_lo /\ end_ m = end_ s_hi
    /\ Forall2 (fun z t => exists s, vs !! Z.to_nat z = Some s /\ t = text s) ixs texts
    /\ text m = join [sp] texts
    /\ content <$> delete lo vs' = content <$> non_selected indices 0 vs
    /\ (forall (i : nat) a b,
          indices ≡ₚ [Z.of_nat i; Z.of_nat i + 1] ->
          vs !! i = Some a -> vs !! S i = Some b ->
          S (length vs') = length vs /\ vs' !! i = Some m
          /\ start m = start a /\ end_ m = end_ b
          /\ text m = text a ++ [sp] ++ text b).
Proof.
  intros Hr Hlen Hnd Hrange.
  destruct (merge_segments_ok h segments vs indices Hr Hlen Hnd Hrange)
    as (f & g & s_lo & s_hi & texts & Hhead & Hlast & Hvf & Hvg & Htexts & Hm).
  cbv zeta in Hm. destruct Hm as [Hm Hread].
  set (merged := new_seg (start s_lo) (end_ s_hi) (join [sp] texts)) in *.
  set (result := take f segments ++ _) in *.
  destruct (read_all_renumber_content _ 0 result result _ Hread) as (vs' & Hvs' & Hc).
  pose proof (sorted_perm indices) as Hp.
  pose proof (sorted_lt indices Hnd) as Hs.
  assert (Hfin : Z.of_nat f ∈ indices).
  { rewrite <- Hp. destruct (sorted indices); [done|]. injection Hhead as ->.
    apply elem_of_cons. by left. }
  assert (Hleast : forall z, z ∈ indices -> Z.of_nat f <= z).
  { intros z Hz. apply (ascending_head_least _ _ Hs Hhead). by rewrite Hp. }
  pose proof (lookup_lt_Some _ _ _ Hvf) as Hflt.
  assert (Htake : length (take f vs) = f) by (rewrite length_take; lia).
  assert (Hlenvs' : (length vs' + (length indices - 1) = length vs)%nat).
  { rewrite <- (length_fmap content vs'), Hc, length_fmap, length_app. cbn [length].
    pose proof (non_selected_length indices vs Hnd Hrange) as Hns.
    rewrite (non_selected_split indices vs f s_lo Hvf Hfin Hleast), length_app in Hns.
    lia. }
  assert (exists m, vs' !! f = Some m /\ content m = content merged) as (m & Hmf & Hcm).
  { assert ((content <$> vs') !! f = Some (content merged)) as Hlk.
    { rewrite Hc, fmap_app, fmap_cons.
      rewrite lookup_app_r by (rewrite length_fmap; lia).
      by rewrite length_fmap, Htake, Nat.sub_diag. }
    apply list_lookup_fmap_Some in Hlk as (m & Hm1 & Hm2). eauto. }
  destruct (content_eq _ _ Hcm) as (Hst & Hen & Htx & _).
  exists result, (renumber (h ++ [merged]) 0 result), vs', (sorted indices),
    f, g, s_lo, s_hi, m, texts.
  split; [done|]. split; [done|]. split; [done|]. split; [done|].
  split; [by apply StronglySorted_Sorted|].
  split; [done|]. split; [done|]. split; [done|]. split; [done|]. split; [done|].
  split; [done|]. split; [done|]. split; [done|]. split; [done|].
  split.
  { rewrite list_fmap_delete, Hc, fmap_app, fmap_cons.
    rewrite <- (length_fmap content (take f vs)) in Htake.
    rewrite <- Htake at 1. rewrite delete_middle.
    rewrite (non_selected_split indices vs f s_lo Hvf Hfin Hleast).
    by rewrite fmap_app. }
  intros i a b Hpi Ha Hb.
  assert (Hsi : sorted indices = [Z.of_nat i; Z.of_nat i + 1]).
  { apply ascending_pair; [done|]. by rewrite Hp. }
  rewrite Hsi in Hhead, Hlast, Htexts.
  injection Hhead as Hfi. injection Hlast as Hgi.
  assert (f = i) as -> by lia. assert (g = S i) as -> by lia.
  rewrite Ha in Hvf. injection Hvf as <-. rewrite Hb in Hvg. injection Hvg as <-.
  apply Forall2_cons_inv_l in Htexts as (t1 & ts1 & (s1 & Hs1 & ->) & Htexts & ->).
  apply Forall2_cons_inv_l in Htexts as (t2 & ts2 & (s2 & Hs2 & ->) & Htexts & ->).
  apply Forall2_nil_inv_l in Htexts as ->.
  rewrite Nat2Z.id in Hs1. replace (Z.to_nat (Z.of_nat i + 1)) with (S i) in Hs2 by lia.
  rewrite Ha in Hs1. injection Hs1 as <-. rewrite Hb in Hs2. injection Hs2 as <-.
  rewrite (Permutation_length Hpi) in Hlenvs'. cbn [length] in Hlenvs'.
  split; [lia|]. split; [done|]. split; [done|]. split; [done|].
  rewrite Htx. done.
Qed.

(** C10. When every selected segment of a valid merge carries a non-empty
    [original], the merged segment, at the position of the least selected
    index, has no [original] at all. *)
Theorem merge_segments_drops_original h segments vs indices :
  read_all h segments = Some vs ->
  (2 <= length indices)%nat -> NoDup indices ->
  Forall (fun z => 0 <= z < Z.of_nat (length vs)) indices ->
  Forall (fun z => exists s o, vs !! Z.to_nat z = Some s
                               /\ original s = Some o /\ o <> []) indices ->
  exists result h' vs' (lo : nat) m,
    merge_segments h segments indices = Ok (result, h')
    /\ read_all h' result = Some vs'
    /\ Z.of_nat lo ∈ indices /\ (forall z, z ∈ indices -> Z.of_nat lo <= z)
    /\ vs' !! lo = Some m
    /\ original m = None.
Proof.
  intros Hr Hlen Hnd Hrange _.
  destruct (merge_segments_ok h segments vs indices Hr Hlen Hnd Hrange)
    as (f & g & s_lo & s_hi & texts & Hhead & _ & Hvf & _ & _ & Hm).
  cbv zeta in Hm. destruct Hm as [Hm Hread].
  set (merged := new_seg (start s_lo) (end_ s_hi) (join [sp] texts)) in *.
  set (result := take f segments ++ _) in *.
  destruct (read_all_renumber_content _ 0 result result _ Hread) as (vs' & Hvs' & Hc).
  pose proof (sorted_perm indices) as Hp.
  pose proof (sorted_lt indices Hnd) as Hs.
  pose proof (lookup_lt_Some _ _ _ Hvf) as Hflt.
  assert ((content <$> vs') !! f = Some (content merged)) as Hlk.
  { rewrite Hc, fmap_app, fmap_cons.
    rewrite lookup_app_r by (rewrite length_fmap, length_take; lia).
    rewrite length_fmap, length_take.
    by replace (f - f `min` length vs)%nat with 0%nat by lia. }
  apply list_lookup_fmap_Some in Hlk as (m & Hm1 & Hm2).
  destruct (content_eq _ _ Hm1) as (_ & _ & _ & Ho).
  exists result, (renumber (h ++ [merged]) 0 result), vs', f, m.
  split; [done|]. split; [done|]. split.
  { rewrite <- Hp. destruct (sorted indices); [done|]. injection Hhead as ->.
    apply elem_of_cons. by left. }
  split.
  { intros z Hz. apply (ascending_head_least _ _ Hs Hhead). by rewrite Hp. }
  split; [done|]. by rewrite <- Ho.
Qed.

(** ** What stripping leaves *)

Lemma head_rev {A} (l : list A) : head (rev l) = last l.
Proof.
  induction l as [|x l IH] using rev_ind; [done|].
  by rewrite rev_app_distr, last_snoc.
Qed.

Lemma lstrip_head (s : str) (c : ascii) : head (lstrip s) = Some c -> is_space c = false.
Proof.
  induction s as [|x s IH]; [done|]. cbn [lstrip].
  destruct (is_space x) eqn:E; [exact IH|]. by intros [= <-].
Qed.

Lemma lstrip_split (s : str) : exists p, s = p ++ lstrip s.
Proof.
  induction s as [|x s [p IH]]; [by exists []|]. cbn [lstrip].
  destruct (is_space x); [|by exists []]. exists (x :: p). by rewrite IH at 1.
Qed.

Lemma last_rev {A} (l : list A) : last (rev l) = head l.
Proof. destruct l as [|x l]; [done|]. cbn [rev]. by rewrite last_snoc. Qed.

Lemma rstrip_split (s : str) : exists p, s = rstrip s ++ p.
Proof.
  unfold rstrip. destruct (lstrip_split (rev s)) as [p Hp].
  exists (rev p). rewrite <- rev_app_distr, <- Hp. by rewrite rev_involutive.
Qed.

Lemma strip_head (s : str) (c : ascii) : head (strip s) = Some c -> is_space c = false.
Proof.
  unfold strip. intros H. apply (lstrip_head s).
  destruct (rstrip_split (lstrip s)) as [p Hp]. rewrite Hp.
  destruct (rstrip (lstrip s)); [done|]. exact H.
Qed.

Lemma strip_last (s : str) (c : ascii) : last (strip s) = Some c -> is_space c = false.
Proof. unfold strip, rstrip. rewrite last_rev. apply lstrip_head. Qed.

Lemma lstrip_id (s : str) (c : ascii) :
  head s = Some c -> is_space c = false -> lstrip s = s.
Proof. destruct s as [|x s]; [done|]. intros [= ->] H. simpl. by rewrite H. Qed.

Lemma lstrip_spaces (s : str) :
  exists p, s = p ++ lstrip s /\ Forall (fun c => is_space c = true) p.
Proof.
  induction s as [|x s (p & IH & Hp)]; [by exists []|]. cbn [lstrip].
  destruct (is_space x) eqn:E; [|by exists []].
  exists (x :: p). split; [by rewrite IH at 1|by constructor].
Qed.

Lemma rstrip_spaces (s : str) :
  exists p, s = rstrip s ++ p /\ Forall (fun c => is_space c = true) p.
Proof.
  unfold rstrip. destruct (lstrip_spaces (rev s)) as (p & Hp & Hsp).
  exists (rev p). split.
  - rewrite <- rev_app_distr, <- Hp. by rewrite rev_involutive.
  - apply Forall_forall. intros c Hc. rewrite Forall_forall in Hsp. apply Hsp.
    apply list_elem_of_In. apply in_rev. by apply list_elem_of_In.
Qed.

(** [strip] trims. *)
Lemma strip_trimmed (s : str) : trimmed s (strip s).
Proof.
  destruct (lstrip_spaces s) as (l & Hl & Hsl).
  destruct (rstrip_spaces (lstrip s)) as (r & Hr & Hsr).
  exists l, r. split; [|split; [done|split; [done|split]]].
  - unfold strip. by rewrite <- Hr.
  - apply strip_head.
  - apply strip_last.
Qed.

(** What is trimmed off a text is determined. *)
Lemma trimmed_unique (x y : str) : trimmed x y -> y = strip x.
Proof.
  intros (l & r & -> & Hl & Hr & Hh & Ht). unfold strip.
  assert (L : forall z, lstrip (l ++ z) = lstrip z).
  { intros z. induction Hl as [|c l Hc _ IH]; [done|]. cbn [app lstrip]. by rewrite Hc. }
  rewrite L. destruct y as [|a y'].
  - cbn [app]. assert (lstrip r = []) as ->; [|done].
    induction Hr as [|c r Hc _ IH]; [done|]. cbn [lstrip]. by rewrite Hc.
  - rewrite (lstrip_id _ a); [|done|by apply Hh].
    unfold rstrip. rewrite rev_app_distr.
    assert (R : forall z, lstrip (rev r ++ z) = lstrip z).
    { clear -Hr. induction Hr as [|c r Hc _ IH]; intros z; [done|].
      cbn [rev]. rewrite <- (assoc_L (++)). rewrite IH. cbn [app lstrip]. by rewrite Hc. }
    rewrite R. destruct (last (a :: y')) as [z|] eqn:Hz; [|by apply last_None in Hz].
    rewrite (lstrip_id _ z); [by rewrite rev_involutive|by rewrite head_rev|by apply Ht].
Qed.

(** ** Splitting *)

(** [rfind_from] returns the greatest position holding [c] among the first
    [stop] characters, or the value it started with. *)
Lemma rfind_from_spec (c : ascii) (s : str) (pos stop : nat) (found : Z) :
  (rfind_from c s pos stop found = found
   /\ forall k, (k < stop)%nat -> s !! k <> Some c)
  \/ (exists k, (k < stop)%nat /\ s !! k = Some c
                /\ rfind_from c s pos stop found = Z.of_nat (pos + k)
                /\ forall j, (k < j < stop)%nat -> s !! j <> Some c).
Proof.
  revert pos stop found. induction s as [|x s IH]; intros pos stop found.
  - left. split; [by destruct stop|]. intros k _. by rewrite lookup_nil.
  - destruct stop as [|stop]; [left; split; [done|lia]|].
    cbn [rfind_from].
    destruct (IH (S pos) stop (if Ascii.eqb x c then Z.of_nat pos else found))
      as [[Hr Hno]|(k & Hk & Hc & Hr & Hlast)].
    + destruct (Ascii.eqb_spec x c) as [->|Hne].
      * right. exists 0%nat. split; [lia|]. split; [done|].
        split; [rewrite Hr; f_equal; lia|].
        intros [|j] Hj; [lia|]. apply Hno. lia.
      * left. split; [done|]. intros [|k] Hk; [simpl; congruence|]. apply Hno. lia.
    + right. exists (S k). split; [lia|]. split; [done|].
      split; [rewrite Hr; f_equal; lia|].
      intros [|j] Hj; [lia|]. apply Hlast. lia.
Qed.

Lemma int_of_float_floor (x : Q) : (0 <= x)%Q -> int_of_float x = Qfloor x.
Proof.
  destruct x as [n d]. unfold Qle, int_of_float. simpl. intros Hn.
  apply Z.quot_div_nonneg; lia.
Qed.

Lemma ratio_bounds (a b t : Q) :
  (a < t)%Q -> (t < b)%Q -> (0 <= (t - a) / (b - a) <= 1)%Q.
Proof.
  intros H1 H2. assert (0 < b - a)%Q as Hd by lra.
  split.
  - apply Qle_shift_div_l; [done|]. lra.
  - apply Qle_shift_div_r; [done|]. lra.
Qed.

Lemma split_offset_bounds (n : nat) (r : Q) :
  (0 <= r <= 1)%Q ->
  0 <= int_of_float (inject_Z (Z.of_nat n) * r) <= Z.of_nat n
  /\ int_of_float (inject_Z (Z.of_nat n) * r) = Qfloor (inject_Z (Z.of_nat n) * r).
Proof.
  intros [H0 H1].
  assert (0 <= inject_Z (Z.of_nat n))%Q as Hn.
  { change 0%Q with (inject_Z 0). rewrite <- Zle_Qle. lia. }
  assert (0 <= inject_Z (Z.of_nat n) * r)%Q as Hx by nra.
  assert (inject_Z (Z.of_nat n) * r <= inject_Z (Z.of_nat n))%Q as Hy by nra.
  rewrite int_of_float_floor by done. split; [|done]. split.
  - exact (Qfloor_resp_le 0 _ Hx).
  - pose proof (Qfloor_resp_le _ _ Hy) as H. by rewrite Qfloor_Z in H.
Qed.

(** *** What a split with valid parameters computes *)

Lemma split_segment_ok h segments vs (i : nat) s (t : Q) :
  read_all h segments = Some vs -> vs !! i = Some s ->
  (start s < t)%Q -> (t < end_ s)%Q ->
  let k := int_of_float (inject_Z (Z.of_nat (length (text s)))
                         * ((t - start s) / (end_ s - start s)))%Q in
  let p := rfind sp (text s) k in
  let off := Z.to_nat (if 0 <? p then p else k) in
  let a := new_seg (start s) t (strip (take off (text s))) in
  let b := new_seg t (end_ s) (strip (drop off (text s))) in
  let result := take i segments ++ length h :: S (length h) :: drop (S i) segments in
  split_segment h segments (Z.of_nat i) t = Ok (result, renumber (h ++ [a; b]) 0 result)
  /\ read_all (h ++ [a; b]) result = Some (take i vs ++ a :: b :: drop (S i) vs).
Proof.
  intros Hr Hs Hlo Hhi. cbv zeta.
  pose proof (lookup_lt_Some _ _ _ Hs) as Hi.
  destruct (read_at h segments vs (Z.of_nat i) Hr ltac:(lia))
    as (l & s' & Hl & Hh & Hv & Hg & Hd).
  rewrite Nat2Z.id in Hv, Hl. rewrite Hs in Hv. injection Hv as <-.
  pose proof (read_all_length _ _ _ Hr) as Hlen.
  split.
  - unfold split_segment.
    assert (E1 : (Z.of_nat i <? 0) = false) by lia.
    assert (E2 : (Z.of_nat (length segments) <=? Z.of_nat i) = false) by lia.
    rewrite E1, E2. cbn [orb]. rewrite Hg. cbn [bind]. rewrite Hd. cbn [bind].
    assert (E3 : Qle_bool t (start s) = false).
    { destruct (Qle_bool t (start s)) eqn:E; [|done].
      apply Qle_bool_iff in E. lra. }
    assert (E4 : Qle_bool (end_ s) t = false).
    { destruct (Qle_bool (end_ s) t) eqn:E; [|done].
      apply Qle_bool_iff in E. lra. }
    rewrite E3, E4. cbn [orb]. unfold alloc. cbv zeta.
    rewrite Nat2Z.id. replace (Z.to_nat (Z.of_nat i + 1)) with (S i) by lia.
    rewrite length_app. cbn [length].
    replace (length h + 1)%nat with (S (length h)) by lia.
    rewrite <- !(assoc_L (++)). done.
  - apply read_all_app.
    + apply read_all_spec. apply Forall2_take. apply read_all_spec.
      by apply read_all_grow.
    + apply read_all_spec. constructor; [|constructor].
      * by rewrite lookup_app_r, Nat.sub_diag.
      * rewrite lookup_app_r by lia. by replace (S (length h) - length h)%nat with 1%nat by lia.
      * apply Forall2_drop. apply read_all_spec. by apply read_all_grow.
Qed.

(** C4. A split of segment [i] at a time strictly inside its span returns
    one segment more.  The two new segments stand at positions [i] and
    [i + 1]; the first spans from the old start to the split time, the
    second from the split time to the old end.  The text is cut at offset
    [off]: [k] is the text length times the elapsed-time ratio, rounded
    down, and at most the length; [off] is the greatest position of a
    space strictly between [0] and [k] when there is one, and [k]
    otherwise.  Each fragment is its part of the text without the
    whitespace around it, and the segments before and after keep their
    order. *)
Theorem split_segment_spec h segments vs (i : nat) s (t : Q) :
  read_all h segments = Some vs -> vs !! i = Some s ->
  (start s < t)%Q -> (t < end_ s)%Q ->
  exists result h' vs' a b (k off : nat),
    split_segment h segments (Z.of_nat i) t = Ok (result, h')
    /\ read_all h' result = Some vs'
    /\ length vs' = S (length vs)
    /\ vs' !! i = Some a /\ vs' !! S i = Some b
    /\ start a = start s /\ end_ a = t /\ start b = t /\ end_ b = end_ s
    /\ proportional (length (text s)) ((t - start s) / (end_ s - start s)) k
    /\ (k <= length (text s))%nat
    /\ ((exists p, (0 < p < k)%nat /\ text s !! p = Some sp) ->
        (0 < off < k)%nat /\ text s !! off = Some sp
        /\ forall q, (off < q < k)%nat -> text s !! q <> Some sp)
    /\ ((forall p, (0 < p < k)%nat -> text s !! p <> Some sp) -> off = k)
    /\ trimmed (take off (text s)) (text a)
    /\ trimmed (drop off (text s)) (text b)
    /\ content <$> take i vs' = content <$> take i vs
    /\ content <$> drop (S (S i)) vs' = content <$> drop (S i) vs.
Proof.
  intros Hr Hs Hlo Hhi.
  destruct (split_segment_ok h segments vs i s t Hr Hs Hlo Hhi) as [Hsplit Hread].
  cbv zeta in Hsplit, Hread.
  destruct (split_offset_bounds (length (text s)) _ (ratio_bounds _ _ _ Hlo Hhi))
    as [Hk Hfloor].
  set (kz := int_of_float _) in *.
  set (p := rfind sp (text s) kz) in *.
  set (off := Z.to_nat (if 0 <? p then p else kz)) in *.
  set (a := new_seg (start s) t _) in *. set (b := new_seg t (end_ s) _) in *.
  set (result := take i segments ++ _) in *.
  destruct (read_all_renumber_content _ 0 result result _ Hread) as (vs' & Hvs' & Hc).
  pose proof (lookup_lt_Some _ _ _ Hs) as Hi.
  assert (Htake : length (content <$> take i vs) = i)
    by (rewrite length_fmap, length_take; lia).
  rewrite fmap_app, !fmap_cons in Hc.
  assert ((content <$> vs') !! i = Some (content a)) as Ha.
  { rewrite Hc, lookup_app_r by lia. by rewrite Htake, Nat.sub_diag. }
  assert ((content <$> vs') !! S i = Some (content b)) as Hb.
  { rewrite Hc, lookup_app_r by lia. rewrite Htake.
    by replace (S i - i)%nat with 1%nat by lia. }
  apply list_lookup_fmap_Some in Ha as (a' & Ha1 & Ha2).
  apply list_lookup_fmap_Some in Hb as (b' & Hb1 & Hb2).
  destruct (content_eq _ _ Ha1) as (Hsa & Hea & Hta & _).
  destruct (content_eq _ _ Hb1) as (Hsb & Heb & Htb & _).
  exists result, (renumber (h ++ [a; b]) 0 result), vs', a', b', (Z.to_nat kz), off.
  split; [done|]. split; [done|]. split.
  { rewrite <- (length_fmap content vs'), Hc, length_app, Htake. cbn [length].
    rewrite length_fmap, length_drop. lia. }
  split; [done|]. split; [done|].
  split; [by rewrite <- Hsa|]. split; [by rewrite <- Hea|].
  split; [by rewrite <- Hsb|]. split; [by rewrite <- Heb|].
  split.
  { unfold proportional. cbv zeta. rewrite Z2Nat.id by lia. rewrite Hfloor.
    set (x := (inject_Z (Z.of_nat (length (text s))) * _)%Q).
    pose proof (Qfloor_le x) as H1. pose proof (Qlt_floor x) as H2.
    rewrite inject_Z_plus in H2. change (inject_Z 1) with 1%Q in H2. split; lra. }
  split; [lia|].
  assert (Hp : p = rfind_from sp (text s) 0 (Z.to_nat kz) (-1)) by done.
  assert (Hrest : trimmed (take off (text s)) (text a')
                  /\ trimmed (drop off (text s)) (text b')
                  /\ content <$> take i vs' = content <$> take i vs
                  /\ content <$> drop (S (S i)) vs' = content <$> drop (S i) vs).
  { split; [rewrite <- Hta; apply strip_trimmed|].
    split; [rewrite <- Htb; apply strip_trimmed|]. split.
    - rewrite fmap_take, Hc, take_app_length'; done.
    - rewrite fmap_drop, Hc, drop_app_ge by lia. rewrite Htake.
      by replace (S (S i) - i)%nat with 2%nat by lia. }
  destruct (rfind_from_spec sp (text s) 0 (Z.to_nat kz) (-1))
    as [[Hr1 Hno]|(j & Hj & Hjc & Hr1 & Hlast)]; rewrite Hr1 in Hp.
  - assert (off = Z.to_nat kz) as Hoff by (unfold off; rewrite Hp; done).
    split; [|split; [done|done]].
    intros (q & Hq & Hqc). exfalso. apply (Hno q); [lia|done].
  - destruct (decide (j = 0%nat)) as [->|Hj0].
    + assert (off = Z.to_nat kz) as Hoff by (unfold off; rewrite Hp; done).
      split; [|split; [done|done]].
      intros (q & Hq & Hqc). exfalso. apply (Hlast q); [lia|done].
    + assert (off = j) as Hoff.
      { unfold off. rewrite Hp. destruct (Z.ltb_spec 0 (Z.of_nat (0 + j))); lia. }
      split; [|split; [|done]].
      * intros _. rewrite Hoff. split; [lia|]. split; [done|]. done.
      * intros Hnone. exfalso. apply (Hnone j); [lia|done].
Qed.

(** ** Shifting *)

Lemma read_all_fresh h (ws : list seg) :
  read_all (h ++ ws) (seq (length h) (length ws)) = Some ws.
Proof.
  apply read_all_spec. apply Forall2_same_length_lookup_2.
  - by rewrite length_seq.
  - intros k l w Hl Hw. apply lookup_seq in Hl as [-> _].
    by rewrite lookup_app_r, Nat.add_comm, Nat.add_sub by lia.
Qed.

Lemma copy_all_ok h segments vs :
  read_all h segments = Some vs ->
  copy_all h segments = Ok (seq (length h) (length vs), h ++ vs).
Proof.
  rewrite read_all_spec. intros H. revert h vs H.
  induction segments as [|l rest IH]; intros h vs H.
  - apply Forall2_nil_inv_l in H as ->. simpl. by rewrite app_nil_r.
  - apply Forall2_cons_inv_l in H as (s & vs' & Hs & H & ->).
    cbn [copy_all]. unfold deref. rewrite Hs. cbn [bind]. unfold alloc.
    rewrite (IH (h ++ [s]) vs').
    + cbn [bind fst snd length seq]. rewrite length_app. cbn [length].
      rewrite Nat.add_1_r, <- (assoc_L (++)). done.
    + eapply Forall2_impl; [exact H|]. intros l' v Hl'. by apply lookup_app_l_Some.
Qed.

(** What a shift of segment [i] computes: every dict is copied, the copy
    at position [i] gets the new times, and the dicts of the input keep
    their places in the store. *)
Lemma adjust_timing_ok h segments vs (i : nat) s (start_delta end_delta : Q) :
  read_all h segments = Some vs -> vs !! i = Some s ->
  let new_start := py_max 0 (start s + start_delta) in
  let new_end := py_max (new_start + (1 # 10)) (end_ s + end_delta) in
  let vs' := <[i := set_times new_start new_end s]> vs in
  adjust_timing h segments (Z.of_nat i) start_delta end_delta
  = Ok (seq (length h) (length vs), h ++ vs')
  /\ read_all (h ++ vs') (seq (length h) (length vs)) = Some vs'.
Proof.
  intros Hr Hs. cbv zeta.
  pose proof (lookup_lt_Some _ _ _ Hs) as Hi.
  pose proof (read_all_length _ _ _ Hr) as Hlen.
  split.
  - unfold adjust_timing.
    assert (E1 : (Z.of_nat i <? 0) = false) by lia.
    assert (E2 : (Z.of_nat (length segments) <=? Z.of_nat i) = false) by lia.
    rewrite E1, E2. cbn [orb]. rewrite (copy_all_ok h segments vs Hr). cbn [bind].
    rewrite (getitem_ok _ _ (length h + i)%nat) by
      (try lia; rewrite Nat2Z.id; apply lookup_seq; lia).
    cbn [bind]. unfold deref.
    rewrite lookup_app_r by lia.
    replace (length h + i - length h)%nat with i by lia. rewrite Hs. cbn [bind].
    by rewrite insert_app_r.
  - match goal with |- context [<[i := ?x]> vs] =>
      rewrite <- (length_insert vs i x) end.
    apply read_all_fresh.
Qed.

(** ** Renumbering after a merge or a split *)

Lemma non_selected_sublist {A} (ixs : list Z) (i : nat) (xs : list A) :
  non_selected ixs i xs `sublist_of` xs.
Proof.
  revert i. induction xs as [|x xs IH]; intros i; cbn [non_selected]; [done|].
  destruct (bool_decide _); [apply sublist_cons, IH|apply sublist_skip, IH].
Qed.

Lemma wf_fresh h segments : wf h segments -> length h ∉ segments.
Proof.
  unfold wf. rewrite Forall_forall. intros H Hin. specialize (H _ Hin). lia.
Qed.

Lemma wf_fresh_next h segments : wf h segments -> S (length h) ∉ segments.
Proof.
  unfold wf. rewrite Forall_forall. intros H Hin. specialize (H _ Hin). lia.
Qed.

Lemma sublist_drop_S {A} (l : list A) (n : nat) : drop (S n) l `sublist_of` drop n l.
Proof.
  replace (S n) with (n + 1)%nat by lia. rewrite <- drop_drop. apply sublist_drop.
Qed.

Lemma merge_result_NoDup h segments (f : nat) indices :
  wf h segments -> NoDup segments ->
  NoDup (take f segments ++ length h :: non_selected indices (S f) (drop (S f) segments)).
Proof.
  intros Hwf Hnd.
  assert (Hsub : take f segments ++ non_selected indices (S f) (drop (S f) segments)
                 `sublist_of` segments).
  { rewrite <- (take_drop f segments) at 3. apply sublist_app; [done|].
    etrans; [apply non_selected_sublist|]. apply sublist_drop_S. }
  rewrite <- Permutation_middle. apply NoDup_cons. split.
  - intros Hin. apply (wf_fresh h segments Hwf). by eapply elem_of_sublist.
  - by eapply sublist_NoDup.
Qed.

Lemma split_result_NoDup h segments (i : nat) :
  wf h segments -> NoDup segments ->
  NoDup (take i segments ++ length h :: S (length h) :: drop (S i) segments).
Proof.
  intros Hwf Hnd.
  assert (Hsub : take i segments ++ drop (S i) segments `sublist_of` segments).
  { rewrite <- (take_drop i segments) at 3. apply sublist_app; [done|].
    apply sublist_drop_S. }
  rewrite <- Permutation_middle. apply NoDup_cons. split.
  - rewrite elem_of_app, elem_of_cons. intros [Hin|[?|Hin]]; [|lia|].
    + apply (wf_fresh h segments Hwf). eapply elem_of_sublist; [|exact Hsub].
      apply elem_of_app. by left.
    + apply (wf_fresh h segments Hwf). eapply elem_of_sublist; [|exact Hsub].
      apply elem_of_app. by right.
  - rewrite <- Permutation_middle. apply NoDup_cons. split.
    + intros Hin. apply (wf_fresh_next h segments Hwf). by eapply elem_of_sublist.
    + by eapply sublist_NoDup.
Qed.

(** A shift leaves the store's existing dicts, hence the input sequence,
    as they were. *)
Lemma adjust_timing_pure h segments vs (i : nat) s (start_delta end_delta : Q) :
  read_all h segments = Some vs -> vs !! i = Some s ->
  exists result h',
    adjust_timing h segments (Z.of_nat i) start_delta end_delta = Ok (result, h')
    /\ take (length h) h' = h
    /\ read_all h' segments = Some vs.
Proof.
  intros Hr Hs.
  destruct (adjust_timing_ok h segments vs i s start_delta end_delta Hr Hs) as [H _].
  cbv zeta in H. eexists _, _. split; [exact H|]. split.
  - by rewrite take_app_length.
  - by apply read_all_grow.
Qed.

(** C7, amended.  On a sequence of distinct dicts, a merge with at least
    two distinct valid indices and a split at a time strictly inside the
    target's span return a sequence numbered 1..N in order, whatever the
    numbers of the input were.  A shift of a valid index returns the
    numbers of the input as they were. *)
Theorem renumbering_spec h segments vs :
  read_all h segments = Some vs -> NoDup segments ->
  (forall indices,
      (2 <= length indices)%nat -> NoDup indices ->
      Forall (fun z => 0 <= z < Z.of_nat (length vs)) indices ->
      exists result h' vs',
        merge_segments h segments indices = Ok (result, h')
        /\ read_all h' result = Some vs'
        /\ index <$> vs' = numbers 0 (length vs'))
  /\ (forall (i : nat) s (t : Q),
         vs !! i = Some s -> (start s < t)%Q -> (t < end_ s)%Q ->
         exists result h' vs',
           split_segment h segments (Z.of_nat i) t = Ok (result, h')
           /\ read_all h' result = Some vs'
           /\ index <$> vs' = numbers 0 (length vs'))
  /\ (forall (i : nat) s (start_delta end_delta : Q),
         vs !! i = Some s ->
         exists result h' vs',
           adjust_timing h segments (Z.of_nat i) start_delta end_delta = Ok (result, h')
           /\ read_all h' result = Some vs'
           /\ index <$> vs' = index <$> vs).
Proof.
  intros Hr Hnd. pose proof (read_all_wf _ _ _ Hr) as Hwf.
  split; [|split].
  - intros indices Hlen Hndi Hrange.
    destruct (merge_segments_ok h segments vs indices Hr Hlen Hndi Hrange)
      as (f & g & s_lo & s_hi & texts & _ & _ & _ & _ & _ & Hm).
    cbv zeta in Hm. destruct Hm as [Hm Hread].
    destruct (read_all_renumber_index _ _ _
                (merge_result_NoDup h segments f indices Hwf Hnd) Hread)
      as (vs' & Hvs' & Hix).
    eexists _, _, vs'. split; [exact Hm|]. split; [exact Hvs'|].
    by rewrite (read_all_length _ _ _ Hvs').
  - intros i s t Hs Hlo Hhi.
    destruct (split_segment_ok h segments vs i s t Hr Hs Hlo Hhi) as [Hsplit Hread].
    cbv zeta in Hsplit, Hread.
    destruct (read_all_renumber_index _ _ _
                (split_result_NoDup h segments i Hwf Hnd) Hread)
      as (vs' & Hvs' & Hix).
    eexists _, _, vs'. split; [exact Hsplit|]. split; [exact Hvs'|].
    by rewrite (read_all_length _ _ _ Hvs').
  - intros i s sd ed Hs.
    destruct (adjust_timing_ok h segments vs i s sd ed Hr Hs) as [Ha Hread].
    cbv zeta in Ha, Hread.
    eexists _, _, _. split; [exact Ha|]. split; [exact Hread|].
    rewrite list_fmap_insert. apply list_insert_id.
    by rewrite list_lookup_fmap, Hs.
Qed.

Lemma renumbering_spec_witness :
  (exists result h' vs',
      merge_segments sample_store sample_segments [1; 0] = Ok (result, h')
      /\ read_all h' result = Some vs'
      /\ index <$> vs' = numbers 0 (length vs'))
  /\ (exists result h' vs',
         split_segment sample_store sample_segments 2 (13 # 2) = Ok (result, h')
         /\ read_all h' result = Some vs'
         /\ index <$> vs' = numbers 0 (length vs'))
  /\ (exists result h' vs',
         adjust_timing sample_store sample_segments 1 (1 # 2) (-3) = Ok (result, h')
         /\ read_all h' result = Some vs'
         /\ index <$> vs' = index <$> sample_store).
Proof.
  destruct (renumbering_spec sample_store sample_segments sample_store)
    as (Hm & Hs & Ha).
  - reflexivity.
  - apply (bool_decide_unpack (NoDup sample_segments)). vm_compute. exact I.
  - split; [|split].
    + apply Hm.
      * simpl. lia.
      * apply (bool_decide_unpack (NoDup [1; 0])). vm_compute. exact I.
      * repeat constructor; simpl; lia.
    + apply (Hs 2%nat seg_c (13 # 2)); reflexivity.
    + apply (Ha 1%nat seg_b); reflexivity.
Defined.

(** C7, the claim as stated fails: a shift returns the number 5 of its
    input, not 1. *)
Lemma adjust_timing_keeps_numbers :
  exists result h' vs',
    adjust_timing odd_store [0%nat] 0 1 1 = Ok (result, h')
    /\ read_all h' result = Some vs'
    /\ index <$> vs' = [Some 5]
    /\ index <$> vs' <> numbers 0 (length vs').
Proof.
  eexists _, _, _. split; [vm_compute; reflexivity|].
  split; [vm_compute; reflexivity|]. split; [reflexivity|]. discriminate.
Qed.

(** ** The theorems at the sample data *)

Lemma merge_segments_spec_witness :
  exists result h' vs' m,
    merge_segments sample_store sample_segments [1; 0] = Ok (result, h')
    /\ read_all h' result = Some vs'
    /\ S (length vs') = length sample_store
    /\ vs' !! 0%nat = Some m
    /\ start m = 1%Q /\ end_ m = 5%Q
    /\ text m = lit "Hello world Bye".
Proof.
  destruct (merge_segments_spec sample_store sample_segments sample_store [1; 0])
    as (result & h' & vs' & ixs & lo & hi & s_lo & s_hi & m & texts
        & Hm & Hr & _ & _ & _ & _ & _ & _ & _ & _ & _ & _ & _ & _ & _ & Hpair).
  - reflexivity.
  - simpl. lia.
  - apply (bool_decide_unpack (NoDup [1; 0])). vm_compute. exact I.
  - repeat constructor; simpl; lia.
  - destruct (Hpair 0%nat seg_a seg_b) as (Hl & Hm0 & Hs & He & Ht).
    + apply perm_swap.
    + reflexivity.
    + reflexivity.
    + exists result, h', vs', m. repeat split; assumption.
Defined.

Lemma split_segment_spec_witness :
  exists result h' vs' a b,
    split_segment sample_store sample_segments 2 (13 # 2) = Ok (result, h')
    /\ read_all h' result = Some vs'
    /\ length vs' = S (length sample_store)
    /\ vs' !! 2%nat = Some a /\ vs' !! 3%nat = Some b
    /\ start a = 6%Q /\ end_ a = (13 # 2)%Q /\ text a = lit "See"
    /\ start b = (13 # 2)%Q /\ end_ b = 7%Q /\ text b = lit "you later".
Proof.
  destruct (split_segment_spec sample_store sample_segments sample_store
                               2%nat seg_c (13 # 2))
    as (result & h' & vs' & a & b & k & off
        & Hs & Hr & Hl & Ha & Hb & Hsa & Hea & Hsb & Heb & Hk & Hkl & Hsp & Hno
        & Hta & Htb & _).
  - reflexivity.
  - reflexivity.
  - reflexivity.
  - reflexivity.
  - assert (Hoff : off = 3%nat).
    { unfold proportional in Hk. cbv zeta in Hk. destruct Hk as [Hk1 Hk2].
      assert (k = 6%nat) as ->.
      { assert (inject_Z 5 < inject_Z (Z.of_nat k))%Q as H1.
        { eapply Qle_lt_trans; [|exact Hk1]. vm_compute. discriminate. }
        assert (inject_Z (Z.of_nat k) < inject_Z 7)%Q as H2.
        { eapply Qlt_le_trans; [exact Hk2|]. vm_compute. discriminate. }
        rewrite <- Zlt_Qlt in H1, H2. lia. }
      destruct Hsp as (Hoff & Hc & Hlast).
      { exists 3%nat. split; [lia|reflexivity]. }
      destruct (decide (off = 3%nat)) as [->|Hne]; [done|].
      assert (off = 1 \/ off = 2 \/ off = 4 \/ off = 5)%nat as Hcase by lia.
      destruct Hcase as [->|[->|[->| ->]]]; try (vm_compute in Hc; discriminate). }
    subst off.
    exists result, h', vs', a, b.
    pose proof (trimmed_unique _ _ Hta) as Ea. pose proof (trimmed_unique _ _ Htb) as Eb.
    repeat split; assumption.
Defined.

Lemma merge_segments_drops_original_witness :
  exists result h' vs' (lo : nat) m,
    merge_segments sample_store sample_segments [1; 0] = Ok (result, h')
    /\ read_all h' result = Some vs'
    /\ Z.of_nat lo ∈ [1; 0] /\ (forall z, z ∈ [1; 0] -> Z.of_nat lo <= z)
    /\ vs' !! lo = Some m
    /\ original m = None.
Proof.
  apply (merge_segments_drops_original sample_store sample_segments sample_store [1; 0]).
  - reflexivity.
  - simpl. lia.
  - apply (bool_decide_unpack (NoDup [1; 0])). vm_compute. exact I.
  - repeat constructor; simpl; lia.
  - constructor; [|constructor; [|constructor]].
    + exists seg_b, (lit "Tschuess"). repeat split. discriminate.
    + exists seg_a, (lit "Hallo Welt"). repeat split. discriminate.
Defined.

(** ** Invalid parameters *)

Lemma merge_segments_few h segments indices :
  (length indices < 2)%nat -> merge_segments h segments indices = Ok (segments, h).
Proof.
  intros H. unfold merge_segments.
  by destruct (Nat.ltb_spec (length indices) 2) as [_|?]; [|lia].
Qed.

Lemma split_segment_out_of_range h segments (index : Z) (t : Q) :
  index < 0 \/ Z.of_nat (length segments) <= index ->
  split_segment h segments index t = Ok (segments, h).
Proof.
  intros H. unfold split_segment.
  destruct (Z.ltb_spec index 0); [done|].
  destruct (Z.leb_spec (Z.of_nat (length segments)) index); [done|lia].
Qed.

Lemma split_segment_outside_span h segments vs (i : nat) s (t : Q) :
  read_all h segments = Some vs -> vs !! i = Some s ->
  (t <= start s)%Q \/ (end_ s <= t)%Q ->
  split_segment h segments (Z.of_nat i) t = Ok (segments, h).
Proof.
  intros Hr Hs Ht. pose proof (lookup_lt_Some _ _ _ Hs) as Hi.
  destruct (read_at h segments vs (Z.of_nat i) Hr ltac:(lia))
    as (l & s' & _ & _ & Hv & Hg & Hd).
  rewrite Nat2Z.id, Hs in Hv. injection Hv as <-.
  pose proof (read_all_length _ _ _ Hr) as Hlen.
  unfold split_segment.
  assert (E1 : (Z.of_nat i <? 0) = false) by lia.
  assert (E2 : (Z.of_nat (length segments) <=? Z.of_nat i) = false) by lia.
  rewrite E1, E2. cbn [orb]. rewrite Hg. cbn [bind]. rewrite Hd. cbn [bind].
  destruct Ht as [Ht|Ht]; apply Qle_bool_iff in Ht; rewrite Ht; [done|].
  by rewrite orb_true_r.
Qed.

Lemma adjust_timing_out_of_range h segments (index : Z) (start_delta end_delta : Q) :
  index < 0 \/ Z.of_nat (length segments) <= index ->
  adjust_timing h segments index start_delta end_delta = Ok (segments, h).
Proof.
  intros H. unfold adjust_timing.
  destruct (Z.ltb_spec index 0); [done|].
  destruct (Z.leb_spec (Z.of_nat (length segments)) index); [done|lia].
Qed.

(** C1, where the code departs from the claim.  [merge_segments] has no
    range check: with the indices [0] and [5] on three segments it raises
    [IndexError]; with [-1] and [0] it returns the sequence without its
    first segment and without any merged segment.  ([split_segment] and
    [adjust_timing] do check, see the lemmas above.) *)
Theorem merge_segments_out_of_range :
  merge_segments sample_store sample_segments [0; 5] = Raise IndexError
  /\ exists h', merge_segments sample_store sample_segments [-1; 0]
                = Ok ([1; 2]%nat, h')
                /\ [1; 2]%nat <> sample_segments.
Proof.
  split; [vm_compute; reflexivity|].
  eexists. split; [vm_compute; reflexivity|discriminate].
Qed.

Lemma nondecreasing_last_greatest (l : list Z) (hi : Z) :
  StronglySorted Z.le l -> last l = Some hi -> forall z, z ∈ l -> z <= hi.
Proof.
  induction 1 as [|x xs Hs IH Hx]; intros Hl z Hz; [done|].
  rewrite Forall_forall in Hx.
  destruct xs as [|y ys].
  - injection Hl as <-. apply list_elem_of_singleton in Hz. lia.
  - change (last (y :: ys) = Some hi) in Hl.
    apply elem_of_cons in Hz as [->|Hz]; [|by apply IH].
    apply Hx. apply list_elem_of_lookup. exists (Nat.pred (length (y :: ys))).
    by rewrite <- last_lookup.
Qed.

(** Any index at or beyond the length makes a merge raise. *)
Lemma merge_segments_raises h segments vs indices (z : Z) :
  read_all h segments = Some vs -> (2 <= length indices)%nat ->
  z ∈ indices -> Z.of_nat (length segments) <= z ->
  merge_segments h segments indices = Raise IndexError.
Proof.
  intros Hr Hlen Hz Hbig. unfold merge_segments.
  destruct (Nat.ltb_spec (length indices) 2) as [?|_]; [lia|]. cbv zeta.
  pose proof (sorted_perm indices) as Hp.
  assert (Hz' : z ∈ sorted indices) by (by rewrite Hp).
  assert (Hlen' : (2 <= length (sorted indices))%nat) by (by rewrite Hp).
  pose proof (sorted_le indices) as Hs.
  destruct (sorted indices) as [|lo rest] eqn:E; [simpl in Hlen'; lia|].
  destruct (last (lo :: rest)) as [hi|] eqn:Ehi; [|by apply last_None in Ehi].
  rewrite (getitem_ok (lo :: rest) 0 lo) by (done || lia). cbn [bind].
  pose proof (nondecreasing_last_greatest _ hi Hs Ehi z Hz') as Hzhi.
  destruct (getitem segments lo) as [l0| |] eqn:E0; cbn [bind].
  - destruct (deref h l0) as [s0| |] eqn:D0; cbn [bind].
    + rewrite (getitem_last (lo :: rest) hi Ehi). cbn [bind].
      by rewrite (getitem_too_large segments hi) by lia.
    + exfalso. unfold deref in D0. by destruct (h !! l0).
    + exfalso. unfold getitem in E0.
      destruct (_ || _) in E0; [done|].
      destruct (segments !! _) as [l|] eqn:El in E0; [|done]. injection E0 as ->.
      destruct (read_all_lookup _ _ _ _ _ Hr El) as [Hh [v Hv]].
      unfold deref in D0. by rewrite Hh, Hv in D0.
  - unfold getitem in E0. destruct (_ || _) in E0; [congruence|].
    destruct (segments !! _) in E0; congruence.
  - unfold getitem in E0. destruct (_ || _) in E0; [done|].
    by destruct (segments !! _) in E0.
Qed.

(** ** Times after a shift *)

Lemma py_max_r (a b : Q) : (b <= py_max a b)%Q.
Proof. unfold py_max. destruct (Qlt_le_dec a b); [apply Qle_refl|done]. Qed.

Lemma py_max_l (a b : Q) : (a <= py_max a b)%Q.
Proof. unfold py_max. destruct (Qlt_le_dec a b); [by apply Qlt_le_weak|apply Qle_refl]. Qed.

(** The single-segment shift: the new start is the old start plus its
    delta, floored at 0; the new end is the old end plus its delta,
    floored at the new start plus a tenth of a second. *)
Lemma adjust_timing_times h segments vs (i : nat) s (start_delta end_delta : Q) :
  read_all h segments = Some vs -> vs !! i = Some s ->
  exists result h' vs' s',
    adjust_timing h segments (Z.of_nat i) start_delta end_delta = Ok (result, h')
    /\ read_all h' result = Some vs'
    /\ vs' !! i = Some s'
    /\ start s' = py_max 0 (start s + start_delta)
    /\ end_ s' = py_max (start s' + (1 # 10)) (end_ s + end_delta)
    /\ (0 <= start s')%Q /\ (start s' + (1 # 10) <= end_ s')%Q.
Proof.
  intros Hr Hs.
  destruct (adjust_timing_ok h segments vs i s start_delta end_delta Hr Hs) as [Ha Hread].
  cbv zeta in Ha, Hread. eexists _, _, _, _.
  split; [exact Ha|]. split; [exact Hread|].
  split; [apply list_lookup_insert_eq; by eapply lookup_lt_Some|].
  cbn [start end_ set_times]. split; [done|]. split; [done|].
  split; apply py_max_l.
Qed.

(** ** The global shift *)

Lemma shift_each_notin h segments (d : Q) h' (l : nat) :
  shift_each h segments d = Ok h' -> l ∉ segments -> h' !! l = h !! l.
Proof.
  revert h. induction segments as [|l0 rest IH]; intros h H Hl.
  - by injection H as <-.
  - apply not_elem_of_cons in Hl as [Hne Hl].
    cbn [shift_each] in H. unfold deref in H.
    destruct (h !! l0) as [s|] eqn:E; [|done]. cbn [bind] in H.
    rewrite list_lookup_insert_eq in H by (by eapply lookup_lt_Some).
    cbn [bind] in H. rewrite (IH _ H Hl).
    by rewrite !list_lookup_insert_ne by done.
Qed.

(** What the global shift computes on a sequence of distinct dicts: every
    start is floored at 0, every end at a tenth of a second. *)
Lemma global_shift_times h segments vs (d : Q) :
  read_all h segments = Some vs -> NoDup segments -> ~ (d == 0)%Q ->
  exists h',
    global_shift h segments d = Ok h'
    /\ read_all h' segments
       = Some ((fun s => set_times (py_max 0 (start s + d))
                                   (py_max (1 # 10) (end_ s + d)) s) <$> vs).
Proof.
  intros Hr Hnd Hd. unfold global_shift.
  destruct (Qeq_bool d 0) eqn:E; [by apply Qeq_bool_iff in E|]. clear E Hd.
  apply read_all_spec in Hr. revert h vs Hr.
  induction Hnd as [|l rest Hni Hnd IH]; intros h vs Hr.
  - apply Forall2_nil_inv_l in Hr as ->. by exists h.
  - apply Forall2_cons_inv_l in Hr as (s & vs' & Hs & Hr & ->).
    pose proof (lookup_lt_Some _ _ _ Hs) as Hlt.
    cbn [shift_each]. unfold deref. rewrite Hs. cbn [bind].
    rewrite list_lookup_insert_eq by done. cbn [bind].
    rewrite list_insert_insert_eq. cbn [start end_ set_times].
    set (s' := set_times _ _ _).
    destruct (IH (<[l := s']> h) vs') as (h' & Hh' & Hread).
    { clear -Hr Hni. induction Hr as [|l' v ls ws Hl' _ IHr]; constructor.
      - apply not_elem_of_cons in Hni as [Hne _]. by rewrite list_lookup_insert_ne.
      - apply IHr. by apply not_elem_of_cons in Hni as [_ ?]. }
    exists h'. split; [done|]. apply read_all_spec. rewrite fmap_cons.
    constructor; [|by apply read_all_spec].
    rewrite (shift_each_notin _ _ _ _ l Hh' Hni).
    by rewrite list_lookup_insert_eq.
Qed.

(** C5, where the code departs from the claim.  The global shift of the
    editor page floors the new end at a tenth of a second, not at the new
    start plus a tenth: a segment from 1 s to 1.05 s shifted by one second
    ends at 2.05 s, less than a tenth of a second after its start at 2 s,
    where the claim asks for 2.1 s.  ([adjust_timing] floors at the new
    start plus a tenth, see [adjust_timing_times].) *)
Theorem global_shift_short_segment :
  exists h' s',
    global_shift short_store [0%nat] 1 = Ok h'
    /\ h' !! 0%nat = Some s'
    /\ start s' = 2%Q /\ end_ s' = (41 # 20)%Q
    /\ py_max (start s' + (1 # 10)) ((21 # 20) + 1) = (21 # 10)%Q
    /\ ~ (start s' + (1 # 10) <= end_ s')%Q.
Proof.
  eexists _, _. split; [vm_compute; reflexivity|]. split; [reflexivity|].
  split; [reflexivity|]. split; [reflexivity|]. split; [reflexivity|].
  intros H. vm_compute in H. by apply H.
Qed.

(** C6, where the code departs from the claim.  The renumbering loops of
    [merge_segments] and [split_segment] write to dicts that the input
    sequence shares with the result: after merging the first two of three
    segments the third segment of the input is numbered 2, and after
    splitting the first segment the second and third are numbered 3 and
    4.  ([adjust_timing] copies every dict first, see [adjust_timing_pure].) *)
Theorem merge_and_split_renumber_the_input :
  read_all sample_store sample_segments = Some [seg_a; seg_b; seg_c]
  /\ (exists result h',
         merge_segments sample_store sample_segments [0; 1] = Ok (result, h')
         /\ read_all h' sample_segments = Some [seg_a; seg_b; set_index 2 seg_c])
  /\ (exists result h',
         split_segment sample_store sample_segments 0 2 = Ok (result, h')
         /\ read_all h' sample_segments
            = Some [seg_a; set_index 3 seg_b; set_index 4 seg_c]).
Proof.
  split; [reflexivity|]. split.
  - eexists _, _. split; vm_compute; reflexivity.
  - eexists _, _. split; vm_compute; reflexivity.
Qed.

(** ** Timestamp codec *)

Lemma Qfloor_unique (x : Q) (z : Z) :
  (inject_Z z <= x)%Q -> (x < inject_Z (z + 1))%Q -> Qfloor x = z.
Proof.
  intros H1 H2.
  pose proof (Qfloor_le x) as H3. pose proof (Qlt_floor x) as H4.
  assert (inject_Z z < inject_Z (Qfloor x + 1))%Q as H5 by lra.
  assert (inject_Z (Qfloor x) < inject_Z (z + 1))%Q as H6 by lra.
  rewrite <- Zlt_Qlt in H5, H6. lia.
Qed.

Lemma Qfloor_bounds (x : Q) :
  (inject_Z (Qfloor x) <= x)%Q /\ (x < inject_Z (Qfloor x) + 1)%Q.
Proof.
  split; [apply Qfloor_le|].
  pose proof (Qlt_floor x) as H. rewrite inject_Z_plus in H. exact H.
Qed.

(** The fields a non-negative number of seconds is printed with. *)
Lemma format_fields (s : Q) :
  (0 <= s)%Q ->
  let hours := floordiv s 3600 in
  let minutes := floordiv (fmod s 3600) 60 in
  let secs := int_of_float (fmod s 60) in
  let millis := int_of_float ((s - inject_Z (int_of_float s)) * 1000)%Q in
  0 <= hours /\ 0 <= minutes < 60 /\ 0 <= secs < 60 /\ 0 <= millis < 1000
  /\ hours * 3600 + minutes * 60 + secs = Qfloor s
  /\ 1000 * Qfloor s + millis = Qfloor (1000 * s)
  /\ ((s < 360000)%Q -> hours < 100).
Proof.
  intros Hs. cbv zeta. unfold fmod, floordiv.
  rewrite (int_of_float_floor s Hs).
  set (h := Qfloor (s / 3600)).
  set (m := Qfloor ((s - 3600 * inject_Z h) / 60)).
  set (q := Qfloor (s / 60)).
  set (N := Qfloor s).
  destruct (Qfloor_bounds (s / 3600)) as [Hh1 Hh2]. fold h in Hh1, Hh2.
  destruct (Qfloor_bounds ((s - 3600 * inject_Z h) / 60)) as [Hm1 Hm2].
  fold m in Hm1, Hm2.
  destruct (Qfloor_bounds (s / 60)) as [Hq1 Hq2]. fold q in Hq1, Hq2.
  destruct (Qfloor_bounds s) as [HN1 HN2]. fold N in HN1, HN2.
  unfold Qdiv in Hh1, Hh2, Hm1, Hm2, Hq1, Hq2.
  change (/ 3600)%Q with (1 # 3600)%Q in Hh1, Hh2.
  change (/ 60)%Q with (1 # 60)%Q in Hm1, Hm2, Hq1, Hq2.
  assert (Hr60 : (0 <= s - 60 * inject_Z q)%Q) by lra.
  assert (Hfr : (0 <= (s - inject_Z N) * 1000)%Q) by lra.
  rewrite (int_of_float_floor _ Hr60), (int_of_float_floor _ Hfr).
  set (sec := Qfloor (s - 60 * inject_Z q)).
  set (ms := Qfloor ((s - inject_Z N) * 1000)).
  destruct (Qfloor_bounds (s - 60 * inject_Z q)) as [Hc1 Hc2]. fold sec in Hc1, Hc2.
  destruct (Qfloor_bounds ((s - inject_Z N) * 1000)) as [Hl1 Hl2]. fold ms in Hl1, Hl2.
  assert (Zq : forall a b : Z, (inject_Z a < inject_Z b + 1)%Q -> a <= b).
  { intros a b H. change 1%Q with (inject_Z 1) in H.
    rewrite <- inject_Z_plus, <- Zlt_Qlt in H. lia. }
  assert (Hh0 : 0 <= h) by (apply Zq; change (inject_Z 0) with 0%Q; lra).
  assert (Hm0 : 0 <= m) by (apply Zq; change (inject_Z 0) with 0%Q; lra).
  assert (Hm59 : m <= 59) by (apply Zq; change (inject_Z 59) with 59%Q; lra).
  assert (Hc0 : 0 <= sec) by (apply Zq; change (inject_Z 0) with 0%Q; lra).
  assert (Hc59 : sec <= 59) by (apply Zq; change (inject_Z 59) with 59%Q; lra).
  assert (Hl0 : 0 <= ms) by (apply Zq; change (inject_Z 0) with 0%Q; lra).
  assert (Hl999 : ms <= 999) by (apply Zq; change (inject_Z 999) with 999%Q; lra).
  assert (Hq : q = 60 * h + m).
  { assert (q <= 60 * h + m).
    { apply Zq. rewrite inject_Z_plus, inject_Z_mult.
      change (inject_Z 60) with 60%Q. lra. }
    assert (60 * h + m <= q).
    { apply Zq. rewrite inject_Z_plus, inject_Z_mult.
      change (inject_Z 60) with 60%Q. lra. }
    lia. }
  assert (HqQ : (inject_Z q == 60 * inject_Z h + inject_Z m)%Q).
  { rewrite Hq, inject_Z_plus, inject_Z_mult. reflexivity. }
  assert (HN : N = h * 3600 + m * 60 + sec).
  { apply Qfloor_unique.
    - rewrite !inject_Z_plus, !inject_Z_mult.
      change (inject_Z 3600) with 3600%Q. change (inject_Z 60) with 60%Q. lra.
    - rewrite !inject_Z_plus, !inject_Z_mult.
      change (inject_Z 3600) with 3600%Q. change (inject_Z 60) with 60%Q.
      change (inject_Z 1) with 1%Q. lra. }
  split; [done|]. split; [lia|]. split; [lia|]. split; [lia|].
  split; [lia|]. split.
  - symmetry. apply Qfloor_unique.
    + rewrite !inject_Z_plus, !inject_Z_mult. change (inject_Z 1000) with 1000%Q. lra.
    + rewrite !inject_Z_plus, !inject_Z_mult. change (inject_Z 1000) with 1000%Q.
      change (inject_Z 1) with 1%Q. lra.
  - intros Hlt. assert (h <= 99); [|lia].
    apply Zq. change (inject_Z 99) with 99%Q. lra.
Qed.

(** *** Digits *)

Lemma is_digit_not_space (c : ascii) : is_digit c = true -> is_space c = false.
Proof.
  destruct c as [b0 b1 b2 b3 b4 b5 b6 b7].
  destruct b0, b1, b2, b3, b4, b5, b6, b7; vm_compute; congruence.
Qed.

Lemma prints_width_spec (w : nat) (n : Z) :
  prints_width w n = true ->
  length (fmt_d w n) = w
  /\ Forall (fun c => is_digit c = true) (fmt_d w n)
  /\ py_int (fmt_d w n) = Ok n.
Proof.
  unfold prints_width. intros H.
  apply andb_true_iff in H as [H H3]. apply andb_true_iff in H as [H1 H2].
  split; [by apply Nat.eqb_eq|]. split.
  - apply Forall_forall. intros c Hc. rewrite forallb_forall in H2.
    apply H2. by apply list_elem_of_In.
  - destruct (py_int (fmt_d w n)) as [m| |]; try done.
    apply Z.eqb_eq in H3. by subst.
Qed.

Lemma below_in_seq (n : Z) (k : nat) :
  0 <= n < Z.of_nat k -> In n (map Z.of_nat (seq 0 k)).
Proof.
  intros H. apply in_map_iff. exists (Z.to_nat n). split; [lia|].
  apply in_seq. lia.
Qed.

Lemma fmt_d_2 (n : Z) : 0 <= n < 100 -> prints_width 2 n = true.
Proof.
  intros H.
  assert (Hall : forallb (prints_width 2) (map Z.of_nat (seq 0 100)) = true)
    by (vm_compute; reflexivity).
  rewrite forallb_forall in Hall. apply Hall. by apply (below_in_seq n 100).
Qed.

Lemma fmt_d_3 (n : Z) : 0 <= n < 1000 -> prints_width 3 n = true.
Proof.
  intros H.
  assert (Hall : forallb (prints_width 3) (map Z.of_nat (seq 0 1000)) = true)
    by (vm_compute; reflexivity).
  rewrite forallb_forall in Hall. apply Hall. by apply (below_in_seq n 1000).
Qed.

Lemma digit_char_spec (k : Z) :
  0 <= k < 10 -> is_digit (digit_char k) = true /\ digit_val (digit_char k) = k.
Proof.
  intros H.
  assert (k = 0 \/ k = 1 \/ k = 2 \/ k = 3 \/ k = 4 \/ k = 5 \/ k = 6 \/ k = 7
          \/ k = 8 \/ k = 9) as Hk by lia.
  repeat (destruct Hk as [->|Hk]; [by vm_compute|]). subst. by vm_compute.
Qed.

Lemma digits_value_app (d1 d2 : str) (acc : Z) :
  digits_value (d1 ++ d2) acc = digits_value d2 (digits_value d1 acc).
Proof. revert acc. induction d1 as [|c d1 IH]; intros acc; [done|]. simpl. apply IH. Qed.

Lemma digits_fuel_spec (fuel : nat) (n : Z) :
  0 <= n < 2 ^ Z.of_nat fuel -> (0 < fuel)%nat ->
  exists d, (forall acc, digits_fuel fuel n acc = d ++ acc)
            /\ d <> [] /\ Forall (fun c => is_digit c = true) d
            /\ forall a, digits_value d a = a * 10 ^ Z.of_nat (length d) + n.
Proof.
  revert n. induction fuel as [|fuel IH]; intros n Hn Hf; [lia|].
  assert (0 <= n mod 10 < 10) as Hmod by (apply Z.mod_pos_bound; lia).
  destruct (digit_char_spec _ Hmod) as [Hd Hv].
  destruct (Z.eqb_spec (n / 10) 0) as [Hq|Hq].
  - exists [digit_char (n mod 10)]. split.
    { intros acc. cbn [digits_fuel]. cbv zeta.
      destruct (Z.eqb_spec (n / 10) 0); [done|lia]. }
    split; [done|]. split; [by constructor|].
    intros a. cbn [digits_value length]. rewrite Hv.
    pose proof (Z.div_mod n 10 ltac:(lia)). change (10 ^ Z.of_nat 1) with 10. lia.
  - assert (0 < n / 10) as Hpos.
    { pose proof (Z.div_pos n 10 ltac:(lia) ltac:(lia)). lia. }
    assert (0 < fuel)%nat as Hfuel0.
    { destruct fuel; [|lia]. exfalso. change (2 ^ Z.of_nat 1) with 2 in Hn.
      assert (n / 10 = 0) by (apply Z.div_small; lia). lia. }
    destruct (IH (n / 10)) as (d & Hfuel & Hne & Hdig & Hval); [|lia|].
    { split; [lia|]. rewrite Nat2Z.inj_succ, Z.pow_succ_r in Hn by lia.
      apply Z.div_lt_upper_bound; lia. }
    exists (d ++ [digit_char (n mod 10)]). split.
    { intros acc. cbn [digits_fuel]. cbv zeta.
      destruct (Z.eqb_spec (n / 10) 0); [lia|].
      rewrite Hfuel, <- (assoc_L (++)). done. }
    split; [by destruct d|]. split.
    { apply Forall_app. split; [done|by constructor]. }
    intros a. rewrite digits_value_app, Hval. cbn [digits_value].
    rewrite Hv, length_app. cbn [length].
    rewrite Nat2Z.inj_add, Z.pow_add_r by lia. change (10 ^ Z.of_nat 1) with 10.
    pose proof (Z.div_mod n 10 ltac:(lia)). lia.
Qed.

Lemma digit_val_range (c : ascii) : is_digit c = true -> 0 <= digit_val c <= 9.
Proof.
  destruct c as [b0 b1 b2 b3 b4 b5 b6 b7].
  destruct b0, b1, b2, b3, b4, b5, b6, b7; vm_compute; intuition congruence.
Qed.

Lemma digits_value_range (d : str) (acc : Z) :
  Forall (fun c => is_digit c = true) d ->
  acc * 10 ^ Z.of_nat (length d) <= digits_value d acc
  < (acc + 1) * 10 ^ Z.of_nat (length d).
Proof.
  intros H. revert acc. induction H as [|c d Hc _ IH]; intros acc.
  - cbn [digits_value length]. change (10 ^ Z.of_nat 0) with 1. lia.
  - cbn [digits_value length]. pose proof (digit_val_range c Hc) as Hv.
    specialize (IH (10 * acc + digit_val c)).
    rewrite Nat2Z.inj_succ, Z.pow_succ_r by lia.
    assert (0 < 10 ^ Z.of_nat (length d)) by (apply Z.pow_pos_nonneg; lia).
    nia.
Qed.

Lemma digits_spec (n : Z) :
  0 <= n ->
  Forall (fun c => is_digit c = true) (digits n) /\ digits_value (digits n) 0 = n.
Proof.
  intros Hn. unfold digits.
  destruct (digits_fuel_spec (S (Z.to_nat (Z.log2 n))) n) as (d & Hd & _ & Hdig & Hval).
  { split; [done|]. rewrite Nat2Z.inj_succ, Z2Nat.id by apply Z.log2_nonneg.
    destruct (Z.eq_dec n 0) as [->|Hn0]; [done|].
    apply Z.log2_spec. lia. }
  { lia. }
  rewrite Hd, app_nil_r. split; [done|]. rewrite Hval. lia.
Qed.

(** A number from 100 on prints with three digits at least. *)
Lemma digits_long (n : Z) :
  100 <= n ->
  exists d1 d2 d3 r,
    fmt_d 2 n = d1 :: d2 :: d3 :: r
    /\ is_digit d1 = true /\ is_digit d2 = true /\ is_digit d3 = true.
Proof.
  intros Hn. destruct (digits_spec n ltac:(lia)) as [Hd Hv].
  pose proof (digits_value_range (digits n) 0 Hd) as Hr. rewrite Hv in Hr.
  unfold fmt_d. destruct (Z.ltb_spec n 0) as [?|_]; [lia|]. cbv zeta.
  destruct (digits n) as [|d1 [|d2 [|d3 r]]] eqn:E.
  - cbn in Hr. lia.
  - cbn in Hr. lia.
  - cbn in Hr. lia.
  - exists d1, d2, d3, r. cbn [length Nat.sub replicate app].
    apply Forall_cons in Hd as [H1 Hd]. apply Forall_cons in Hd as [H2 Hd].
    apply Forall_cons in Hd as [H3 _]. done.
Qed.

(** *** Stripping *)

Lemma rstrip_id (s : str) (c : ascii) :
  last s = Some c -> is_space c = false -> rstrip s = s.
Proof.
  intros Hl Hc. unfold rstrip.
  rewrite (lstrip_id (rev s) c); [apply rev_involutive| |done].
  by rewrite head_rev.
Qed.

Lemma strip_id (s : str) (a z : ascii) :
  head s = Some a -> is_space a = false ->
  last s = Some z -> is_space z = false -> strip s = s.
Proof.
  intros Ha Hsa Hz Hsz. unfold strip.
  rewrite (lstrip_id s a) by done. by apply (rstrip_id s z).
Qed.

Lemma lstrip_app_solid (x y : str) (c : ascii) :
  head y = Some c -> is_space c = false -> exists x', lstrip (x ++ y) = x' ++ y.
Proof.
  intros Hy Hc. induction x as [|a x (x' & IH)].
  - exists []. cbn [app]. by apply (lstrip_id y c).
  - cbn [app lstrip]. destruct (is_space a); [by exists x'|by exists (a :: x)].
Qed.

(** Stripping keeps a start that begins and ends with no whitespace. *)
Lemma strip_keeps_start (a r : str) (c z : ascii) :
  head a = Some c -> is_space c = false -> last a = Some z -> is_space z = false ->
  exists r', strip (a ++ r) = a ++ r'.
Proof.
  intros Hc Hsc Hz Hsz. unfold strip.
  rewrite (lstrip_id (a ++ r) c); [|by destruct a|done].
  unfold rstrip. rewrite rev_app_distr.
  destruct (lstrip_app_solid (rev r) (rev a) z) as [x' Hx']; [by rewrite head_rev|done|].
  rewrite Hx', rev_app_distr, rev_involutive. by exists (rev x').
Qed.

(** *** Matching a printed timestamp *)

Lemma take_digits_app (d r : str) :
  Forall (fun c => is_digit c = true) d -> take_digits (length d) (d ++ r) = Some (d, r).
Proof.
  induction 1 as [|c d Hc _ IH]; [done|].
  cbn [length app take_digits]. by rewrite Hc, IH.
Qed.

Lemma match_full_ok (hh mm ss ms : str) (sep : ascii) (r : str) :
  length hh = 2%nat -> length mm = 2%nat -> length ss = 2%nat -> length ms = 3%nat ->
  Forall (fun c => is_digit c = true) hh -> Forall (fun c => is_digit c = true) mm ->
  Forall (fun c => is_digit c = true) ss -> Forall (fun c => is_digit c = true) ms ->
  is_sep sep = true ->
  match_full (hh ++ [":"%char] ++ mm ++ [":"%char] ++ ss ++ [sep] ++ ms ++ r)
  = Some ((hh, mm, ss, ms), r).
Proof.
  intros L1 L2 L3 L4 D1 D2 D3 D4 Hsep. unfold match_full.
  rewrite <- L1 at 1. rewrite take_digits_app by done. cbn [app expect is_colon].
  change (is_colon ":") with true. cbv iota.
  rewrite <- L2 at 1. rewrite take_digits_app by done. cbn [app expect].
  change (is_colon ":") with true. cbv iota.
  rewrite <- L3 at 1. rewrite take_digits_app by done. cbn [app expect].
  rewrite Hsep.
  rewrite <- L4 at 1. by rewrite take_digits_app.
Qed.

(** *** Printing and reading back *)

Lemma head_app_cons {A} (a : A) (l r : list A) : head ((a :: l) ++ r) = Some a.
Proof. done. Qed.

Lemma nonempty_of_length {A} (l : list A) (n : nat) :
  length l = S n -> exists a l', l = a :: l'.
Proof. destruct l; [done|eauto]. Qed.

(** The shape of a printed timestamp below 100 hours: four groups of
    digits that read back as the fields. *)
Lemma format_timestamp_shape (sep : ascii) (s : Q) :
  (0 <= s)%Q -> (s < 360000)%Q ->
  exists hh mm ss ms (hours minutes secs millis : Z),
    format_timestamp sep s = hh ++ [":"%char] ++ mm ++ [":"%char] ++ ss ++ [sep] ++ ms
    /\ length hh = 2%nat /\ length mm = 2%nat /\ length ss = 2%nat /\ length ms = 3%nat
    /\ Forall (fun c => is_digit c = true) hh /\ Forall (fun c => is_digit c = true) mm
    /\ Forall (fun c => is_digit c = true) ss /\ Forall (fun c => is_digit c = true) ms
    /\ py_int hh = Ok hours /\ py_int mm = Ok minutes
    /\ py_int ss = Ok secs /\ py_int ms = Ok millis
    /\ hours * 3600 + minutes * 60 + secs = Qfloor s
    /\ 1000 * Qfloor s + millis = Qfloor (1000 * s).
Proof.
  intros H0 H100.
  destruct (format_fields s H0) as (Hh & Hm & Hc & Hl & HN & HF & Hlt).
  cbv zeta in *. specialize (Hlt H100).
  destruct (prints_width_spec 2 _ (fmt_d_2 (floordiv s 3600) ltac:(lia))) as (L1 & D1 & P1).
  destruct (prints_width_spec 2 _ (fmt_d_2 (floordiv (fmod s 3600) 60) ltac:(lia)))
    as (L2 & D2 & P2).
  destruct (prints_width_spec 2 _ (fmt_d_2 (int_of_float (fmod s 60)) ltac:(lia)))
    as (L3 & D3 & P3).
  destruct (prints_width_spec 3 _
              (fmt_d_3 (int_of_float ((s - inject_Z (int_of_float s)) * 1000)) ltac:(lia)))
    as (L4 & D4 & P4).
  eexists _, _, _, _, _, _, _, _. split; [reflexivity|].
  repeat (split; [eassumption|]). eassumption.
Qed.

Lemma parse_format_timestamp (sep : ascii) (s : Q) :
  is_sep sep = true -> (0 <= s)%Q -> (s < 360000)%Q ->
  exists q, parse_timestamp_srt (format_timestamp sep s) = Ok q
            /\ parse_timestamp_vtt (format_timestamp sep s) = Ok q
            /\ (q == trunc_ms s)%Q.
Proof.
  intros Hsep H0 H100.
  destruct (format_timestamp_shape sep s H0 H100)
    as (hh & mm & ss & ms & hours & minutes & secs & millis & Hfmt
        & L1 & L2 & L3 & L4 & D1 & D2 & D3 & D4 & P1 & P2 & P3 & P4 & HN & HF).
  assert (Hstrip : strip (format_timestamp sep s) = format_timestamp sep s).
  { rewrite Hfmt.
    destruct (nonempty_of_length _ _ L1) as (a & hh' & ->).
    destruct (last ms) as [z|] eqn:Hz; [|apply last_None in Hz; by subst].
    apply (strip_id _ a z).
    - done.
    - apply is_digit_not_space. by apply Forall_cons in D1 as [? _].
    - rewrite !last_app, Hz. done.
    - apply is_digit_not_space. rewrite Forall_forall in D4. apply D4.
      by eapply last_Some_elem_of. }
  assert (Hmatch : match_full (format_timestamp sep s) = Some ((hh, mm, ss, ms), [])).
  { rewrite Hfmt. rewrite <- (app_nil_r ms) at 1. by apply match_full_ok. }
  exists (inject_Z (hours * 3600 + minutes * 60 + secs) + inject_Z millis / 1000)%Q.
  unfold parse_timestamp_srt, parse_timestamp_vtt.
  rewrite Hstrip, Hmatch, P1, P2, P3, P4. cbn [bind].
  split; [done|]. split; [done|].
  unfold trunc_ms. rewrite <- HF, HN.
  rewrite inject_Z_plus, inject_Z_mult. change (inject_Z 1000) with 1000%Q. field.
Qed.

Lemma trunc_ms_near (s q : Q) : (q == trunc_ms s)%Q -> near_ms s q.
Proof.
  intros Heq. destruct (Qfloor_bounds (1000 * s)) as [H1 H2].
  unfold trunc_ms, Qdiv in Heq. change (/ 1000)%Q with (1 # 1000)%Q in Heq.
  split; lra.
Qed.

(** From 100 hours on the hours are printed with three digits or more,
    and neither decoder matches the text: both answer 0. *)
Lemma parse_format_late (sep : ascii) (s : Q) :
  (360000 <= s)%Q ->
  parse_timestamp_srt (format_timestamp sep s) = Ok 0%Q
  /\ parse_timestamp_vtt (format_timestamp sep s) = Ok 0%Q.
Proof.
  intros Hs.
  assert (Hh : 100 <= floordiv s 3600).
  { unfold floordiv. change 100 with (Qfloor 100). apply Qfloor_resp_le.
    unfold Qdiv. change (/ 3600)%Q with (1 # 3600)%Q. lra. }
  destruct (digits_long _ Hh) as (d1 & d2 & d3 & r & E & H1 & H2 & H3).
  unfold format_timestamp. cbv zeta. rewrite E.
  set (T := [":"%char] ++ _).
  destruct (strip_keeps_start [d1; d2; d3] (r ++ T) d1 d3)
    as [r' Hr']; try done; try (by apply is_digit_not_space).
  change ((d1 :: d2 :: d3 :: r) ++ T) with ([d1; d2; d3] ++ r ++ T).
  unfold parse_timestamp_srt, parse_timestamp_vtt. rewrite Hr'.
  unfold match_full, match_short. cbn [app take_digits]. rewrite H1, H2.
  cbn [expect]. unfold is_colon.
  destruct (Ascii.eqb_spec d3 ":"%char) as [->|_]; [done|done].
Qed.

(** C2, amended.  The decoder returns on every printed timestamp.  Below
    100 hours the time read back is within a millisecond of the time
    printed: the print drops what is below the millisecond, so the time read
    is less than a millisecond (and the margin of [near_ms]) below [s], and
    not above it by more than that margin.  From 100 hours on the time read
    back is 0. *)
Theorem timestamp_roundtrip (s : Q) :
  (0 <= s)%Q ->
  exists q, parse_timestamp_srt (format_timestamp_srt s) = Ok q
            /\ ((s < 360000)%Q -> near_ms s q)
            /\ ((360000 <= s)%Q -> q = 0%Q).
Proof.
  intros H0. destruct (Qlt_le_dec s 360000) as [H100|H100].
  - destruct (parse_format_timestamp ","%char s eq_refl H0 H100) as (q & Hq & _ & Heq).
    exists q. split; [exact Hq|]. split; [intros _; by apply trunc_ms_near|].
    intros Hle. lra.
  - destruct (parse_format_late ","%char s H100) as [Hq _].
    exists 0%Q. split; [exact Hq|]. split; [intros Hlt; lra|done].
Qed.

Lemma timestamp_roundtrip_witness :
  exists q, parse_timestamp_srt (format_timestamp_srt (1234567 # 1000)) = Ok q
            /\ near_ms (1234567 # 1000) q.
Proof.
  destruct (timestamp_roundtrip (1234567 # 1000)) as (q & Hq & Hn & _).
  - vm_compute. discriminate.
  - exists q. split; [exact Hq|]. apply Hn. reflexivity.
Defined.

(** C2, the claim as stated fails at 100 hours: the hours are printed with
    three digits, the pattern of the decoder wants exactly two before the
    first colon, and the decoder answers 0. *)
Lemma hundred_hours_read_back_as_zero :
  format_timestamp_srt 360000 = lit "100:00:00,000"
  /\ parse_timestamp_srt (format_timestamp_srt 360000) = Ok 0%Q
  /\ ~ (360000 - 0 < 1 # 1000)%Q.
Proof.
  split; [vm_compute; reflexivity|]. split; [vm_compute; reflexivity|].
  intros H. vm_compute in H. discriminate.
Qed.

(** ** The parsers never raise *)

Lemma is_digit_not_sign (c : ascii) :
  is_digit c = true -> Ascii.eqb c "-"%char = false /\ Ascii.eqb c "+"%char = false.
Proof.
  destruct c as [b0 b1 b2 b3 b4 b5 b6 b7].
  destruct b0, b1, b2, b3, b4, b5, b6, b7; vm_compute; intuition congruence.
Qed.

Lemma int_digits_digits (d : str) (acc : Z) (after_digit : bool) :
  Forall (fun c => is_digit c = true) d -> d <> [] \/ after_digit = true ->
  exists n, int_digits d acc after_digit = Some n.
Proof.
  intros H. revert acc after_digit.
  induction H as [|c d Hc _ IH]; intros acc b Hb.
  - destruct Hb as [?|Hb]; [done|]. subst b. by exists acc.
  - cbn [int_digits]. rewrite Hc. apply IH. by right.
Qed.

Lemma py_int_of_digits (d : str) :
  d <> [] -> Forall (fun c => is_digit c = true) d -> exists n, py_int d = Ok n.
Proof.
  intros Hne Hd. unfold py_int.
  destruct d as [|c d']; [done|].
  destruct (last (c :: d')) as [z|] eqn:Hz; [|by apply last_None in Hz].
  rewrite (strip_id (c :: d') c z); try done.
  - pose proof (Forall_inv Hd) as Hc. simpl in Hc.
    destruct (is_digit_not_sign c Hc) as [-> ->].
    destruct (int_digits_digits (c :: d') 0 false Hd) as [n ->]; [by left|].
    by exists n.
  - apply is_digit_not_space. exact (Forall_inv Hd).
  - apply is_digit_not_space. rewrite Forall_forall in Hd. apply Hd.
    by eapply last_Some_elem_of.
Qed.

(** [int] on a string returns or raises [ValueError], nothing else. *)
Lemma py_int_outcome (s : str) : (exists n, py_int s = Ok n) \/ py_int s = Raise ValueError.
Proof.
  unfold py_int.
  match goal with |- context [match ?r with Some _ => _ | None => _ end] =>
    destruct r as [n|] end; [left; by exists n|by right].
Qed.

Lemma take_digits_spec (n : nat) (s d r : str) :
  take_digits n s = Some (d, r) ->
  length d = n /\ Forall (fun c => is_digit c = true) d /\ s = d ++ r.
Proof.
  revert s d r. induction n as [|n IH]; intros s d r H.
  - injection H as <- <-. done.
  - cbn [take_digits] in H. destruct s as [|c s]; [done|].
    destruct (is_digit c) eqn:Hc; [|done].
    destruct (take_digits n s) as [[d' r']|] eqn:E; [|done].
    injection H as <- <-. destruct (IH _ _ _ E) as (Hl & Hd & ->).
    split; [simpl; by rewrite Hl|]. split; [by constructor|done].
Qed.

Lemma expect_spec (p : ascii -> bool) (s : str) (c : ascii) (r : str) :
  expect p s = Some (c, r) -> p c = true /\ s = c :: r.
Proof.
  destruct s as [|x s]; [done|]. simpl. destruct (p x) eqn:E; [|done].
  by intros [= <- <-].
Qed.

Lemma match_full_spec (s hh mm ss ms r : str) :
  match_full s = Some ((hh, mm, ss, ms), r) ->
  exists c1 c2 c3,
    s = hh ++ c1 :: mm ++ c2 :: ss ++ c3 :: ms ++ r
    /\ is_colon c1 = true /\ is_colon c2 = true /\ is_sep c3 = true
    /\ length hh = 2%nat /\ length mm = 2%nat /\ length ss = 2%nat /\ length ms = 3%nat
    /\ Forall (fun c => is_digit c = true) hh /\ Forall (fun c => is_digit c = true) mm
    /\ Forall (fun c => is_digit c = true) ss /\ Forall (fun c => is_digit c = true) ms.
Proof.
  unfold match_full. intros H.
  destruct (take_digits 2 s) as [[d1 s1]|] eqn:E1; [|done].
  destruct (expect is_colon s1) as [[c1 s2]|] eqn:E2; [|done].
  destruct (take_digits 2 s2) as [[d2 s3]|] eqn:E3; [|done].
  destruct (expect is_colon s3) as [[c2 s4]|] eqn:E4; [|done].
  destruct (take_digits 2 s4) as [[d3 s5]|] eqn:E5; [|done].
  destruct (expect is_sep s5) as [[c3 s6]|] eqn:E6; [|done].
  destruct (take_digits 3 s6) as [[d4 s7]|] eqn:E7; [|done].
  injection H as <- <- <- <- <-.
  apply take_digits_spec in E1 as (? & ? & ->). apply expect_spec in E2 as (? & ->).
  apply take_digits_spec in E3 as (? & ? & ->). apply expect_spec in E4 as (? & ->).
  apply take_digits_spec in E5 as (? & ? & ->). apply expect_spec in E6 as (? & ->).
  apply take_digits_spec in E7 as (? & ? & ->).
  exists c1, c2, c3. repeat split; done.
Qed.

Lemma match_short_spec (s mm ss ms r : str) :
  match_short s = Some ((mm, ss, ms), r) ->
  length mm = 2%nat /\ length ss = 2%nat /\ length ms = 3%nat
  /\ Forall (fun c => is_digit c = true) mm
  /\ Forall (fun c => is_digit c = true) ss /\ Forall (fun c => is_digit c = true) ms.
Proof.
  unfold match_short. intros H.
  destruct (take_digits 2 s) as [[d1 s1]|] eqn:E1; [|done].
  destruct (expect is_colon s1) as [[c1 s2]|] eqn:E2; [|done].
  destruct (take_digits 2 s2) as [[d2 s3]|] eqn:E3; [|done].
  destruct (expect is_sep s3) as [[c3 s4]|] eqn:E4; [|done].
  destruct (take_digits 3 s4) as [[d4 s5]|] eqn:E5; [|done].
  injection H as <- <- <- <-.
  apply take_digits_spec in E1 as (? & ? & _). apply take_digits_spec in E3 as (? & ? & _).
  apply take_digits_spec in E5 as (? & ? & _). repeat split; done.
Qed.

Lemma py_int_group (d : str) (n : nat) :
  length d = S n -> Forall (fun c => is_digit c = true) d -> exists k, py_int d = Ok k.
Proof. intros Hl Hd. apply py_int_of_digits; [|done]. by destruct d. Qed.

Lemma parse_timestamp_srt_total (ts : str) : exists q, parse_timestamp_srt ts = Ok q.
Proof.
  unfold parse_timestamp_srt.
  destruct (match_full (strip ts)) as [[[[[hh mm] ss] ms] r]|] eqn:E; [|by eexists].
  apply match_full_spec in E
    as (c1 & c2 & c3 & _ & _ & _ & _ & L1 & L2 & L3 & L4 & D1 & D2 & D3 & D4).
  destruct (py_int_group hh _ L1 D1) as [h ->]. destruct (py_int_group mm _ L2 D2) as [m ->].
  destruct (py_int_group ss _ L3 D3) as [s ->]. destruct (py_int_group ms _ L4 D4) as [l ->].
  by eexists.
Qed.

Lemma parse_timestamp_vtt_total (ts : str) : exists q, parse_timestamp_vtt ts = Ok q.
Proof.
  unfold parse_timestamp_vtt.
  destruct (match_full (strip ts)) as [[[[[hh mm] ss] ms] r]|] eqn:E.
  - apply match_full_spec in E
      as (c1 & c2 & c3 & _ & _ & _ & _ & L1 & L2 & L3 & L4 & D1 & D2 & D3 & D4).
    destruct (py_int_group hh _ L1 D1) as [h ->]. destruct (py_int_group mm _ L2 D2) as [m ->].
    destruct (py_int_group ss _ L3 D3) as [s ->]. destruct (py_int_group ms _ L4 D4) as [l ->].
    by eexists.
  - destruct (match_short (strip ts)) as [[[[mm ss] ms] r]|] eqn:E'; [|by eexists].
    apply match_short_spec in E' as (L2 & L3 & L4 & D2 & D3 & D4).
    destruct (py_int_group mm _ L2 D2) as [m ->].
    destruct (py_int_group ss _ L3 D3) as [s ->]. destruct (py_int_group ms _ L4 D4) as [l ->].
    by eexists.
Qed.

Lemma getitem_lt {A} (l : list A) (k : nat) :
  (k < length l)%nat -> exists a, l !! k = Some a /\ getitem l (Z.of_nat k) = Ok a.
Proof.
  intros Hk. destruct (lookup_lt_is_Some_2 l k Hk) as [a Ha].
  exists a. split; [done|]. apply getitem_ok; [lia|]. by rewrite Nat2Z.id.
Qed.

Lemma parse_srt_block_total (block : str) : exists r, parse_srt_block block = Ok r.
Proof.
  unfold parse_srt_block. cbv zeta.
  destruct (Nat.ltb_spec (length (split_on nl (strip block))) 3) as [?|Hlen]; [by eexists|].
  destruct (getitem_lt (split_on nl (strip block)) 0 ltac:(lia)) as (l0 & _ & Hg0).
  change (Z.of_nat 0) with 0 in Hg0. rewrite Hg0. cbn [bind].
  destruct (py_int_outcome (strip l0)) as [[n ->]| ->]; [|by eexists].
  destruct (getitem_lt (split_on nl (strip block)) 1 ltac:(lia)) as (l1 & _ & Hg1).
  change (Z.of_nat 1) with 1 in Hg1. rewrite Hg1. cbn [bind].
  destruct (match_time_srt (strip l1)) as [[g1 g2]|]; [|by eexists].
  destruct (parse_timestamp_srt_total g1) as [q1 ->].
  destruct (parse_timestamp_srt_total g2) as [q2 ->]. by eexists.
Qed.

Lemma parse_srt_blocks_total (blocks : list str) :
  exists segments, parse_srt_blocks blocks = Ok segments.
Proof.
  induction blocks as [|b bs [segs IH]]; [by eexists|].
  cbn [parse_srt_blocks]. destruct (parse_srt_block_total b) as [r ->]. cbn [bind].
  rewrite IH. by eexists.
Qed.

Lemma parse_srt_blocks_none (blocks : list str) :
  Forall (fun b => parse_srt_block b = Ok None) blocks -> parse_srt_blocks blocks = Ok [].
Proof. induction 1 as [|b bs Hb _ IH]; [done|]. cbn [parse_srt_blocks]. by rewrite Hb, IH. Qed.

Lemma find_time_line_lt (i : nat) (lines : list str) (k : nat) :
  find_time_line i lines = Some k -> (i <= k < i + length lines)%nat.
Proof.
  revert i. induction lines as [|l ls IH]; intros i H; [done|].
  cbn [find_time_line] in H. destruct (contains_arrow l).
  - injection H as <-. simpl. lia.
  - apply IH in H. simpl. lia.
Qed.

Lemma parse_vtt_block_total (index : Z) (block : str) :
  exists r, parse_vtt_block index block = Ok r.
Proof.
  unfold parse_vtt_block. cbv zeta.
  destruct (length (split_on nl (strip block)) =? 0)%nat; [by eexists|].
  destruct (find_time_line 0 (split_on nl (strip block))) as [k|] eqn:E; [|by eexists].
  apply find_time_line_lt in E.
  destruct (getitem_lt (split_on nl (strip block)) k ltac:(lia)) as (l & _ & ->).
  cbn [bind].
  destruct (match_time_vtt (strip l)) as [[g1 g2]|]; [|by eexists].
  destruct (parse_timestamp_vtt_total g1) as [q1 ->].
  destruct (parse_timestamp_vtt_total g2) as [q2 ->]. by eexists.
Qed.

Lemma parse_vtt_blocks_total (index : Z) (blocks : list str) :
  exists segments, parse_vtt_blocks index blocks = Ok segments.
Proof.
  revert index. induction blocks as [|b bs IH]; intros index; [by eexists|].
  cbn [parse_vtt_blocks]. destruct (parse_vtt_block_total index b) as [r ->]. cbn [bind].
  destruct r as [s|]; [|apply IH].
  destruct (IH (index + 1)) as [segs ->]. by eexists.
Qed.

Lemma parse_vtt_blocks_none (index : Z) (blocks : list str) :
  Forall (fun b => parse_vtt_block index b = Ok None) blocks ->
  parse_vtt_blocks index blocks = Ok [].
Proof. induction 1 as [|b bs Hb _ IH]; [done|]. cbn [parse_vtt_blocks]. by rewrite Hb. Qed.

(** A block with fewer than three lines, or whose first line is not an
    integer, or whose second line is not a timing line, is skipped. *)
Lemma parse_srt_block_dropped (block : str) :
  (length (split_on nl (strip block)) < 3)%nat
  \/ (exists l0, split_on nl (strip block) !! 0%nat = Some l0
                 /\ py_int (strip l0) = Raise ValueError)
  \/ (exists l1, split_on nl (strip block) !! 1%nat = Some l1
                 /\ match_time_srt (strip l1) = None) ->
  parse_srt_block block = Ok None.
Proof.
  intros H. unfold parse_srt_block. cbv zeta.
  destruct (Nat.ltb_spec (length (split_on nl (strip block))) 3) as [?|Hlen]; [done|].
  destruct H as [?|H]; [lia|].
  destruct (getitem_lt (split_on nl (strip block)) 0 ltac:(lia)) as (l0 & Hl0 & Hg0).
  change (Z.of_nat 0) with 0 in Hg0. rewrite Hg0. cbn [bind].
  destruct H as [(l0' & Hl0' & Hint)|(l1' & Hl1' & Hm)].
  - rewrite Hl0 in Hl0'. injection Hl0' as <-. by rewrite Hint.
  - destruct (py_int_outcome (strip l0)) as [[n ->]| ->]; [|done].
    destruct (getitem_lt (split_on nl (strip block)) 1 ltac:(lia)) as (l1 & Hl1 & Hg1).
    change (Z.of_nat 1) with 1 in Hg1. rewrite Hg1. cbn [bind].
    rewrite Hl1 in Hl1'. injection Hl1' as <-. by rewrite Hm.
Qed.

(** C9. The parsers return a list for every input string.  A block of the
    primary format with fewer than three lines, with a first line that is
    not an integer, or with a second line that is not a timing line, is
    skipped; when every block is skipped the result is the empty
    sequence, for both formats.  The timestamp decoders return a number
    for every input string, and 0 when the string matches no pattern. *)
Theorem parsers_never_raise :
  (forall content, exists segments, parse_srt content = Ok segments)
  /\ (forall content, exists segments, parse_vtt content = Ok segments)
  /\ (forall block,
         (length (split_on nl (strip block)) < 3)%nat
         \/ (exists l0, split_on nl (strip block) !! 0%nat = Some l0
                        /\ py_int (strip l0) = Raise ValueError)
         \/ (exists l1, split_on nl (strip block) !! 1%nat = Some l1
                        /\ match_time_srt (strip l1) = None) ->
         parse_srt_block block = Ok None)
  /\ (forall content,
         Forall (fun b => parse_srt_block b = Ok None) (re_split_blank (strip content)) ->
         parse_srt content = Ok [])
  /\ (forall content,
         Forall (fun b => parse_vtt_block 0 b = Ok None)
                (re_split_blank (strip (strip_header content))) ->
         parse_vtt content = Ok [])
  /\ parse_srt [] = Ok [] /\ parse_vtt [] = Ok []
  /\ (forall ts, exists q, parse_timestamp_srt ts = Ok q)
  /\ (forall ts, match_full (strip ts) = None -> parse_timestamp_srt ts = Ok 0%Q)
  /\ (forall ts, exists q, parse_timestamp_vtt ts = Ok q)
  /\ (forall ts, match_full (strip ts) = None -> match_short (strip ts) = None ->
                 parse_timestamp_vtt ts = Ok 0%Q).
Proof.
  split; [intros content; apply parse_srt_blocks_total|].
  split; [intros content; apply parse_vtt_blocks_total|].
  split; [exact parse_srt_block_dropped|].
  split; [intros content; apply parse_srt_blocks_none|].
  split; [intros content; apply parse_vtt_blocks_none|].
  split; [reflexivity|]. split; [reflexivity|].
  split; [exact parse_timestamp_srt_total|].
  split; [intros ts H; unfold parse_timestamp_srt; by rewrite H|].
  split; [exact parse_timestamp_vtt_total|].
  intros ts H1 H2. unfold parse_timestamp_vtt. by rewrite H1, H2.
Qed.

(** The theorem at three malformed inputs: a block whose first line is not
    a number, a block whose timing line has no arrow, and a timestamp
    with three hour digits. *)
Lemma parsers_never_raise_witness :
  parse_srt_block (lit "x" ++ [nl] ++ lit "00:00:01,000 --> 00:00:02,000" ++ [nl] ++ lit "a")
  = Ok None
  /\ parse_srt (lit "1" ++ [nl] ++ lit "00:00:01,000 00:00:02,000" ++ [nl] ++ lit "a")
     = Ok []
  /\ parse_timestamp_srt (lit "100:00:00,000") = Ok 0%Q
  /\ parse_timestamp_vtt (lit "1:00.000") = Ok 0%Q.
Proof.
  destruct parsers_never_raise
    as (_ & _ & Hblock & Hnone & _ & _ & _ & _ & Hsrt & _ & Hvtt).
  split; [|split; [|split]].
  - apply Hblock. right. left. eexists. split; reflexivity.
  - apply Hnone. repeat constructor.
  - apply Hsrt. reflexivity.
  - apply Hvtt; reflexivity.
Defined.

(** ** Writing and reading back the primary format *)

(** *** Lines and blocks *)

Lemma split_on_nonempty (d : ascii) (s : str) : split_on d s <> [].
Proof.
  destruct s as [|c s]; [done|]. cbn [split_on].
  destruct (Ascii.eqb c d); [done|]. by destruct (split_on d s).
Qed.

Lemma split_on_app (d : ascii) (a b : str) :
  Forall (fun c => Ascii.eqb c d = false) a ->
  split_on d (a ++ d :: b) = a :: split_on d b.
Proof.
  induction 1 as [|c a Hc _ IH].
  - cbn [app split_on]. by rewrite Ascii.eqb_refl.
  - cbn [app split_on]. by rewrite Hc, IH.
Qed.

Lemma join_split_on (d : ascii) (s : str) : join [d] (split_on d s) = s.
Proof.
  induction s as [|c s IH]; [done|]. cbn [split_on].
  destruct (Ascii.eqb_spec c d) as [->|Hne].
  - pose proof (split_on_nonempty d s) as Hn.
    destruct (split_on d s) as [|p ps] eqn:E; [done|].
    change (join [d] ([] :: p :: ps)) with ([] ++ [d] ++ join [d] (p :: ps)).
    by rewrite IH.
  - pose proof (split_on_nonempty d s) as Hn.
    destruct (split_on d s) as [|p ps] eqn:E; [done|].
    destruct ps as [|p' ps].
    + simpl in *. by rewrite IH.
    + change (join [d] ((c :: p) :: p' :: ps))
        with (c :: (p ++ [d] ++ join [d] (p' :: ps))).
      by rewrite <- IH.
Qed.

Lemma starts_with_nl_app (a b : str) :
  a <> [] -> starts_with_nl (a ++ b) = starts_with_nl a.
Proof. by destruct a. Qed.

Lemma has_blank_app_plain (a b : str) :
  Forall (fun c => Ascii.eqb c nl = false) a -> has_blank (a ++ b) = has_blank b.
Proof. induction 1 as [|c a Hc _ IH]; [done|]. cbn [app has_blank]. by rewrite Hc, IH. Qed.

Lemma has_blank_snoc (s : str) :
  has_blank s = false -> last s <> Some nl -> has_blank (s ++ [nl]) = false.
Proof.
  induction s as [|c s IH]; intros Hb Hl; [done|].
  cbn [app has_blank] in *. apply orb_false_iff in Hb as [Hc Hb].
  destruct s as [|c' s].
  - cbn [app starts_with_nl has_blank]. rewrite Ascii.eqb_refl.
    destruct (Ascii.eqb_spec c nl) as [->|_]; [by destruct Hl|done].
  - rewrite IH; [|done|by rewrite last_cons_cons in Hl].
    rewrite starts_with_nl_app by done. by rewrite Hc.
Qed.

(** A block holds no blank line and does not end with a newline; then the
    splitter cuts exactly at the blank line after it. *)
Lemma split_blank_block (b rest : str) :
  has_blank (b ++ [nl]) = false ->
  split_blank (b ++ nl :: nl :: rest) false = b :: split_blank (nl :: rest) true.
Proof.
  induction b as [|c b IH]; intros Hb.
  - cbn [app split_blank andb starts_with_nl]. by rewrite Ascii.eqb_refl.
  - cbn [app has_blank] in Hb. apply orb_false_iff in Hb as [Hc Hb].
    cbn [app split_blank andb].
    assert (starts_with_nl (b ++ nl :: nl :: rest) = starts_with_nl (b ++ [nl])) as ->
      by (by destruct b).
    rewrite Hc, (IH Hb). done.
Qed.

Lemma split_blank_last (b : str) : has_blank b = false -> split_blank b false = [b].
Proof.
  induction b as [|c b IH]; intros Hb; [done|].
  cbn [has_blank] in Hb. apply orb_false_iff in Hb as [Hc Hb].
  cbn [split_blank andb]. by rewrite Hc, (IH Hb).
Qed.

Lemma split_blank_resume (s : str) :
  starts_with_nl s = false -> split_blank (nl :: s) true = split_blank s false.
Proof.
  intros Hs. cbn [split_blank andb]. rewrite Ascii.eqb_refl.
  destruct s as [|c s]; [done|]. cbn [starts_with_nl] in Hs.
  cbn [split_blank andb]. by rewrite Hs.
Qed.

Lemma has_blank_app_l (a b : str) : has_blank (a ++ b) = false -> has_blank a = false.
Proof.
  induction a as [|c a IH]; [done|]. cbn [app has_blank]. intros H.
  apply orb_false_iff in H as [Hc H]. rewrite (IH H), orb_false_r.
  destruct a as [|c' a]; [by rewrite andb_false_r|exact Hc].
Qed.

(** Blocks joined by blank lines are split into the same blocks. *)
Lemma split_blank_join (bs : list str) :
  bs <> [] ->
  Forall (fun b => has_blank (b ++ [nl]) = false /\ starts_with_nl b = false /\ b <> []) bs ->
  re_split_blank (join [nl; nl] bs) = bs.
Proof.
  unfold re_split_blank. intros Hne H. induction H as [|b bs (Hb & Hs & Hn) Hbs IH]; [done|].
  destruct bs as [|b' bs].
  - cbn [join]. apply split_blank_last. by eapply has_blank_app_l.
  - change (join [nl; nl] (b :: b' :: bs))
      with (b ++ nl :: nl :: join [nl; nl] (b' :: bs)).
    rewrite (split_blank_block _ _ Hb), split_blank_resume, IH; [done|done|].
    apply Forall_cons in Hbs as [(_ & Hs' & Hn') _].
    destruct bs; cbn [join]; [done|]. by rewrite starts_with_nl_app.
Qed.

(** *** What stripping leaves *)

Lemma strip_idemp (s : str) : strip (strip s) = strip s.
Proof.
  destruct (strip s) as [|a t] eqn:E; [done|]. rewrite <- E.
  destruct (last (strip s)) as [z|] eqn:Hz; [|apply last_None in Hz; congruence].
  apply (strip_id _ a z).
  - by rewrite E.
  - apply (strip_head s). by rewrite E.
  - done.
  - by apply (strip_last s).
Qed.

Lemma is_space_nl : is_space nl = true.
Proof. reflexivity. Qed.

Lemma not_space_not_nl (c : ascii) : is_space c = false -> Ascii.eqb c nl = false.
Proof. intros H. destruct (Ascii.eqb_spec c nl) as [->|]; [by rewrite is_space_nl in H|done]. Qed.

(** *** Decimal numbers *)

Lemma int_digits_value (d r : str) (acc : Z) (b : bool) :
  Forall (fun c => is_digit c = true) d -> d <> [] ->
  int_digits (d ++ r) acc b = int_digits r (digits_value d acc) true.
Proof.
  intros Hd. revert acc b. induction Hd as [|c d Hc Hd IH]; intros acc b Hne; [done|].
  cbn [app int_digits digits_value]. rewrite Hc.
  destruct d as [|c' d']; [done|]. by apply IH.
Qed.

Lemma str_of_int_spec (n : Z) :
  0 <= n ->
  str_of_int n <> [] /\ Forall (fun c => is_digit c = true) (str_of_int n)
  /\ py_int (str_of_int n) = Ok n.
Proof.
  intros Hn. unfold str_of_int, fmt_d.
  destruct (Z.ltb_spec n 0) as [?|_]; [lia|]. cbv zeta.
  rewrite Nat.sub_0_l. cbn [replicate app]. unfold digits.
  destruct (digits_fuel_spec (S (Z.to_nat (Z.log2 n))) n) as (d & Hd & Hne & Hdig & Hval).
  { split; [done|]. rewrite Nat2Z.inj_succ, Z2Nat.id by apply Z.log2_nonneg.
    destruct (Z.eq_dec n 0) as [->|Hn0]; [done|].
    apply Z.log2_spec. lia. }
  { lia. }
  rewrite Hd, app_nil_r. split; [done|]. split; [done|].
  unfold py_int. destruct d as [|c d']; [done|].
  destruct (last (c :: d')) as [z|] eqn:Hz; [|by apply last_None in Hz].
  rewrite (strip_id (c :: d') c z); try done.
  - pose proof (Forall_inv Hdig) as Hc. simpl in Hc.
    destruct (is_digit_not_sign c Hc) as [-> ->].
    rewrite <- (app_nil_r (c :: d')) at 1.
    rewrite int_digits_value by done. cbn [int_digits].
    rewrite Hval. reflexivity.
  - apply is_digit_not_space. exact (Forall_inv Hdig).
  - apply is_digit_not_space. rewrite Forall_forall in Hdig. apply Hdig.
    by eapply last_Some_elem_of.
Qed.

(** *** One printed block *)

Lemma is_digit_plain (d : str) :
  Forall (fun c => is_digit c = true) d -> Forall (fun c => is_space c = false) d.
Proof.
  intros H. eapply Forall_impl; [exact H|]. intros c. apply is_digit_not_space.
Qed.

(** A printed timestamp below 100 hours holds no whitespace. *)
Lemma format_timestamp_plain (s : Q) :
  (0 <= s)%Q -> (s < 360000)%Q ->
  Forall (fun c => is_space c = false) (format_timestamp_srt s)
  /\ format_timestamp_srt s <> [].
Proof.
  intros H0 H100. unfold format_timestamp_srt.
  destruct (format_timestamp_shape ","%char s H0 H100)
    as (hh & mm & ss & ms & ? & ? & ? & ? & -> & L1 & _ & _ & _ & D1 & D2 & D3 & D4 & _).
  split; [|by destruct hh].
  repeat (apply Forall_app; split); try (by apply is_digit_plain); by repeat constructor.
Qed.

Lemma plain_no_nl (s : str) :
  Forall (fun c => is_space c = false) s -> Forall (fun c => Ascii.eqb c nl = false) s.
Proof.
  intros H. eapply Forall_impl; [exact H|]. intros c. apply not_space_not_nl.
Qed.

Lemma plain_strip (s : str) : Forall (fun c => is_space c = false) s -> strip s = s.
Proof.
  intros H. destruct s as [|a s]; [done|].
  destruct (last (a :: s)) as [z|] eqn:Hz; [|by apply last_None in Hz].
  apply (strip_id _ a z); [done|exact (Forall_inv H)|done|].
  rewrite Forall_forall in H. apply H. by eapply last_Some_elem_of.
Qed.

Lemma plain_lstrip (s r : str) :
  s <> [] -> Forall (fun c => is_space c = false) s -> lstrip (s ++ r) = s ++ r.
Proof. intros Hne H. destruct s as [|a s]; [done|]. cbn [app lstrip]. by rewrite (Forall_inv H). Qed.

(** The timing line the generator writes is matched, and its two groups are
    the two printed timestamps. *)
Lemma match_time_srt_printed (a b : Q) :
  (0 <= a)%Q -> (a < 360000)%Q -> (0 <= b)%Q -> (b < 360000)%Q ->
  match_time_srt (format_timestamp_srt a ++ lit " --> " ++ format_timestamp_srt b)
  = Some (format_timestamp_srt a, format_timestamp_srt b).
Proof.
  intros Ha0 Ha Hb0 Hb.
  destruct (format_timestamp_plain b Hb0 Hb) as [Pb Nb].
  unfold match_time_srt.
  set (Fa := format_timestamp_srt a). set (Fb := format_timestamp_srt b) in *.
  destruct (format_timestamp_shape ","%char a Ha0 Ha)
    as (hh & mm & ss & ms & ? & ? & ? & ? & HFa & L1 & L2 & L3 & L4 & D1 & D2 & D3 & D4 & _).
  destruct (format_timestamp_shape ","%char b Hb0 Hb)
    as (hh' & mm' & ss' & ms' & ? & ? & ? & ? & HFb & L1' & L2' & L3' & L4'
        & D1' & D2' & D3' & D4' & _).
  fold (format_timestamp_srt a) in HFa. fold Fa in HFa.
  fold (format_timestamp_srt b) in HFb. fold Fb in HFb.
  assert (M1 : match_full (Fa ++ lit " --> " ++ Fb)
               = Some ((hh, mm, ss, ms), lit " --> " ++ Fb)).
  { rewrite HFa at 1. rewrite <- !(assoc_L (++)). by apply match_full_ok. }
  assert (M2 : match_full Fb = Some ((hh', mm', ss', ms'), [])).
  { rewrite HFb at 1. rewrite <- (app_nil_r ms') at 1. by apply match_full_ok. }
  rewrite M1.
  assert (M3 : match_arrow (lit " --> " ++ Fb) = Some Fb).
  { unfold match_arrow. change (lit " --> " ++ Fb) with (sp :: "-" :: "-" :: ">" :: sp :: Fb)%char.
    cbn [lstrip]. change (is_space sp) with true. cbv iota.
    change (is_space "-") with false. cbv iota.
    change (Ascii.eqb "-" "-") with true. change (Ascii.eqb ">" ">") with true.
    cbn [andb]. cbn [lstrip]. change (is_space sp) with true. cbv iota.
    rewrite <- (app_nil_r Fb) at 1. rewrite plain_lstrip by done. by rewrite app_nil_r. }
  rewrite M3, M2. unfold consumed. f_equal. f_equal.
  - rewrite length_app. rewrite take_app_length'; [done|lia].
  - cbn [length]. rewrite Nat.sub_0_r. apply firstn_all.
Qed.

(** One printed block reads back as its segment. *)
Lemma parse_srt_block_printed (i : Z) (s : seg) :
  0 <= i -> printable s ->
  exists p, parse_srt_block (block_of i s) = Ok (Some p) /\ read_back i s p.
Proof.
  intros Hi (Ha0 & Ha & Hb0 & Hb & Hne & Hblank).
  destruct (str_of_int_spec i Hi) as (In & Id & Ii).
  destruct (format_timestamp_plain _ Ha0 Ha) as [Pa Na].
  destruct (format_timestamp_plain _ Hb0 Hb) as [Pb Nb].
  set (I := str_of_int i) in *.
  set (T := format_timestamp_srt (start s) ++ lit " --> " ++ format_timestamp_srt (end_ s)).
  set (X := strip (text s)) in *.
  assert (HB : block_of i s = I ++ nl :: T ++ nl :: X).
  { unfold block_of, T. fold I X. by rewrite <- !(assoc_L (++)). }
  assert (PT : Forall (fun c => Ascii.eqb c nl = false) T).
  { unfold T. apply Forall_app. split; [by apply plain_no_nl|].
    apply Forall_app. split; [|by apply plain_no_nl].
    change (lit " --> ") with [sp; "-"; "-"; ">"; sp]%char. by repeat constructor. }
  assert (ST : strip T = T).
  { destruct (format_timestamp_srt (start s)) as [|c0 F0] eqn:EF; [done|].
    destruct (last (format_timestamp_srt (end_ s))) as [z|] eqn:Hz;
      [|by apply last_None in Hz].
    apply (strip_id _ c0 z).
    - done.
    - exact (Forall_inv Pa).
    - unfold T. rewrite !last_app, Hz. done.
    - rewrite Forall_forall in Pb. apply Pb. by eapply last_Some_elem_of. }
  destruct (last X) as [z|] eqn:Hz; [|by apply last_None in Hz].
  assert (SB : strip (block_of i s) = block_of i s).
  { rewrite HB. destruct I as [|c0 I0] eqn:EI; [done|].
    apply (strip_id _ c0 z).
    - done.
    - apply is_digit_not_space. exact (Forall_inv Id).
    - rewrite last_app. cbn [last]. rewrite last_cons, last_app.
      rewrite (last_cons nl X), Hz. done.
    - by apply (strip_last (text s)). }
  assert (Hlines : split_on nl (block_of i s) = I :: T :: split_on nl X).
  { rewrite HB. rewrite split_on_app by (by apply plain_no_nl, is_digit_plain).
    by rewrite split_on_app. }
  destruct (parse_format_timestamp ","%char (start s) eq_refl Ha0 Ha) as (q1 & Hq1 & _ & E1).
  destruct (parse_format_timestamp ","%char (end_ s) eq_refl Hb0 Hb) as (q2 & Hq2 & _ & E2).
  exists (mkSeg (Some i) q1 q2 X None). split; [|by repeat split].
  unfold parse_srt_block. cbv zeta. rewrite SB, Hlines.
  pose proof (split_on_nonempty nl X) as Hsx.
  destruct (split_on nl X) as [|x0 xs] eqn:EX; [done|].
  cbn [length Nat.ltb Nat.leb].
  rewrite (getitem_ok (I :: T :: x0 :: xs) 0 I) by (done || lia).
  cbn [bind]. rewrite (plain_strip I) by (by apply is_digit_plain). rewrite Ii.
  rewrite (getitem_ok (I :: T :: x0 :: xs) 1 T) by (done || lia). cbn [bind].
  rewrite ST. unfold T at 1. rewrite (match_time_srt_printed _ _ Ha0 Ha Hb0 Hb).
  fold (format_timestamp_srt (start s)) in Hq1. fold (format_timestamp_srt (end_ s)) in Hq2.
  rewrite Hq1, Hq2. cbn [bind drop]. rewrite <- EX, join_split_on.
  unfold X. by rewrite strip_idemp.
Qed.

(** *** The whole text *)

Lemma block_of_shape (i : Z) (s : seg) :
  0 <= i -> printable s ->
  exists a z,
    head (block_of i s) = Some a /\ is_space a = false
    /\ last (block_of i s) = Some z /\ is_space z = false
    /\ has_blank (block_of i s ++ [nl]) = false.
Proof.
  intros Hi (Ha0 & Ha & Hb0 & Hb & Hne & Hblank).
  destruct (str_of_int_spec i Hi) as (In & Id & _).
  destruct (format_timestamp_plain _ Ha0 Ha) as [Pa Na].
  destruct (format_timestamp_plain _ Hb0 Hb) as [Pb Nb].
  unfold block_of.
  set (I := str_of_int i) in *. set (X := strip (text s)) in *.
  set (Fa := format_timestamp_srt (start s)) in *.
  set (Fb := format_timestamp_srt (end_ s)) in *.
  destruct I as [|a I0] eqn:EI; [done|].
  destruct (last X) as [z|] eqn:Hz; [|by apply last_None in Hz].
  destruct X as [|x0 X0] eqn:EX; [done|].
  exists a, z. split; [done|].
  split; [apply is_digit_not_space; exact (Forall_inv Id)|].
  split.
  { rewrite !last_app. by rewrite Hz. }
  split; [apply (strip_last (text s)); fold X; by rewrite EX|].
  rewrite <- !(assoc_L (++)).
  rewrite has_blank_app_plain by (by apply plain_no_nl, is_digit_plain).
  cbn [app has_blank]. rewrite Ascii.eqb_refl. cbn [andb].
  rewrite starts_with_nl_app by done.
  assert (starts_with_nl Fa = false) as ->.
  { destruct Fa as [|c F]; [done|]. apply not_space_not_nl. exact (Forall_inv Pa). }
  cbn [orb]. rewrite has_blank_app_plain by (by apply plain_no_nl).
  rewrite has_blank_app_plain
    by (change (lit " --> ") with [sp; "-"; "-"; ">"; sp]%char; by repeat constructor).
  rewrite has_blank_app_plain by (by apply plain_no_nl).
  cbn [app has_blank]. rewrite Ascii.eqb_refl. cbn [andb starts_with_nl].
  assert (Ascii.eqb x0 nl = false) as ->.
  { apply not_space_not_nl. apply (strip_head (text s)). fold X. by rewrite EX. }
  cbn [andb orb]. apply has_blank_snoc.
  - cbn [has_blank] in Hblank. by apply orb_false_iff in Hblank as [_ ?].
  - destruct X0 as [|x1 X1]; [done|]. rewrite last_cons_cons in Hz. rewrite Hz.
    intros [= ->].
    assert (is_space nl = false) as Hnl; [|by rewrite is_space_nl in Hnl].
    apply (strip_last (text s)). fold X. rewrite EX. by rewrite last_cons_cons.
Qed.

Lemma generate_blocks_join (i : Z) (segments : list seg) :
  segments <> [] ->
  generate_blocks format_timestamp_srt i segments
  = join [nl; nl] (blocks_of i segments) ++ [nl; nl].
Proof.
  revert i. induction segments as [|s rest IH]; intros i Hne; [done|].
  cbn [generate_blocks blocks_of].
  assert (forall tail, str_of_int i ++ [nl] ++ format_timestamp_srt (start s) ++ lit " --> "
            ++ format_timestamp_srt (end_ s) ++ [nl] ++ strip (text s) ++ tail
          = block_of i s ++ tail) as ->.
  { intros tail. unfold block_of. by rewrite <- !(assoc_L (++)). }
  destruct rest as [|s' rest].
  - done.
  - rewrite IH by done. cbn [blocks_of].
    change (join [nl; nl] (block_of i s :: block_of (i + 1) s' :: blocks_of (i + 1 + 1) rest))
      with (block_of i s ++ [nl; nl]
            ++ join [nl; nl] (block_of (i + 1) s' :: blocks_of (i + 1 + 1) rest)).
    by rewrite <- !(assoc_L (++)).
Qed.

Lemma join_head (sep b : str) (bs : list str) (a : ascii) :
  head b = Some a -> head (join sep (b :: bs)) = Some a.
Proof. destruct b as [|x b]; [done|]. intros [= ->]. by destruct bs. Qed.

Lemma join_last (sep : str) (bs : list str) (b : str) (z : ascii) :
  last bs = Some b -> last b = Some z -> last (join sep bs) = Some z.
Proof.
  induction bs as [|b0 bs IH]; intros Hb Hz; [done|].
  destruct bs as [|b1 bs].
  - injection Hb as ->. exact Hz.
  - change (join sep (b0 :: b1 :: bs)) with (b0 ++ sep ++ join sep (b1 :: bs)).
    rewrite !last_app. rewrite IH; [done| |done]. by rewrite last_cons_cons in Hb.
Qed.

Lemma rstrip_blank_line (s : str) (z : ascii) :
  last s = Some z -> is_space z = false -> rstrip (s ++ [nl; nl]) = s.
Proof.
  intros Hz Hs. unfold rstrip. rewrite rev_app_distr. cbn [rev app lstrip].
  rewrite is_space_nl. rewrite (lstrip_id (rev s) z); [apply rev_involutive| |done].
  by rewrite head_rev.
Qed.

Lemma blocks_of_last (i : Z) (segments : list seg) (b : str) :
  0 <= i -> last (blocks_of i segments) = Some b ->
  exists j s, 0 <= j /\ s ∈ segments /\ b = block_of j s.
Proof.
  revert i. induction segments as [|s rest IH]; intros i Hi Hb; [done|].
  cbn [blocks_of] in Hb. destruct rest as [|s' rest].
  - injection Hb as <-. exists i, s. split; [done|]. split; [|done].
    apply elem_of_cons. by left.
  - cbn [blocks_of] in Hb. rewrite last_cons_cons in Hb.
    destruct (IH (i + 1) ltac:(lia) Hb) as (j & s0 & Hj & Hin & ->).
    exists j, s0. split; [done|]. split; [|done]. apply elem_of_cons. by right.
Qed.

Lemma strip_generate (i : Z) (segments : list seg) :
  0 <= i -> segments <> [] -> Forall printable segments ->
  strip (generate_blocks format_timestamp_srt i segments)
  = join [nl; nl] (blocks_of i segments).
Proof.
  intros Hi Hne Hp. rewrite generate_blocks_join by done.
  destruct segments as [|s rest]; [done|].
  pose proof (Forall_inv Hp) as Hs.
  destruct (block_of_shape i s Hi Hs) as (a & _ & Ha & Hsa & _).
  destruct (last (blocks_of i (s :: rest))) as [b|] eqn:Hb; [|by apply last_None in Hb].
  destruct (blocks_of_last i (s :: rest) b Hi Hb) as (j & s0 & Hj & Hin & ->).
  rewrite Forall_forall in Hp.
  destruct (block_of_shape j s0 Hj (Hp _ Hin)) as (_ & z & _ & _ & Hz & Hsz & _).
  unfold strip.
  rewrite (lstrip_id _ a).
  - apply (rstrip_blank_line _ z); [|done]. by eapply join_last.
  - cbn [blocks_of]. destruct (join [nl; nl] (block_of i s :: blocks_of (i + 1) rest)) eqn:E.
    + pose proof (join_head [nl; nl] _ (blocks_of (i + 1) rest) a Ha) as Hh.
      by rewrite E in Hh.
    + pose proof (join_head [nl; nl] _ (blocks_of (i + 1) rest) a Ha) as Hh.
      rewrite E in Hh. exact Hh.
  - done.
Qed.

Lemma blocks_of_solid (i : Z) (segments : list seg) :
  0 <= i -> Forall printable segments ->
  Forall (fun b => has_blank (b ++ [nl]) = false /\ starts_with_nl b = false /\ b <> [])
         (blocks_of i segments).
Proof.
  intros Hi Hp. revert i Hi. induction Hp as [|s rest Hs _ IH]; intros i Hi; [constructor|].
  cbn [blocks_of]. constructor; [|apply IH; lia].
  destruct (block_of_shape i s Hi Hs) as (a & z & Ha & Hsa & _ & _ & Hb).
  split; [done|]. destruct (block_of i s) as [|c b]; [done|].
  injection Ha as ->. split; [|done]. by apply not_space_not_nl.
Qed.

Lemma parse_srt_blocks_printed (i : Z) (segments : list seg) :
  0 <= i -> Forall printable segments ->
  exists parsed,
    parse_srt_blocks (blocks_of i segments) = Ok parsed
    /\ length parsed = length segments
    /\ forall (k : nat) s p, segments !! k = Some s -> parsed !! k = Some p ->
                             read_back (i + Z.of_nat k) s p.
Proof.
  intros Hi Hp. revert i Hi. induction Hp as [|s rest Hs _ IH]; intros i Hi.
  - exists []. split; [done|]. split; [done|]. intros k s p H. by rewrite lookup_nil in H.
  - destruct (parse_srt_block_printed i s Hi Hs) as (p0 & Hp0 & Hr0).
    destruct (IH (i + 1) ltac:(lia)) as (parsed & Hparsed & Hlen & Hall).
    exists (p0 :: parsed). cbn [blocks_of parse_srt_blocks].
    rewrite Hp0. cbn [bind]. rewrite Hparsed. cbn [bind].
    split; [done|]. split; [simpl; by rewrite Hlen|].
    intros [|k] s1 p1 Hs1 Hp1.
    + injection Hs1 as <-. injection Hp1 as <-. by rewrite Z.add_0_r.
    + replace (i + Z.of_nat (S k)) with (i + 1 + Z.of_nat k) by lia. by apply Hall.
Qed.

Lemma read_back_near (i : Z) (s p : seg) : read_back i s p -> read_near i s p.
Proof.
  intros (Hi & Hs & He & Ht & Ho). split; [done|].
  split; [by apply trunc_ms_near|]. split; [by apply trunc_ms_near|]. done.
Qed.

Lemma reads_back_near (segments : list seg) (r : outcome (list seg)) :
  reads_back segments r -> reads_near segments r.
Proof.
  intros (parsed & Hr & Hlen & Hall). exists parsed. split; [done|]. split; [done|].
  intros k s p Hs Hp. apply read_back_near. by apply Hall.
Qed.

(** C8, amended.  For segments with times from 0 to below 100 hours and a
    text that, stripped, is not empty and holds no blank line, parsing the
    generated primary-format text returns one segment per input segment, in
    order: numbered by position from 1, with a start and an end within a
    millisecond of the written ones (the print drops what is below the
    millisecond), the stripped text, and no [original]. *)
Theorem parse_generate_srt (segments : list seg) :
  Forall printable segments ->
  exists parsed,
    parse_srt (generate_srt segments) = Ok parsed
    /\ length parsed = length segments
    /\ forall (k : nat) s p, segments !! k = Some s -> parsed !! k = Some p ->
                             read_near (Z.of_nat k + 1) s p.
Proof.
  intros Hp. destruct segments as [|s rest].
  - exists []. split; [reflexivity|]. split; [done|].
    intros k s p H. by rewrite lookup_nil in H.
  - destruct (parse_srt_blocks_printed 1 (s :: rest) ltac:(lia) Hp)
      as (parsed & Hparsed & Hlen & Hall).
    exists parsed. split; [|split; [done|]].
    + unfold parse_srt, generate_srt.
      rewrite strip_generate by (done || lia).
      rewrite split_blank_join; [done|done|]. by apply blocks_of_solid.
    + intros k s1 p1 Hs1 Hp1. apply read_back_near. rewrite Z.add_comm. by apply Hall.
Qed.

Lemma parse_generate_srt_witness :
  exists parsed,
    parse_srt (generate_srt sample_store) = Ok parsed
    /\ length parsed = length sample_store
    /\ forall (k : nat) s p, sample_store !! k = Some s -> parsed !! k = Some p ->
                             read_near (Z.of_nat k + 1) s p.
Proof.
  apply (parse_generate_srt sample_store).
  repeat constructor; try (vm_compute; discriminate); try reflexivity.
Defined.

(** C8, the claim as stated fails.  A well-formed segment whose text holds a
    blank line is read back with the text before the blank line only; a
    well-formed segment at 100 hours is not read back at all. *)
Lemma blank_line_and_late_segment_not_read_back :
  (start blank_line_seg < end_ blank_line_seg)%Q
  /\ (exists p, parse_srt (generate_srt [blank_line_seg]) = Ok [p]
                /\ text p = lit "a" /\ text p <> text blank_line_seg)
  /\ (start late_seg < end_ late_seg)%Q
  /\ parse_srt (generate_srt [late_seg]) = Ok [].
Proof.
  split; [reflexivity|]. split.
  - eexists. split; [vm_compute; reflexivity|]. split; [reflexivity|discriminate].
  - split; [reflexivity|vm_compute; reflexivity].
Qed.

(* ================================================================== *)
(** * Further properties of the code *)

(** ** The secondary timestamp codec *)

(** The secondary codec reads back what it prints as the primary one
    does: below 100 hours a time within a millisecond of the time printed,
    at most a millisecond (and the margin of [near_ms]) below it; from
    100 hours on, 0. *)
Theorem timestamp_vtt_roundtrip (s : Q) :
  (0 <= s)%Q ->
  exists q, parse_timestamp_vtt (format_timestamp_vtt s) = Ok q
            /\ ((s < 360000)%Q -> near_ms s q)
            /\ ((360000 <= s)%Q -> q = 0%Q).
Proof.
  intros H0. destruct (Qlt_le_dec s 360000) as [H100|H100].
  - destruct (parse_format_timestamp "."%char s eq_refl H0 H100) as (q & _ & Hq & Heq).
    exists q. split; [exact Hq|]. split; [intros _; by apply trunc_ms_near|].
    intros Hle. lra.
  - destruct (parse_format_late "."%char s H100) as [_ Hq].
    exists 0%Q. split; [exact Hq|]. split; [intros Hlt; lra|done].
Qed.

Lemma timestamp_vtt_roundtrip_witness :
  exists q, parse_timestamp_vtt (format_timestamp_vtt (7 # 2)) = Ok q
            /\ near_ms (7 # 2) q.
Proof.
  destruct (timestamp_vtt_roundtrip (7 # 2)) as (q & Hq & Hn & _).
  - vm_compute. discriminate.
  - exists q. split; [exact Hq|]. apply Hn. reflexivity.
Defined.

(** Each decoder reads the other format's timestamps, and reads them as
    the format's own decoder does: the separator before the milliseconds
    may be a comma or a full stop for both.  Below 100 hours the time read
    is within a millisecond of the time printed. *)
Theorem decoders_read_both_separators (s : Q) :
  (0 <= s)%Q -> (s < 360000)%Q ->
  exists q1 q2,
    parse_timestamp_srt (format_timestamp_vtt s) = Ok q1
    /\ parse_timestamp_vtt (format_timestamp_vtt s) = Ok q1
    /\ parse_timestamp_vtt (format_timestamp_srt s) = Ok q2
    /\ parse_timestamp_srt (format_timestamp_srt s) = Ok q2
    /\ near_ms s q1 /\ near_ms s q2.
Proof.
  intros H0 H100.
  destruct (parse_format_timestamp "."%char s eq_refl H0 H100) as (q1 & Hq1 & Hq1' & E1).
  destruct (parse_format_timestamp ","%char s eq_refl H0 H100) as (q2 & Hq2 & Hq2' & E2).
  exists q1, q2. repeat split; try done; by apply trunc_ms_near.
Qed.

Lemma decoders_read_both_separators_witness :
  exists q1 q2,
    parse_timestamp_srt (format_timestamp_vtt (7 # 2)) = Ok q1
    /\ parse_timestamp_vtt (format_timestamp_vtt (7 # 2)) = Ok q1
    /\ parse_timestamp_vtt (format_timestamp_srt (7 # 2)) = Ok q2
    /\ parse_timestamp_srt (format_timestamp_srt (7 # 2)) = Ok q2
    /\ near_ms (7 # 2) q1 /\ near_ms (7 # 2) q2.
Proof.
  apply (decoders_read_both_separators (7 # 2)).
  - vm_compute. discriminate.
  - reflexivity.
Defined.

(** ** What the decoders can return *)

(** A group of digits reads as a number below the power of ten of its
    length. *)
Lemma py_int_group_range (d : str) (n : nat) :
  length d = S n -> Forall (fun c => is_digit c = true) d ->
  exists k, py_int d = Ok k /\ 0 <= k < 10 ^ Z.of_nat (S n).
Proof.
  intros Hl Hd. destruct d as [|c d']; [done|].
  exists (digits_value (c :: d') 0). split.
  - unfold py_int.
    destruct (last (c :: d')) as [z|] eqn:Hz; [|by apply last_None in Hz].
    rewrite (strip_id (c :: d') c z); try done.
    + pose proof (Forall_inv Hd) as Hc. simpl in Hc.
      destruct (is_digit_not_sign c Hc) as [-> ->].
      rewrite <- (app_nil_r (c :: d')) at 1.
      by rewrite int_digits_value.
    + apply is_digit_not_space. exact (Forall_inv Hd).
    + apply is_digit_not_space. rewrite Forall_forall in Hd. apply Hd.
      by eapply last_Some_elem_of.
  - pose proof (digits_value_range (c :: d') 0 Hd) as H. rewrite Hl in H. lia.
Qed.

Lemma timestamp_value_range (h m s l : Z) :
  0 <= h < 100 -> 0 <= m < 100 -> 0 <= s < 100 -> 0 <= l < 1000 ->
  (0 <= inject_Z (h * 3600 + m * 60 + s) + inject_Z l / 1000)%Q
  /\ (inject_Z (h * 3600 + m * 60 + s) + inject_Z l / 1000 < 362440)%Q.
Proof.
  intros Hh Hm Hs Hl.
  assert (0 <= inject_Z (h * 3600 + m * 60 + s))%Q as H1
    by (change 0%Q with (inject_Z 0); rewrite <- Zle_Qle; lia).
  assert (inject_Z (h * 3600 + m * 60 + s) <= 362439)%Q as H2
    by (change 362439%Q with (inject_Z 362439); rewrite <- Zle_Qle; lia).
  assert (0 <= inject_Z l)%Q as H3
    by (change 0%Q with (inject_Z 0); rewrite <- Zle_Qle; lia).
  assert (inject_Z l <= 999)%Q as H4
    by (change 999%Q with (inject_Z 999); rewrite <- Zle_Qle; lia).
  unfold Qdiv. change (/ 1000)%Q with (1 # 1000)%Q. split; lra.
Qed.

Lemma full_groups_range (hh mm ss ms : str) :
  length hh = 2%nat -> length mm = 2%nat -> length ss = 2%nat -> length ms = 3%nat ->
  Forall (fun c => is_digit c = true) hh -> Forall (fun c => is_digit c = true) mm ->
  Forall (fun c => is_digit c = true) ss -> Forall (fun c => is_digit c = true) ms ->
  exists q, (h <- py_int hh ;; m <- py_int mm ;; s <- py_int ss ;; l <- py_int ms ;;
             Ok (inject_Z (h * 3600 + m * 60 + s) + inject_Z l / 1000)%Q) = Ok q
            /\ (0 <= q)%Q /\ (q < 362440)%Q.
Proof.
  intros L1 L2 L3 L4 D1 D2 D3 D4.
  destruct (py_int_group_range hh _ L1 D1) as (h & -> & Hh).
  destruct (py_int_group_range mm _ L2 D2) as (m & -> & Hm).
  destruct (py_int_group_range ss _ L3 D3) as (s & -> & Hs).
  destruct (py_int_group_range ms _ L4 D4) as (l & -> & Hl).
  cbn [bind]. eexists. split; [reflexivity|].
  apply timestamp_value_range; done.
Qed.

Lemma parse_timestamp_srt_range (ts : str) :
  exists q, parse_timestamp_srt ts = Ok q /\ (0 <= q)%Q /\ (q < 362440)%Q.
Proof.
  unfold parse_timestamp_srt.
  destruct (match_full (strip ts)) as [[[[[hh mm] ss] ms] r]|] eqn:E.
  - apply match_full_spec in E
      as (c1 & c2 & c3 & _ & _ & _ & _ & L1 & L2 & L3 & L4 & D1 & D2 & D3 & D4).
    by apply full_groups_range.
  - exists 0%Q. split; [done|]. split; [done|reflexivity].
Qed.

Lemma parse_timestamp_vtt_range (ts : str) :
  exists q, parse_timestamp_vtt ts = Ok q /\ (0 <= q)%Q /\ (q < 362440)%Q.
Proof.
  unfold parse_timestamp_vtt.
  destruct (match_full (strip ts)) as [[[[[hh mm] ss] ms] r]|] eqn:E.
  - apply match_full_spec in E
      as (c1 & c2 & c3 & _ & _ & _ & _ & L1 & L2 & L3 & L4 & D1 & D2 & D3 & D4).
    by apply full_groups_range.
  - destruct (match_short (strip ts)) as [[[[mm ss] ms] r]|] eqn:E'.
    + apply match_short_spec in E' as (L2 & L3 & L4 & D2 & D3 & D4).
      destruct (py_int_group_range mm _ L2 D2) as (m & -> & Hm).
      destruct (py_int_group_range ss _ L3 D3) as (s & -> & Hs).
      destruct (py_int_group_range ms _ L4 D4) as (l & -> & Hl).
      cbn [bind]. eexists. split; [reflexivity|].
      pose proof (timestamp_value_range 0 m s l ltac:(lia) Hm Hs Hl) as H.
      change (0 * 3600 + m * 60 + s) with (m * 60 + s) in H. exact H.
    + exists 0%Q. split; [done|]. split; [done|reflexivity].
Qed.

(** For every input string the decoders return a time from 0 to below
    362440 seconds (99:99:99,999 is the greatest text they match): never a
    negative time, whatever the text. *)
Theorem decoders_range (ts : str) :
  (exists q, parse_timestamp_srt ts = Ok q /\ (0 <= q)%Q /\ (q < 362440)%Q)
  /\ (exists q, parse_timestamp_vtt ts = Ok q /\ (0 <= q)%Q /\ (q < 362440)%Q).
Proof. split; [apply parse_timestamp_srt_range|apply parse_timestamp_vtt_range]. Qed.

(** ** Reading a timestamp field by field *)

Lemma match_short_ok (mm ss ms : str) (sep : ascii) (r : str) :
  length mm = 2%nat -> length ss = 2%nat -> length ms = 3%nat ->
  Forall (fun c => is_digit c = true) mm ->
  Forall (fun c => is_digit c = true) ss -> Forall (fun c => is_digit c = true) ms ->
  is_sep sep = true ->
  match_short (mm ++ [":"%char] ++ ss ++ [sep] ++ ms ++ r) = Some ((mm, ss, ms), r).
Proof.
  intros L2 L3 L4 D2 D3 D4 Hsep. unfold match_short.
  rewrite <- L2 at 1. rewrite take_digits_app by done. cbn [app expect].
  change (is_colon ":") with true. cbv iota.
  rewrite <- L3 at 1. rewrite take_digits_app by done. cbn [app expect].
  rewrite Hsep.
  rewrite <- L4 at 1. by rewrite take_digits_app.
Qed.

Lemma is_sep_not_colon (c : ascii) : is_sep c = true -> is_colon c = false.
Proof.
  unfold is_sep, is_colon. intros H. apply orb_true_iff in H as [H|H];
    apply Ascii.eqb_eq in H; by subst.
Qed.

(** The full pattern does not match the short form: it wants a colon where
    the short form has its separator. *)
Lemma match_full_short (mm ss ms : str) (sep : ascii) (r : str) :
  length mm = 2%nat -> length ss = 2%nat ->
  Forall (fun c => is_digit c = true) mm -> Forall (fun c => is_digit c = true) ss ->
  is_sep sep = true ->
  match_full (mm ++ [":"%char] ++ ss ++ [sep] ++ ms ++ r) = None.
Proof.
  intros L2 L3 D2 D3 Hsep. unfold match_full.
  rewrite <- L2 at 1. rewrite take_digits_app by done. cbn [app expect].
  change (is_colon ":") with true. cbv iota.
  rewrite <- L3 at 1. rewrite take_digits_app by done. cbn [app expect].
  by rewrite (is_sep_not_colon sep Hsep).
Qed.

Lemma digits_strip (a b : str) (r : str) :
  a <> [] -> Forall (fun c => is_digit c = true) a ->
  b <> [] -> Forall (fun c => is_digit c = true) b ->
  strip (a ++ r ++ b) = a ++ r ++ b.
Proof.
  intros Na Da Nb Db. destruct a as [|x a]; [done|].
  destruct (last b) as [z|] eqn:Hz; [|by apply last_None in Hz].
  apply (strip_id _ x z).
  - done.
  - apply is_digit_not_space. exact (Forall_inv Da).
  - by rewrite !last_app, Hz.
  - apply is_digit_not_space. rewrite Forall_forall in Db. apply Db.
    by eapply last_Some_elem_of.
Qed.

(** The decoders read the fields as they stand, with no check that minutes
    and seconds are below 60: any two digits are taken.  The secondary
    decoder also reads the short form without hours; the primary decoder
    answers 0 for it. *)
Theorem decoders_read_fields (h m s l : Z) (sep : ascii) :
  0 <= h < 100 -> 0 <= m < 100 -> 0 <= s < 100 -> 0 <= l < 1000 ->
  is_sep sep = true ->
  let full := fmt_d 2 h ++ [":"%char] ++ fmt_d 2 m ++ [":"%char] ++ fmt_d 2 s
                ++ [sep] ++ fmt_d 3 l in
  let short := fmt_d 2 m ++ [":"%char] ++ fmt_d 2 s ++ [sep] ++ fmt_d 3 l in
  parse_timestamp_srt full = Ok (inject_Z (h * 3600 + m * 60 + s) + inject_Z l / 1000)%Q
  /\ parse_timestamp_vtt full
     = Ok (inject_Z (h * 3600 + m * 60 + s) + inject_Z l / 1000)%Q
  /\ parse_timestamp_vtt short = Ok (inject_Z (m * 60 + s) + inject_Z l / 1000)%Q
  /\ parse_timestamp_srt short = Ok 0%Q.
Proof.
  intros Hh Hm Hs Hl Hsep. cbv zeta.
  destruct (prints_width_spec 2 _ (fmt_d_2 h Hh)) as (L1 & D1 & P1).
  destruct (prints_width_spec 2 _ (fmt_d_2 m Hm)) as (L2 & D2 & P2).
  destruct (prints_width_spec 2 _ (fmt_d_2 s Hs)) as (L3 & D3 & P3).
  destruct (prints_width_spec 3 _ (fmt_d_3 l Hl)) as (L4 & D4 & P4).
  set (hh := fmt_d 2 h) in *. set (mm := fmt_d 2 m) in *.
  set (ss := fmt_d 2 s) in *. set (ms := fmt_d 3 l) in *.
  assert (hh <> []) as N1 by (by destruct hh).
  assert (mm <> []) as N2 by (by destruct mm).
  assert (ms <> []) as N4 by (by destruct ms).
  assert (S1 : strip (hh ++ [":"%char] ++ mm ++ [":"%char] ++ ss ++ [sep] ++ ms)
               = hh ++ [":"%char] ++ mm ++ [":"%char] ++ ss ++ [sep] ++ ms).
  { pose proof (digits_strip hh ms ([":"%char] ++ mm ++ [":"%char] ++ ss ++ [sep])
                  N1 D1 N4 D4) as H.
    by rewrite <- !(assoc_L (++)) in H. }
  assert (S2 : strip (mm ++ [":"%char] ++ ss ++ [sep] ++ ms)
               = mm ++ [":"%char] ++ ss ++ [sep] ++ ms).
  { pose proof (digits_strip mm ms ([":"%char] ++ ss ++ [sep]) N2 D2 N4 D4) as H.
    by rewrite <- !(assoc_L (++)) in H. }
  assert (M1 : match_full (hh ++ [":"%char] ++ mm ++ [":"%char] ++ ss ++ [sep] ++ ms)
               = Some ((hh, mm, ss, ms), [])).
  { rewrite <- (app_nil_r ms) at 1. by apply match_full_ok. }
  assert (M2 : match_full (mm ++ [":"%char] ++ ss ++ [sep] ++ ms) = None).
  { rewrite <- (app_nil_r ms). by apply match_full_short. }
  assert (M3 : match_short (mm ++ [":"%char] ++ ss ++ [sep] ++ ms)
               = Some ((mm, ss, ms), [])).
  { rewrite <- (app_nil_r ms) at 1. by apply match_short_ok. }
  unfold parse_timestamp_srt, parse_timestamp_vtt.
  rewrite S1, S2, M1, M2, M3, P1, P2, P3, P4. done.
Qed.

Lemma decoders_read_fields_witness :
  parse_timestamp_srt (lit "00:99:99,999")
  = Ok (inject_Z (0 * 3600 + 99 * 60 + 99) + inject_Z 999 / 1000)%Q
  /\ parse_timestamp_vtt (lit "00:99:99,999")
     = Ok (inject_Z (0 * 3600 + 99 * 60 + 99) + inject_Z 999 / 1000)%Q
  /\ parse_timestamp_vtt (lit "99:99,999")
     = Ok (inject_Z (99 * 60 + 99) + inject_Z 999 / 1000)%Q
  /\ parse_timestamp_srt (lit "99:99,999") = Ok 0%Q.
Proof.
  apply (decoders_read_fields 0 99 99 999 ","%char); try lia. reflexivity.
Defined.

(** ** What the parsers return *)

(** A parsed segment: numbered, without [original], with a stripped text
    and times in the range of the decoders. *)
Lemma parse_srt_block_parsed (block : str) (p : seg) :
  parse_srt_block block = Ok (Some p) -> parsed_seg p.
Proof.
  unfold parse_srt_block. cbv zeta.
  destruct (length (split_on nl (strip block)) <? 3)%nat; [done|].
  destruct (getitem (split_on nl (strip block)) 0) as [l0| |]; try done. cbn [bind].
  destruct (py_int (strip l0)) as [i|[]|]; try done.
  destruct (getitem (split_on nl (strip block)) 1) as [l1| |]; try done. cbn [bind].
  destruct (match_time_srt (strip l1)) as [[g1 g2]|]; [|done].
  destruct (parse_timestamp_srt_range g1) as (q1 & -> & H1 & H1').
  destruct (parse_timestamp_srt_range g2) as (q2 & -> & H2 & H2').
  cbn [bind]. intros [= <-]. unfold parsed_seg. cbn [index original text start end_].
  split; [by eexists|]. split; [done|]. split; [apply strip_idemp|]. done.
Qed.

Lemma parse_vtt_block_parsed (i : Z) (block : str) (p : seg) :
  parse_vtt_block i block = Ok (Some p) -> parsed_seg p /\ index p = Some (i + 1).
Proof.
  unfold parse_vtt_block. cbv zeta.
  destruct (length (split_on nl (strip block)) =? 0)%nat; [done|].
  destruct (find_time_line 0 (split_on nl (strip block))) as [k|]; [|done].
  destruct (getitem (split_on nl (strip block)) (Z.of_nat k)) as [l| |]; try done.
  cbn [bind].
  destruct (match_time_vtt (strip l)) as [[g1 g2]|]; [|done].
  destruct (parse_timestamp_vtt_range g1) as (q1 & -> & H1 & H1').
  destruct (parse_timestamp_vtt_range g2) as (q2 & -> & H2 & H2').
  cbn [bind]. intros [= <-]. unfold parsed_seg. cbn [index original text start end_].
  split; [|done]. split; [by eexists|]. split; [done|]. split; [apply strip_idemp|]. done.
Qed.

Lemma parse_srt_blocks_parsed (blocks : list str) (segments : list seg) :
  parse_srt_blocks blocks = Ok segments -> Forall parsed_seg segments.
Proof.
  revert segments. induction blocks as [|b bs IH]; intros segments H.
  - injection H as <-. constructor.
  - cbn [parse_srt_blocks] in H.
    destruct (parse_srt_block b) as [r| |] eqn:Eb; try done. cbn [bind] in H.
    destruct (parse_srt_blocks bs) as [segs| |]; try done. cbn [bind] in H.
    injection H as <-. specialize (IH segs eq_refl).
    destruct r as [p|]; [|done]. constructor; [|done]. by eapply parse_srt_block_parsed.
Qed.

Lemma parse_vtt_blocks_parsed (i : Z) (blocks : list str) (segments : list seg) :
  parse_vtt_blocks i blocks = Ok segments ->
  Forall parsed_seg segments
  /\ index <$> segments
     = (fun k => Some (i + Z.of_nat k + 1)) <$> seq 0 (length segments).
Proof.
  revert i segments. induction blocks as [|b bs IH]; intros i segments H.
  - injection H as <-. split; [constructor|done].
  - cbn [parse_vtt_blocks] in H.
    destruct (parse_vtt_block i b) as [[p|]| |] eqn:Eb; try done; cbn [bind] in H.
    + destruct (parse_vtt_blocks (i + 1) bs) as [segs| |] eqn:Es; try done.
      cbn [bind] in H. injection H as <-.
      destruct (IH _ _ Es) as [Hp Hi]. destruct (parse_vtt_block_parsed _ _ _ Eb) as [Hp0 Hi0].
      split; [by constructor|].
      cbn [length seq]. rewrite !fmap_cons, Hi0, Hi. f_equal; [f_equal; lia|].
      rewrite <- seq_shift, <- list_fmap_compose. apply list_fmap_ext.
      intros _ k _. cbn. f_equal. lia.
    + by apply IH.
Qed.

Lemma parse_srt_block_numbered (block : str) (p : seg) :
  parse_srt_block block = Ok (Some p) -> numbered_by_block [block] p.
Proof.
  unfold parse_srt_block. cbv zeta. intros H.
  destruct (length (split_on nl (strip block)) <? 3)%nat; [done|].
  destruct (split_on nl (strip block)) as [|l0 rest] eqn:El; [done|].
  change (getitem (l0 :: rest) 0) with (Ok l0) in H. cbn [bind] in H.
  destruct (py_int (strip l0)) as [n|[]|] eqn:En; try done.
  destruct (getitem (l0 :: rest) 1) as [l1| |]; try done. cbn [bind] in H.
  destruct (match_time_srt (strip l1)) as [[g1 g2]|]; [|done].
  destruct (parse_timestamp_srt g1) as [q1| |]; try done. cbn [bind] in H.
  destruct (parse_timestamp_srt g2) as [q2| |]; try done. cbn [bind] in H.
  injection H as <-. exists block, l0, rest, n.
  split; [apply list_elem_of_here|]. done.
Qed.

Lemma parse_srt_blocks_numbered (blocks : list str) (segments : list seg) :
  parse_srt_blocks blocks = Ok segments -> Forall (numbered_by_block blocks) segments.
Proof.
  revert segments. induction blocks as [|b bs IH]; intros segments H.
  - injection H as <-. constructor.
  - cbn [parse_srt_blocks] in H.
    destruct (parse_srt_block b) as [r| |] eqn:Eb; try done. cbn [bind] in H.
    destruct (parse_srt_blocks bs) as [segs| |]; try done. cbn [bind] in H.
    injection H as <-. specialize (IH segs eq_refl).
    assert (Hrest : Forall (numbered_by_block (b :: bs)) segs).
    { eapply Forall_impl; [exact IH|]. intros p (block & l0 & rest & n & Hin & H).
      exists block, l0, rest, n. split; [by apply list_elem_of_further|done]. }
    destruct r as [p|]; [|done]. constructor; [|done].
    destruct (parse_srt_block_numbered _ _ Eb) as (block & l0 & rest & n & Hin & H).
    apply list_elem_of_singleton in Hin as ->.
    exists b, l0, rest, n. split; [apply list_elem_of_here|done].
Qed.

(** [parse_srt] returns on every content.  Every segment it returns is
    numbered by the integer of the first line of a block of the content,
    carries no [original], has a stripped text and has start and end from
    0 to below 362440 seconds.  Nothing orders start and end: a timing
    line that runs backwards is read as it is. *)
Theorem parse_srt_segments (content : str) :
  (exists segments,
     parse_srt content = Ok segments
     /\ Forall parsed_seg segments
     /\ Forall (numbered_by_block (re_split_blank (strip content))) segments)
  /\ (exists p, parse_srt backwards_block = Ok [p]
                /\ index p = Some 7 /\ (start p == 5)%Q /\ (end_ p == 1)%Q).
Proof.
  split.
  - destruct (parse_srt_blocks_total (re_split_blank (strip content))) as [segs H].
    exists segs. split; [exact H|]. split; [by eapply parse_srt_blocks_parsed|].
    by apply parse_srt_blocks_numbered.
  - eexists. split; [vm_compute; reflexivity|]. done.
Qed.

(** Every segment [parse_vtt] returns, for any content, is likewise well
    formed, and the segments are numbered 1..N by position: numbers in the
    file are not read. *)
Theorem parse_vtt_segments (content : str) :
  exists segments,
    parse_vtt content = Ok segments
    /\ Forall parsed_seg segments
    /\ index <$> segments = numbers 0 (length segments).
Proof.
  destruct (parse_vtt_blocks_total 0 (re_split_blank (strip (strip_header content))))
    as [segs H].
  exists segs. split; [exact H|].
  destruct (parse_vtt_blocks_parsed _ _ _ H) as [Hp Hi]. split; [done|].
  rewrite Hi. unfold numbers. apply list_fmap_ext. intros _ k _. f_equal.
Qed.

(** ** The editing operations at their bounds *)

Lemma getitem_wrap {A} (l : list A) (k : Z) :
  k < 0 -> - Z.of_nat (length l) <= k -> getitem l k = getitem l (k + Z.of_nat (length l)).
Proof.
  intros H1 H2. unfold getitem. cbv zeta.
  assert (E1 : (k <? 0) = true) by lia.
  assert (E2 : (k + Z.of_nat (length l) <? 0) = false) by lia.
  by rewrite E1, !E2.
Qed.

Lemma getitem_too_small {A} (l : list A) (k : Z) :
  k < - Z.of_nat (length l) -> getitem l k = Raise IndexError.
Proof.
  intros H. unfold getitem. cbv zeta.
  assert (E1 : (k <? 0) = true) by lia.
  assert (E2 : (k + Z.of_nat (length l) <? 0) = true) by lia.
  by rewrite E1, E2.
Qed.

Lemma nondecreasing_head_least (l : list Z) (lo : Z) :
  StronglySorted Z.le l -> head l = Some lo -> forall z, z ∈ l -> lo <= z.
Proof.
  intros Hs Hh z Hz. destruct l as [|x xs]; [done|]. injection Hh as ->.
  apply StronglySorted_inv in Hs as [_ Hx]. rewrite Forall_forall in Hx.
  apply elem_of_cons in Hz as [->|Hz]; [lia|]. by apply Hx.
Qed.

(** Reading through an index that may count from the end. *)
Lemma read_wrap h segments vs (z : Z) :
  read_all h segments = Some vs ->
  - Z.of_nat (length vs) <= z < Z.of_nat (length vs) ->
  exists l s, getitem segments z = Ok l /\ deref h l = Ok s.
Proof.
  intros Hr Hz. pose proof (read_all_length _ _ _ Hr) as Hlen.
  destruct (Z.ltb_spec z 0) as [Hneg|Hpos].
  - destruct (read_at h segments vs (z + Z.of_nat (length vs)) Hr ltac:(lia))
      as (l & s & _ & _ & _ & Hg & Hd).
    exists l, s. split; [|done]. rewrite getitem_wrap by lia. by rewrite <- Hlen.
  - destruct (read_at h segments vs z Hr ltac:(lia)) as (l & s & _ & _ & _ & Hg & Hd).
    by exists l, s.
Qed.

(** A merge of at least two indices raises [IndexError] as soon as one of
    them lies outside the range [-len .. len - 1] of Python's indexing. *)
Theorem merge_segments_index_error h segments vs indices (z : Z) :
  read_all h segments = Some vs -> (2 <= length indices)%nat ->
  z ∈ indices ->
  z < - Z.of_nat (length segments) \/ Z.of_nat (length segments) <= z ->
  merge_segments h segments indices = Raise IndexError.
Proof.
  intros Hr Hlen Hz [Hsmall|Hbig]; [|by eapply merge_segments_raises].
  unfold merge_segments.
  destruct (Nat.ltb_spec (length indices) 2) as [?|_]; [lia|]. cbv zeta.
  pose proof (sorted_perm indices) as Hp.
  assert (Hz' : z ∈ sorted indices) by (by rewrite Hp).
  pose proof (sorted_le indices) as Hs.
  destruct (sorted indices) as [|lo rest] eqn:E; [by apply elem_of_nil in Hz'|].
  rewrite (getitem_ok (lo :: rest) 0 lo) by (done || lia). cbn [bind].
  pose proof (nondecreasing_head_least _ lo Hs eq_refl z Hz') as Hlo.
  by rewrite (getitem_too_small segments lo) by lia.
Qed.

Lemma merge_segments_index_error_witness :
  merge_segments sample_store sample_segments [1; -4] = Raise IndexError.
Proof.
  apply (merge_segments_index_error sample_store sample_segments sample_store [1; -4] (-4)).
  - reflexivity.
  - simpl. lia.
  - apply elem_of_cons. right. apply elem_of_cons. by left.
  - left. simpl. lia.
Defined.

(** A merge whose indices all lie in [-len .. len - 1], one of them
    negative, builds no merged segment: the loop compares positions with
    the least index, which no position equals.  The result is the input
    without the segments at the selected non-negative positions, and no
    dict is created. *)
Theorem merge_segments_negative_index h segments vs indices (z : Z) :
  read_all h segments = Some vs -> (2 <= length indices)%nat ->
  Forall (fun i => - Z.of_nat (length vs) <= i < Z.of_nat (length vs)) indices ->
  z ∈ indices -> z < 0 ->
  exists h' vs',
    merge_segments h segments indices = Ok (non_selected indices 0 segments, h')
    /\ length h' = length h
    /\ read_all h' (non_selected indices 0 segments) = Some vs'
    /\ content <$> vs' = content <$> non_selected indices 0 vs.
Proof.
  intros Hr Hlen Hrange Hz Hneg.
  pose proof (sorted_perm indices) as Hp.
  pose proof (sorted_le indices) as Hs.
  assert (Hrange' : Forall (fun i => - Z.of_nat (length vs) <= i < Z.of_nat (length vs))
                           (sorted indices)) by (by rewrite Hp).
  assert (Hz' : z ∈ sorted indices) by (by rewrite Hp).
  assert (Hmem : forall i, i ∈ sorted indices <-> i ∈ indices)
    by (intros i; by rewrite Hp).
  assert (Hread : read_all h (non_selected indices 0 segments)
                  = Some (non_selected indices 0 vs)).
  { apply read_all_spec. apply non_selected_Forall2. by apply read_all_spec. }
  destruct (read_all_renumber_content h 0 (non_selected indices 0 segments) _ _ Hread)
    as (vs' & Hvs' & Hc).
  exists (renumber h 0 (non_selected indices 0 segments)), vs'.
  split; [|split; [apply renumber_length|done]].
  unfold merge_segments.
  destruct (Nat.ltb_spec (length indices) 2) as [?|_]; [lia|]. cbv zeta.
  destruct (sorted indices) as [|lo rest] eqn:E; [by apply elem_of_nil in Hz'|].
  destruct (last (lo :: rest)) as [hi|] eqn:Ehi; [|by apply last_None in Ehi].
  assert (Hlo : lo ∈ lo :: rest) by (apply elem_of_cons; by left).
  assert (Hhi : hi ∈ lo :: rest).
  { apply list_elem_of_lookup. exists (Nat.pred (length (lo :: rest))).
    by rewrite <- last_lookup. }
  pose proof (nondecreasing_head_least _ lo Hs eq_refl z Hz') as Hlo_le.
  rewrite Forall_forall in Hrange'.
  destruct (read_wrap _ _ _ lo Hr (Hrange' _ Hlo)) as (l0 & s0 & Hg0 & Hd0).
  destruct (read_wrap _ _ _ hi Hr (Hrange' _ Hhi)) as (l1 & s1 & Hg1 & Hd1).
  assert (exists texts,
    mapO (fun i => l <- getitem segments i ;; s <- deref h l ;; Ok (text s))
         (lo :: rest) = Ok texts) as (texts & HmapO).
  { clear -Hrange' Hr. induction (lo :: rest) as [|i zs IH].
    - by exists [].
    - destruct IH as (ts & H2).
      { intros x Hx. apply Hrange'. apply elem_of_cons. by right. }
      destruct (read_wrap _ _ _ i Hr) as (l & s & Hg & Hd).
      { apply Hrange'. apply elem_of_cons. by left. }
      exists (text s :: ts). simpl. rewrite Hg. simpl. rewrite Hd. simpl. by rewrite H2. }
  rewrite (getitem_ok (lo :: rest) 0 lo) by (done || lia). cbn [bind].
  rewrite Hg0. cbn [bind]. rewrite Hd0. cbn [bind].
  rewrite (getitem_last (lo :: rest) hi Ehi). cbn [bind].
  rewrite Hg1. cbn [bind]. rewrite Hd1. cbn [bind].
  rewrite HmapO. cbn [bind].
  rewrite merge_build_after by (simpl; lia).
  by rewrite !(non_selected_ext (lo :: rest) indices) by done.
Qed.

Lemma merge_segments_negative_index_witness :
  exists h' vs',
    merge_segments sample_store sample_segments [-1; 0]
    = Ok (non_selected [-1; 0] 0 sample_segments, h')
    /\ length h' = length sample_store
    /\ read_all h' (non_selected [-1; 0] 0 sample_segments) = Some vs'
    /\ content <$> vs' = content <$> non_selected [-1; 0] 0 sample_store.
Proof.
  apply (merge_segments_negative_index sample_store sample_segments sample_store
           [-1; 0] (-1)).
  - reflexivity.
  - simpl. lia.
  - repeat constructor; simpl; lia.
  - apply elem_of_cons. by left.
  - lia.
Defined.

(** [split_segment] returns the very sequence it was given, the store
    untouched, exactly when the index is out of range or the split time is
    not strictly inside the span of the segment; in every other case it
    returns a sequence that is one segment longer. *)
Theorem split_segment_unchanged_iff h segments vs (index : Z) (t : Q) :
  read_all h segments = Some vs ->
  (split_segment h segments index t = Ok (segments, h)
   <-> (index < 0 \/ Z.of_nat (length segments) <= index
        \/ exists s, vs !! Z.to_nat index = Some s
                     /\ ((t <= start s)%Q \/ (end_ s <= t)%Q)))
  /\ (~ (index < 0 \/ Z.of_nat (length segments) <= index
         \/ exists s, vs !! Z.to_nat index = Some s
                      /\ ((t <= start s)%Q \/ (end_ s <= t)%Q)) ->
      exists result h',
        split_segment h segments index t = Ok (result, h')
        /\ length result = S (length segments)).
Proof.
  intros Hr. pose proof (read_all_length _ _ _ Hr) as Hlen.
  assert (Hin : 0 <= index < Z.of_nat (length segments) ->
                forall s, vs !! Z.to_nat index = Some s ->
                (start s < t)%Q -> (t < end_ s)%Q ->
                exists result h',
                  split_segment h segments index t = Ok (result, h')
                  /\ length result = S (length segments)).
  { intros Hi s Hs H1 H2.
    destruct (split_segment_ok h segments vs (Z.to_nat index) s t Hr Hs H1 H2) as [E _].
    cbv zeta in E. rewrite Z2Nat.id in E by lia.
    eexists _, _. split; [exact E|].
    rewrite length_app, length_take. cbn [length]. rewrite length_drop. lia. }
  split; [split|].
  - intros H.
    destruct (Z.ltb_spec index 0) as [?|Hpos]; [by left|].
    destruct (Z.leb_spec (Z.of_nat (length segments)) index) as [?|Hlt]; [right; by left|].
    right. right.
    destruct (lookup_lt_is_Some_2 vs (Z.to_nat index)) as [s Hs]; [lia|].
    exists s. split; [done|].
    destruct (Qlt_le_dec (start s) t) as [H1|H1]; [|by left].
    destruct (Qlt_le_dec t (end_ s)) as [H2|H2]; [|by right].
    exfalso. destruct (Hin ltac:(lia) s Hs H1 H2) as (result & h' & E & Hl).
    rewrite E in H. injection H as -> _. lia.
  - intros [H|[H|(s & Hs & H)]].
    + apply split_segment_out_of_range. by left.
    + apply split_segment_out_of_range. by right.
    + destruct (Z.ltb_spec index 0) as [?|Hpos];
        [apply split_segment_out_of_range; by left|].
      rewrite <- (Z2Nat.id index) by lia.
      by eapply split_segment_outside_span.
  - intros Hn.
    destruct (Z.ltb_spec index 0) as [?|Hpos]; [exfalso; apply Hn; by left|].
    destruct (Z.leb_spec (Z.of_nat (length segments)) index) as [?|Hlt];
      [exfalso; apply Hn; right; by left|].
    destruct (lookup_lt_is_Some_2 vs (Z.to_nat index)) as [s Hs]; [lia|].
    destruct (Qlt_le_dec (start s) t) as [H1|H1];
      [|exfalso; apply Hn; right; right; exists s; split; [done|by left]].
    destruct (Qlt_le_dec t (end_ s)) as [H2|H2];
      [|exfalso; apply Hn; right; right; exists s; split; [done|by right]].
    by apply (Hin ltac:(lia) s).
Qed.

Lemma split_segment_unchanged_iff_witness :
  split_segment sample_store sample_segments 1 5 = Ok (sample_segments, sample_store)
  /\ exists result h',
       split_segment sample_store sample_segments 1 4 = Ok (result, h')
       /\ length result = 4%nat.
Proof.
  split.
  - apply (split_segment_unchanged_iff sample_store sample_segments sample_store 1 5).
    + reflexivity.
    + right. right. exists seg_b. split; [reflexivity|]. right. vm_compute. discriminate.
  - apply (split_segment_unchanged_iff sample_store sample_segments sample_store 1 4).
    + reflexivity.
    + intros [H|[H|(s & Hs & H)]]; [lia|simpl in H; lia|].
      injection Hs as <-. destruct H as [H|H]; vm_compute in H; by apply H.
Defined.

(** ** What the editing operations leave alone *)

Lemma merge_build_grows h i segments first ixs merged :
  exists ws, snd (merge_build h i segments first ixs merged) = h ++ ws.
Proof.
  revert h i. induction segments as [|l rest IH]; intros h i; cbn [merge_build].
  - exists []. by rewrite app_nil_r.
  - destruct (Z.of_nat i =? first).
    + unfold alloc. destruct (IH (h ++ [merged]) (S i)) as [ws Hws].
      destruct (merge_build (h ++ [merged]) (S i) rest first ixs merged) as [r h2].
      cbn [snd] in *. exists (merged :: ws). by rewrite Hws, <- (assoc_L (++)).
    + destruct (IH h (S i)) as [ws Hws].
      destruct (bool_decide _); [done|].
      destruct (merge_build h (S i) rest first ixs merged) as [r h2].
      cbn [snd] in *. by exists ws.
Qed.

Lemma renumber_keeps h ws i ls : keeps_contents h (renumber (h ++ ws) i ls).
Proof.
  split.
  - rewrite renumber_length, length_app. lia.
  - intros l Hl. rewrite renumber_content. by rewrite lookup_app_l.
Qed.

(** A merge and a split never remove a dict from the store and never
    change the times, the text or the [original] of a dict that was there:
    on existing dicts they write nothing but the number. *)
Theorem merge_and_split_keep_contents h segments result h' :
  (exists indices, merge_segments h segments indices = Ok (result, h'))
  \/ (exists index t, split_segment h segments index t = Ok (result, h')) ->
  keeps_contents h h'.
Proof.
  assert (Hrefl : keeps_contents h h) by (split; [lia|done]).
  intros [[indices H]|(index & t & H)].
  - unfold merge_segments in H.
    destruct (length indices <? 2)%nat; [by injection H as _ <-|]. cbv zeta in H.
    destruct (getitem (sorted indices) 0) as [i0| |]; try done. cbn [bind] in H.
    destruct (getitem segments i0) as [l0| |]; try done. cbn [bind] in H.
    destruct (deref h l0) as [s0| |]; try done. cbn [bind] in H.
    destruct (getitem (sorted indices) (-1)) as [i1| |]; try done. cbn [bind] in H.
    destruct (getitem segments i1) as [l1| |]; try done. cbn [bind] in H.
    destruct (deref h l1) as [s1| |]; try done. cbn [bind] in H.
    destruct (mapO _ (sorted indices)) as [texts| |]; try done. cbn [bind] in H.
    match type of H with
    | context [merge_build h 0 segments i0 ?ix ?m] =>
        destruct (merge_build_grows h 0 segments i0 ix m) as [ws Hws];
        destruct (merge_build h 0 segments i0 ix m) as [r h1]
    end.
    cbn [snd] in Hws. subst h1. injection H as _ <-. apply renumber_keeps.
  - unfold split_segment in H.
    destruct (_ || _); [by injection H as _ <-|].
    destruct (getitem segments index) as [l| |]; try done. cbn [bind] in H.
    destruct (deref h l) as [s| |]; try done. cbn [bind] in H.
    destruct (_ || _); [by injection H as _ <-|].
    unfold alloc in H. cbv zeta in H. injection H as _ <-.
    rewrite <- (assoc_L (++)). apply renumber_keeps.
Qed.

Lemma merge_and_split_keep_contents_witness :
  exists result h',
    merge_segments sample_store sample_segments [0; 1] = Ok (result, h')
    /\ keeps_contents sample_store h'.
Proof.
  eexists _, _. split; [vm_compute; reflexivity|].
  eapply (merge_and_split_keep_contents sample_store sample_segments).
  left. exists [0; 1]. vm_compute. reflexivity.
Defined.

(** ** The single-segment shift *)

(** A shift of a valid index returns a sequence that differs from the
    input at that position only, and there in the times only.  The new
    start is never negative and the new end is at least a tenth of a
    second after it; when the shifted start is not negative it is taken as
    it is, and so is the shifted end when it leaves that tenth of a
    second. *)
Theorem adjust_timing_result h segments vs (i : nat) s (start_delta end_delta : Q) :
  read_all h segments = Some vs -> vs !! i = Some s ->
  exists result h' s',
    adjust_timing h segments (Z.of_nat i) start_delta end_delta = Ok (result, h')
    /\ read_all h' result = Some (<[i := s']> vs)
    /\ index s' = index s /\ text s' = text s /\ original s' = original s
    /\ (0 <= start s')%Q /\ (start s' + (1 # 10) <= end_ s')%Q
    /\ ((0 <= start s + start_delta)%Q -> (start s' == start s + start_delta)%Q)
    /\ ((start s + start_delta <= 0)%Q -> (start s' == 0)%Q)
    /\ ((start s' + (1 # 10) <= end_ s + end_delta)%Q ->
        (end_ s' == end_ s + end_delta)%Q)
    /\ ((end_ s + end_delta <= start s' + (1 # 10))%Q ->
        (end_ s' == start s' + (1 # 10))%Q).
Proof.
  intros Hr Hs.
  destruct (adjust_timing_ok h segments vs i s start_delta end_delta Hr Hs) as [Ha Hread].
  cbv zeta in Ha, Hread. eexists _, _, _.
  split; [exact Ha|]. split; [exact Hread|].
  cbn [index text original start end_ set_times].
  split; [done|]. split; [done|]. split; [done|].
  split; [apply py_max_l|]. split; [apply py_max_l|].
  set (ns := py_max 0 (start s + start_delta)).
  split; [|split; [|split]].
  - unfold ns, py_max. destruct (Qlt_le_dec _ _); lra.
  - unfold ns, py_max. destruct (Qlt_le_dec _ _); lra.
  - unfold py_max at 1. destruct (Qlt_le_dec _ _); lra.
  - unfold py_max at 1. destruct (Qlt_le_dec _ _); lra.
Qed.

Lemma adjust_timing_result_witness :
  exists result h' s',
    adjust_timing sample_store sample_segments 1 (-5) (-5) = Ok (result, h')
    /\ read_all h' result = Some (<[1%nat := s']> sample_store)
    /\ (start s' == 0)%Q /\ (end_ s' == 1 # 10)%Q.
Proof.
  destruct (adjust_timing_result sample_store sample_segments sample_store 1 seg_b (-5) (-5))
    as (result & h' & s' & Ha & Hread & _ & _ & _ & _ & _ & _ & H0 & _ & H1);
    [reflexivity|reflexivity|].
  exists result, h', s'. split; [exact Ha|]. split; [exact Hread|].
  assert (start s' == 0)%Q as Hs by (apply H0; vm_compute; discriminate).
  split; [exact Hs|]. rewrite H1; [by rewrite Hs|].
  rewrite Hs. vm_compute. discriminate.
Defined.

(** A shift works on copies: the store keeps every dict it had, so the
    input sequence reads as before, and the returned sequence consists of
    fresh, pairwise distinct dicts, none of them shared with the input. *)
Theorem adjust_timing_copies h segments vs (i : nat) s (start_delta end_delta : Q) :
  read_all h segments = Some vs -> vs !! i = Some s ->
  exists result h',
    adjust_timing h segments (Z.of_nat i) start_delta end_delta = Ok (result, h')
    /\ take (length h) h' = h
    /\ read_all h' segments = Some vs
    /\ length result = length segments
    /\ NoDup result
    /\ forall l, l ∈ result -> l ∉ segments.
Proof.
  intros Hr Hs.
  destruct (adjust_timing_ok h segments vs i s start_delta end_delta Hr Hs) as [H _].
  cbv zeta in H. eexists _, _. split; [exact H|].
  split; [by rewrite take_app_length|]. split; [by apply read_all_grow|].
  split; [rewrite length_seq; by eapply read_all_length|].
  split; [apply NoDup_seq|].
  intros l Hl Hin. apply elem_of_seq in Hl.
  pose proof (read_all_wf _ _ _ Hr) as Hwf. unfold wf in Hwf.
  rewrite Forall_forall in Hwf. specialize (Hwf _ Hin). lia.
Qed.

Lemma adjust_timing_copies_witness :
  exists result h',
    adjust_timing sample_store sample_segments 0 1 1 = Ok (result, h')
    /\ take (length sample_store) h' = sample_store
    /\ read_all h' sample_segments = Some sample_store
    /\ length result = length sample_segments
    /\ NoDup result
    /\ forall l, l ∈ result -> l ∉ sample_segments.
Proof.
  apply (adjust_timing_copies sample_store sample_segments sample_store 0 seg_a 1 1);
    reflexivity.
Defined.

(** ** The global shift of the editor page *)

(** On a sequence of distinct dicts a non-zero global shift rewrites every
    dict of the sequence in place and no other dict of the store: numbers,
    texts and [original] stay, every new start is the shifted start
    floored at 0 and every new end the shifted end floored at a tenth of a
    second.  A shift by zero does nothing. *)
Theorem global_shift_result h segments vs (d : Q) :
  read_all h segments = Some vs -> NoDup segments ->
  exists h',
    global_shift h segments d = Ok h'
    /\ length h' = length h
    /\ (forall l, l ∉ segments -> h' !! l = h !! l)
    /\ ((d == 0)%Q -> h' = h)
    /\ (~ (d == 0)%Q ->
        read_all h' segments = Some (shifted d <$> vs)
        /\ Forall (fun s => (0 <= start s)%Q /\ (1 # 10 <= end_ s)%Q) (shifted d <$> vs)).
Proof.
  intros Hr Hnd.
  destruct (Qeq_dec d 0) as [Hd|Hd].
  - exists h. unfold global_shift.
    assert (Qeq_bool d 0 = true) as -> by (by apply Qeq_bool_iff).
    split; [done|]. split; [done|]. split; [done|]. split; [done|]. done.
  - destruct (global_shift_times h segments vs d Hr Hnd Hd) as (h' & Hg & Hread).
    exists h'. split; [done|].
    assert (Hs : shift_each h segments d = Ok h').
    { unfold global_shift in Hg. destruct (Qeq_bool d 0) eqn:E; [|done].
      by apply Qeq_bool_iff in E. }
    split.
    { clear -Hs. revert h Hs. induction segments as [|l rest IH]; intros h Hs.
      - by injection Hs as <-.
      - cbn [shift_each] in Hs. unfold deref in Hs.
        destruct (h !! l) as [s|] eqn:E; [|done]. cbn [bind] in Hs.
        rewrite list_lookup_insert_eq in Hs by (by eapply lookup_lt_Some).
        cbn [bind] in Hs. apply IH in Hs. by rewrite !length_insert in Hs. }
    split; [intros l Hl; by eapply shift_each_notin|].
    split; [done|]. intros _. split; [done|].
    apply Forall_fmap, Forall_forall. intros s _. cbn [start end_ shifted set_times].
    split; apply py_max_l.
Qed.

Lemma global_shift_result_witness :
  exists h',
    global_shift sample_store sample_segments (-2) = Ok h'
    /\ read_all h' sample_segments = Some (shifted (-2) <$> sample_store).
Proof.
  destruct (global_shift_result sample_store sample_segments sample_store (-2))
    as (h' & Hg & _ & _ & _ & Hs).
  - reflexivity.
  - apply (bool_decide_unpack (NoDup [0; 1; 2]%nat)). vm_compute. exact I.
  - exists h'. split; [exact Hg|]. apply Hs. vm_compute. discriminate.
Defined.

Lemma shifted_back (d : Q) (s : seg) :
  (0 <= start s)%Q -> (0 <= start s + d)%Q ->
  (1 # 10 <= end_ s)%Q -> (1 # 10 <= end_ s + d)%Q ->
  (start (shifted (- d) (shifted d s)) == start s)%Q
  /\ (end_ (shifted (- d) (shifted d s)) == end_ s)%Q.
Proof.
  intros H1 H2 H3 H4. cbn [shifted start end_ set_times]. unfold py_max.
  split; repeat destruct (Qlt_le_dec _ _); lra.
Qed.

(** A global shift followed by the opposite shift gives every segment its
    times back, provided neither the segment nor its shifted image is cut
    by the floors: starts at or after 0 and ends at or after a tenth of a
    second, before and after the first shift.  The times come back up to
    the rounding of the two additions: with times and a shift below 100
    hours, which is what the bounds are for, less than a microsecond. *)
Theorem global_shift_and_back h segments vs (d : Q) :
  read_all h segments = Some vs -> NoDup segments -> ~ (d == 0)%Q ->
  (- (360000) < d)%Q -> (d < 360000)%Q ->
  Forall (fun s => (0 <= start s)%Q /\ (0 <= start s + d)%Q /\ (start s < 360000)%Q
                   /\ (1 # 10 <= end_ s)%Q /\ (1 # 10 <= end_ s + d)%Q
                   /\ (end_ s < 360000)%Q) vs ->
  exists h1 h2 vs2,
    global_shift h segments d = Ok h1
    /\ global_shift h1 segments (- d) = Ok h2
    /\ read_all h2 segments = Some vs2
    /\ Forall2 (fun s s2 => index s2 = index s /\ text s2 = text s
                            /\ original s2 = original s
                            /\ within_us (start s) (start s2)
                            /\ within_us (end_ s) (end_ s2)) vs vs2.
Proof.
  intros Hr Hnd Hd _ _ Hin.
  destruct (global_shift_times h segments vs d Hr Hnd Hd) as (h1 & Hg1 & Hr1).
  assert (Hd' : ~ (- d == 0)%Q) by (intros E; apply Hd; lra).
  destruct (global_shift_times h1 segments _ (- d) Hr1 Hnd Hd') as (h2 & Hg2 & Hr2).
  exists h1, h2, (shifted (- d) <$> (shifted d <$> vs)).
  split; [done|]. split; [done|]. split; [exact Hr2|].
  rewrite <- list_fmap_compose. apply Forall2_fmap_r, Forall_Forall2_diag.
  eapply Forall_impl; [exact Hin|]. intros s (H1 & H2 & _ & H3 & H4 & _). cbn [compose].
  split; [done|]. split; [done|]. split; [done|].
  destruct (shifted_back d s H1 H2 H3 H4) as [E1 E2]. unfold within_us. split; lra.
Qed.

Lemma global_shift_and_back_witness :
  exists h1 h2 vs2,
    global_shift sample_store sample_segments (-1) = Ok h1
    /\ global_shift h1 sample_segments (- -1) = Ok h2
    /\ read_all h2 sample_segments = Some vs2
    /\ Forall2 (fun s s2 => index s2 = index s /\ text s2 = text s
                            /\ original s2 = original s
                            /\ within_us (start s) (start s2)
                            /\ within_us (end_ s) (end_ s2))
               sample_store vs2.
Proof.
  apply (global_shift_and_back sample_store sample_segments sample_store (-1)).
  - reflexivity.
  - apply (bool_decide_unpack (NoDup [0; 1; 2]%nat)). vm_compute. exact I.
  - vm_compute. discriminate.
  - reflexivity.
  - reflexivity.
  - repeat constructor; vm_compute; discriminate.
Defined.

(** ** A split undone by a merge *)

(** Positions above every selected index are kept. *)
Lemma non_selected_above {A} (ixs : list Z) (i : nat) (xs : list A) :
  (forall z, z ∈ ixs -> z < Z.of_nat i) -> non_selected ixs i xs = xs.
Proof.
  revert i. induction xs as [|x xs IH]; intros i Hhi; cbn [non_selected]; [done|].
  rewrite bool_decide_eq_false_2.
  - rewrite IH; [done|]. intros z Hz. specialize (Hhi z Hz). lia.
  - intros Hi. specialize (Hhi _ Hi). lia.
Qed.



(** ** The merge button of the editor page *)

Lemma py_range_nat (lo hi : nat) :
  py_range (Z.of_nat lo) (Z.of_nat hi) = Z.of_nat <$> seq lo (hi - lo).
Proof.
  unfold py_range. replace (Z.to_nat (Z.of_nat hi - Z.of_nat lo)) with (hi - lo)%nat by lia.
  assert (forall n j, (fun k => Z.of_nat lo + Z.of_nat k) <$> seq j n
                      = Z.of_nat <$> seq (lo + j) n) as H.
  { induction n as [|n IH]; intros j; [done|].
    cbn [seq]. rewrite !fmap_cons, IH. f_equal; [lia|].
    by replace (lo + S j)%nat with (S (lo + j)) by lia. }
  by rewrite H, Nat.add_0_r.
Qed.

Lemma range_ascending (lo n : nat) : StronglySorted Z.le (Z.of_nat <$> seq lo n).
Proof.
  revert lo. induction n as [|n IH]; intros lo; [constructor|].
  cbn [seq fmap list_fmap]. constructor; [apply IH|].
  apply Forall_fmap, Forall_forall. intros k Hk. apply elem_of_seq in Hk. cbn. lia.
Qed.

Lemma sorted_range (lo n : nat) :
  sorted (Z.of_nat <$> seq lo n) = Z.of_nat <$> seq lo n.
Proof.
  apply (StronglySorted_unique Z.le);
    [apply sorted_le|apply range_ascending|apply sorted_perm].
Qed.

(** Of a run of positions, what is left from position [i] on is what
    follows the run. *)
Lemma non_selected_range {A} (lo n i : nat) (xs : list A) :
  (lo <= i <= lo + n)%nat ->
  non_selected (Z.of_nat <$> seq lo n) i xs = drop (lo + n - i) xs.
Proof.
  revert i. induction xs as [|x xs IH]; intros i Hi; cbn [non_selected].
  - by rewrite drop_nil.
  - destruct (decide (i < lo + n)%nat) as [Hlt|Hge].
    + rewrite bool_decide_eq_true_2.
      * rewrite IH by lia. by replace (lo + n - i)%nat with (S (lo + n - S i)) by lia.
      * apply list_elem_of_fmap. exists i. split; [done|]. apply elem_of_seq. lia.
    + rewrite bool_decide_eq_false_2.
      * replace (lo + n - i)%nat with 0%nat by lia. cbn [drop]. f_equal.
        apply non_selected_above. intros z Hz.
        apply list_elem_of_fmap in Hz as (k & -> & Hk). apply elem_of_seq in Hk. lia.
      * intros Hin. apply list_elem_of_fmap in Hin as (k & Hk & Hin).
        apply elem_of_seq in Hin. lia.
Qed.

Lemma range_texts (vs : list seg) (lo n : nat) (texts : list str) :
  Forall2 (fun z t => exists s, vs !! Z.to_nat z = Some s /\ t = text s)
          (Z.of_nat <$> seq lo n) texts ->
  texts = text <$> take n (drop lo vs).
Proof.
  revert lo texts. induction n as [|n IH]; intros lo texts H.
  - apply Forall2_nil_inv_l in H as ->. done.
  - cbn [seq fmap list_fmap] in H.
    apply Forall2_cons_inv_l in H as (t & ts & (s & Hs & ->) & H & ->).
    rewrite Nat2Z.id in Hs. rewrite (drop_S vs s lo Hs). cbn [take fmap list_fmap].
    f_equal. by apply IH.
Qed.

(** The merge button with numbers [lo + 1 < hi <= len] of the form, on a
    sequence of distinct dicts: the segments numbered [lo + 1] to [hi]
    become one, which starts where the first of them started, ends where
    the last of them ended and carries their texts joined by single
    spaces; the segments before and after keep times, text and
    [original], and everything is numbered 1..N. *)
Theorem merge_button_merges h segments vs (lo hi : nat) :
  read_all h segments = Some vs -> NoDup segments ->
  (lo + 1 < hi)%nat -> (hi <= length vs)%nat ->
  exists result h' vs' first last_,
    merge_button h segments (Z.of_nat lo + 1) (Z.of_nat hi) = Ok (result, h')
    /\ read_all h' result = Some vs'
    /\ vs !! lo = Some first /\ vs !! (hi - 1)%nat = Some last_
    /\ content <$> vs'
       = content <$> (take lo vs
                        ++ new_seg (start first) (end_ last_)
                                   (join [sp] (text <$> take (hi - lo) (drop lo vs)))
                        :: drop hi vs)
    /\ index <$> vs' = numbers 0 (length vs - (hi - lo) + 1).
Proof.
  intros Hr Hnd Hlt Hhi.
  pose proof (read_all_length _ _ _ Hr) as Hlen.
  unfold merge_button.
  assert (E : (Z.of_nat lo + 1 <? Z.of_nat hi) = true) by lia. rewrite E. cbv zeta.
  replace (Z.of_nat lo + 1 - 1) with (Z.of_nat lo) by lia.
  rewrite py_range_nat. set (n := (hi - lo)%nat). set (indices := Z.of_nat <$> seq lo n).
  assert (Hin : forall z, z ∈ indices <-> Z.of_nat lo <= z < Z.of_nat hi).
  { intros z. unfold indices. rewrite list_elem_of_fmap. split.
    - intros (k & -> & Hk). apply elem_of_seq in Hk. lia.
    - intros Hz. exists (Z.to_nat z). split; [lia|]. apply elem_of_seq. lia. }
  destruct (merge_segments_ok h segments vs indices Hr)
    as (f & g & s_lo & s_hi & texts & Hhead & Hlast & Hvf & Hvg & Htexts & Hm).
  { unfold indices. rewrite length_fmap, length_seq. lia. }
  { unfold indices. apply (NoDup_fmap_2 _), NoDup_seq. }
  { apply Forall_forall. intros z Hz. apply Hin in Hz. lia. }
  unfold indices in Hhead, Hlast, Htexts. rewrite sorted_range in Hhead, Hlast, Htexts.
  fold indices in Hhead, Hlast, Htexts.
  assert (f = lo) as ->.
  { unfold indices in Hhead. destruct n as [|n'] eqn:En; [lia|].
    cbn [seq fmap list_fmap head] in Hhead. injection Hhead as Hf. lia. }
  assert (g = (hi - 1)%nat) as ->.
  { unfold indices in Hlast. rewrite fmap_last, last_lookup, length_seq in Hlast.
    rewrite lookup_seq_lt in Hlast by lia. cbn in Hlast. injection Hlast as Hg. lia. }
  apply range_texts in Htexts. subst texts.
  cbv zeta in Hm. destruct Hm as [Hm Hread].
  unfold indices in Hm, Hread.
  rewrite (@non_selected_range nat) in Hm, Hread by lia.
  rewrite (@non_selected_range seg) in Hread by lia.
  replace (lo + n - S lo)%nat with (n - 1)%nat in Hm, Hread by lia.
  rewrite (drop_drop segments) in Hm, Hread. rewrite (drop_drop vs) in Hread.
  replace (S lo + (n - 1))%nat with hi in Hm, Hread by lia.
  fold indices in Hm.
  set (merged := new_seg (start s_lo) (end_ s_hi) _) in *.
  set (result := take lo segments ++ _) in *.
  assert (Hrnd : NoDup result).
  { unfold result.
    assert (drop hi segments
            = non_selected (Z.of_nat <$> seq lo n) (S lo) (drop (S lo) segments)) as ->.
    { rewrite non_selected_range by lia. rewrite drop_drop. f_equal. lia. }
    apply merge_result_NoDup; [by eapply read_all_wf|done]. }
  destruct (read_all_renumber_index _ result _ Hrnd Hread) as (vs' & Hvs' & Hix).
  destruct (read_all_renumber_content _ 0 result result _ Hread) as (vs'' & Hvs'' & Hc).
  rewrite Hvs' in Hvs''. injection Hvs'' as <-.
  exists result, (renumber (h ++ [merged]) 0 result), vs', s_lo, s_hi.
  split; [done|]. split; [done|]. split; [done|]. split; [done|]. split; [done|].
  rewrite Hix. f_equal. unfold result.
  rewrite length_app, length_take. cbn [length]. rewrite length_drop. lia.
Qed.

Lemma merge_button_merges_witness :
  exists result h' vs',
    merge_button sample_store sample_segments 1 3 = Ok (result, h')
    /\ read_all h' result = Some vs'
    /\ content <$> vs'
       = [content (new_seg 1 7 (lit "Hello world Bye See you later"))]
    /\ index <$> vs' = [Some 1].
Proof.
  destruct (merge_button_merges sample_store sample_segments sample_store 0 3)
    as (result & h' & vs' & first & last_ & Hm & Hr & Hf & Hl & Hc & Hi).
  - reflexivity.
  - apply (bool_decide_unpack (NoDup [0; 1; 2]%nat)). vm_compute. exact I.
  - lia.
  - simpl. lia.
  - exists result, h', vs'. split; [exact Hm|]. split; [exact Hr|].
    injection Hf as <-. injection Hl as <-. split; [exact Hc|exact Hi].
Defined.

(** ** The split button of the editor page *)

(** The split button on segment number [i + 1] with a ratio strictly
    between 0 and 1 returns.  When the segment does not end after it
    starts, the sequence is returned as it is.  When the segment lies
    between 0 and 100 hours and lasts a microsecond at least, and the ratio
    is from 0.05 to 0.95 (the slider offers 0.1 to 0.9), the sequence gets
    one segment more, and the two halves meet at a time strictly inside
    the segment, within a microsecond of
    [start + (end - start) * ratio]. *)
Theorem split_button_splits h segments vs (i : nat) s (ratio : Q) :
  read_all h segments = Some vs -> vs !! i = Some s ->
  (0 < ratio)%Q -> (ratio < 1)%Q ->
  exists result h',
    split_button h segments (Z.of_nat i + 1) ratio = Ok (result, h')
    /\ ((end_ s <= start s)%Q -> result = segments /\ h' = h)
    /\ ((0 <= start s)%Q -> (end_ s < 360000)%Q ->
        (1 # 1000000 <= end_ s - start s)%Q ->
        (1 # 20 <= ratio)%Q -> (ratio <= 19 # 20)%Q ->
        exists vs' a b,
          read_all h' result = Some vs'
          /\ length vs' = S (length vs)
          /\ vs' !! i = Some a /\ vs' !! S i = Some b
          /\ start a = start s /\ start b = end_ a /\ end_ b = end_ s
          /\ (start s < end_ a)%Q /\ (end_ a < end_ s)%Q
          /\ within_us (start s + (end_ s - start s) * ratio) (end_ a)).
Proof.
  intros Hr Hs H0 H1.
  pose proof (lookup_lt_Some _ _ _ Hs) as Hi.
  destruct (read_at h segments vs (Z.of_nat i) Hr ltac:(lia))
    as (l & s' & _ & _ & Hv & Hg & Hd).
  rewrite Nat2Z.id, Hs in Hv. injection Hv as <-.
  unfold split_button. replace (Z.of_nat i + 1 - 1) with (Z.of_nat i) by lia.
  rewrite Hg. cbn [bind]. rewrite Hd. cbn [bind]. cbv zeta.
  set (t := (start s + (end_ s - start s) * ratio)%Q).
  destruct (Qlt_le_dec (start s) (end_ s)) as [Hlt|Hle].
  - assert (Hlo : (start s < t)%Q) by (unfold t; nra).
    assert (Hhi : (t < end_ s)%Q) by (unfold t; nra).
    destruct (split_segment_ok h segments vs i s t Hr Hs Hlo Hhi) as [Hsplit Hread].
    cbv zeta in Hsplit, Hread.
    set (a := new_seg (start s) t _) in *. set (b := new_seg t (end_ s) _) in *.
    set (result := take i segments ++ _) in *.
    exists result, (renumber (h ++ [a; b]) 0 result).
    split; [done|]. split; [intros Hle; lra|]. intros _ _ _ _ _.
    destruct (read_all_renumber_content _ 0 result result _ Hread) as (vs' & Hvs' & Hc).
    assert (Htake : length (content <$> take i vs) = i)
      by (rewrite length_fmap, length_take; lia).
    rewrite fmap_app, !fmap_cons in Hc.
    assert ((content <$> vs') !! i = Some (content a)) as Ha.
    { rewrite Hc, lookup_app_r by lia. by rewrite Htake, Nat.sub_diag. }
    assert ((content <$> vs') !! S i = Some (content b)) as Hb.
    { rewrite Hc, lookup_app_r by lia. rewrite Htake.
      by replace (S i - i)%nat with 1%nat by lia. }
    apply list_lookup_fmap_Some in Ha as (a' & Ha1 & Ha2).
    apply list_lookup_fmap_Some in Hb as (b' & Hb1 & Hb2).
    destruct (content_eq _ _ Ha1) as (Hsa & Hea & _ & _).
    destruct (content_eq _ _ Hb1) as (Hsb & Heb & _ & _).
    exists vs', a', b'.
    split; [done|]. split.
    { rewrite <- (length_fmap content vs'), Hc, length_app, Htake. cbn [length].
      rewrite length_fmap, length_drop. lia. }
    split; [done|]. split; [done|].
    rewrite <- Hsa, <- Hea, <- Hsb, <- Heb. cbn [start end_ new_seg a b].
    split; [done|]. split; [done|]. split; [done|]. split; [done|]. split; [done|].
    unfold within_us. split; lra.
  - exists segments, h. split.
    + apply (split_segment_outside_span h segments vs i s t Hr Hs).
      right. unfold t. nra.
    + split; [done|]. intros _ _ Hdur. lra.
Qed.

Lemma split_button_splits_witness :
  exists result h' vs' a b,
    split_button sample_store sample_segments 1 (1 # 2) = Ok (result, h')
    /\ read_all h' result = Some vs'
    /\ length vs' = 4%nat
    /\ vs' !! 0%nat = Some a /\ vs' !! 1%nat = Some b
    /\ start a = 1%Q /\ start b = end_ a /\ end_ b = (7 # 2)%Q
    /\ within_us (9 # 4) (end_ a).
Proof.
  destruct (split_button_splits sample_store sample_segments sample_store 0 seg_a (1 # 2))
    as (result & h' & E & _ & H); [reflexivity|reflexivity|reflexivity|reflexivity|].
  destruct H as (vs' & a & b & H1 & H2 & H3 & H4 & H5 & H6 & H7 & _ & _ & H8);
    try (vm_compute; discriminate); try reflexivity.
  exists result, h', vs', a, b. repeat split; try assumption. all: apply H8.
Defined.

(** ** The exports of the editor page *)

Lemma digits_are_digits (n : Z) :
  0 <= n -> Forall (fun c => is_digit c = true) (digits n).
Proof.
  intros Hn. unfold digits.
  destruct (digits_fuel_spec (S (Z.to_nat (Z.log2 n))) n) as (d & Hd & _ & Hdig & _).
  { split; [done|]. rewrite Nat2Z.inj_succ, Z2Nat.id by apply Z.log2_nonneg.
    destruct (Z.eq_dec n 0) as [->|Hn0]; [done|].
    apply Z.log2_spec. lia. }
  { lia. }
  by rewrite Hd, app_nil_r.
Qed.

Lemma fmt_d_no_comma (w : nat) (n : Z) :
  Forall (fun c => Ascii.eqb c ","%char = false) (fmt_d w n).
Proof.
  assert (Hd : forall m, 0 <= m ->
             Forall (fun c => Ascii.eqb c ","%char = false) (digits m)).
  { intros m Hm. eapply Forall_impl; [exact (digits_are_digits m Hm)|].
    intros c Hc. destruct (Ascii.eqb_spec c ","%char) as [->|]; [done|done]. }
  unfold fmt_d. destruct (Z.ltb_spec n 0).
  - cbv zeta. constructor; [done|]. apply Forall_app. split; [|apply Hd; lia].
    apply Forall_replicate. done.
  - cbv zeta. apply Forall_app. split; [|apply Hd; lia].
    apply Forall_replicate. done.
Qed.

Lemma replace_char_id (old new : ascii) (s : str) :
  Forall (fun c => Ascii.eqb c old = false) s -> replace_char old new s = s.
Proof.
  unfold replace_char. induction 1 as [|c s Hc _ IH]; [done|].
  rewrite fmap_cons, Hc. by f_equal.
Qed.

Lemma replace_char_app (old new : ascii) (a b : str) :
  replace_char old new (a ++ b) = replace_char old new a ++ replace_char old new b.
Proof. apply fmap_app. Qed.

Lemma replace_comma_timestamp (s : Q) :
  replace_char ","%char "."%char (format_timestamp_srt s) = format_timestamp_vtt s.
Proof.
  unfold format_timestamp_srt, format_timestamp_vtt, format_timestamp. cbv zeta.
  rewrite !replace_char_app.
  rewrite !(replace_char_id _ _ (fmt_d _ _)) by apply fmt_d_no_comma.
  reflexivity.
Qed.

Lemma export_blocks_ext (f g : Q -> str) (i : Z) (segments : list seg) :
  (forall s, f s = g s) -> export_blocks f i segments = export_blocks g i segments.
Proof.
  intros H. revert i. induction segments as [|s rest IH]; intros i; [done|].
  cbn [export_blocks]. by rewrite !H, IH.
Qed.

Lemma export_blocks_generate (fmt : Q -> str) (i : Z) (segments : list seg) :
  Forall (fun s => strip (text s) = text s) segments ->
  export_blocks fmt i segments = generate_blocks fmt i segments.
Proof.
  intros H. revert i. induction H as [|s rest Hs _ IH]; intros i; [done|].
  cbn [export_blocks generate_blocks]. by rewrite Hs, IH.
Qed.

(** The page prints its exports itself: the timestamps of the secondary
    format by replacing the comma of the primary timestamp printer with a
    full stop, which gives what the secondary printer prints, for every
    number of seconds; the texts without stripping them.  So for segments
    whose texts are stripped, as all parsed segments are, the two exports
    are the texts the two generators write. *)
Theorem editor_exports_agree (segments : list seg) :
  (forall s, replace_char ","%char "."%char (format_timestamp_srt s)
             = format_timestamp_vtt s)
  /\ (Forall (fun s => strip (text s) = text s) segments ->
      export_srt segments = generate_srt segments
      /\ export_vtt segments = generate_vtt segments).
Proof.
  split; [apply replace_comma_timestamp|]. intros H.
  unfold export_srt, export_vtt, generate_srt, generate_vtt. split.
  - by apply export_blocks_generate.
  - rewrite (export_blocks_ext _ format_timestamp_vtt) by apply replace_comma_timestamp.
    by rewrite export_blocks_generate.
Qed.

Lemma editor_exports_agree_witness :
  export_srt sample_store = generate_srt sample_store
  /\ export_vtt sample_store = generate_vtt sample_store.
Proof.
  apply (editor_exports_agree sample_store).
  repeat constructor.
Defined.

(** ** Both formats through both parsers *)

Lemma contains_arrow_cons (c : ascii) (s : str) :
  Ascii.eqb c "-"%char = false -> contains_arrow (c :: s) = contains_arrow s.
Proof.
  intros Hc. cbn [contains_arrow]. rewrite Hc. cbn [andb orb].
  destruct s as [|b [|c' s']]; done.
Qed.

Lemma contains_arrow_skip (a b : str) :
  Forall (fun c => Ascii.eqb c "-"%char = false) a ->
  contains_arrow (a ++ b) = contains_arrow b.
Proof.
  induction 1 as [|c a Hc _ IH]; [done|]. cbn [app]. by rewrite contains_arrow_cons.
Qed.

Lemma is_digit_no_dash (d : str) :
  Forall (fun c => is_digit c = true) d ->
  Forall (fun c => Ascii.eqb c "-"%char = false) d.
Proof.
  intros H. eapply Forall_impl; [exact H|]. intros c Hc.
  by destruct (is_digit_not_sign c Hc).
Qed.

Lemma is_sep_cases (sep : ascii) : is_sep sep = true -> sep = ","%char \/ sep = "."%char.
Proof.
  unfold is_sep. intros H. apply orb_true_iff in H as [H|H].
  - left. by apply Ascii.eqb_eq.
  - right. by apply Ascii.eqb_eq.
Qed.

Section printed.
Variable sep : ascii.
Hypothesis Hsep : is_sep sep = true.

Lemma sep_plain : is_space sep = false /\ Ascii.eqb sep "-"%char = false.
Proof. destruct (is_sep_cases sep Hsep) as [-> | ->]; done. Qed.

(** A printed timestamp below 100 hours holds no whitespace and no dash. *)
Lemma format_timestamp_solid (s : Q) :
  (0 <= s)%Q -> (s < 360000)%Q ->
  Forall (fun c => is_space c = false) (format_timestamp sep s)
  /\ Forall (fun c => Ascii.eqb c "-"%char = false) (format_timestamp sep s)
  /\ format_timestamp sep s <> [].
Proof.
  intros H0 H100. destruct sep_plain as [Hs Hd].
  destruct (format_timestamp_shape sep s H0 H100)
    as (hh & mm & ss & ms & ? & ? & ? & ? & -> & L1 & _ & _ & _ & D1 & D2 & D3 & D4 & _).
  split; [|split; [|by destruct hh]].
  - apply Forall_app. split; [by apply is_digit_plain|].
    apply Forall_app. split; [by repeat constructor|].
    apply Forall_app. split; [by apply is_digit_plain|].
    apply Forall_app. split; [by repeat constructor|].
    apply Forall_app. split; [by apply is_digit_plain|].
    apply Forall_app. split; [by repeat constructor|]. by apply is_digit_plain.
  - apply Forall_app. split; [by apply is_digit_no_dash|].
    apply Forall_app. split; [by repeat constructor|].
    apply Forall_app. split; [by apply is_digit_no_dash|].
    apply Forall_app. split; [by repeat constructor|].
    apply Forall_app. split; [by apply is_digit_no_dash|].
    apply Forall_app. split; [by repeat constructor|]. by apply is_digit_no_dash.
Qed.

(** The timing line a generator writes is matched by both parsers, and its
    two groups are the two printed timestamps. *)
Lemma match_time_printed (a b : Q) :
  (0 <= a)%Q -> (a < 360000)%Q -> (0 <= b)%Q -> (b < 360000)%Q ->
  match_time_srt (format_timestamp sep a ++ lit " --> " ++ format_timestamp sep b)
  = Some (format_timestamp sep a, format_timestamp sep b)
  /\ match_time_vtt (format_timestamp sep a ++ lit " --> " ++ format_timestamp sep b)
     = Some (format_timestamp sep a, format_timestamp sep b).
Proof.
  intros Ha0 Ha Hb0 Hb.
  destruct (format_timestamp_solid b Hb0 Hb) as (Pb & _ & Nb).
  unfold match_time_srt, match_time_vtt, match_either.
  set (Fa := format_timestamp sep a). set (Fb := format_timestamp sep b) in *.
  destruct (format_timestamp_shape sep a Ha0 Ha)
    as (hh & mm & ss & ms & ? & ? & ? & ? & HFa & L1 & L2 & L3 & L4 & D1 & D2 & D3 & D4 & _).
  destruct (format_timestamp_shape sep b Hb0 Hb)
    as (hh' & mm' & ss' & ms' & ? & ? & ? & ? & HFb & L1' & L2' & L3' & L4'
        & D1' & D2' & D3' & D4' & _).
  fold Fa in HFa. fold Fb in HFb.
  assert (M1 : match_full (Fa ++ lit " --> " ++ Fb)
               = Some ((hh, mm, ss, ms), lit " --> " ++ Fb)).
  { rewrite HFa at 1. rewrite <- !(assoc_L (++)). by apply match_full_ok. }
  assert (M2 : match_full Fb = Some ((hh', mm', ss', ms'), [])).
  { rewrite HFb at 1. rewrite <- (app_nil_r ms') at 1. by apply match_full_ok. }
  rewrite M1.
  assert (M3 : match_arrow (lit " --> " ++ Fb) = Some Fb).
  { unfold match_arrow. change (lit " --> " ++ Fb) with (sp :: "-" :: "-" :: ">" :: sp :: Fb)%char.
    cbn [lstrip]. change (is_space sp) with true. cbv iota.
    change (is_space "-") with false. cbv iota.
    change (Ascii.eqb "-" "-") with true. change (Ascii.eqb ">" ">") with true.
    cbn [andb]. cbn [lstrip]. change (is_space sp) with true. cbv iota.
    rewrite <- (app_nil_r Fb) at 1. rewrite plain_lstrip by done. by rewrite app_nil_r. }
  rewrite M3, M2. unfold consumed.
  assert (E1 : take (length (Fa ++ lit " --> " ++ Fb) - length (lit " --> " ++ Fb))
                    (Fa ++ lit " --> " ++ Fb) = Fa).
  { rewrite length_app. rewrite take_app_length'; [done|lia]. }
  assert (E2 : take (length Fb - length (@nil ascii)) Fb = Fb).
  { cbn [length]. rewrite Nat.sub_0_r. apply firstn_all. }
  by rewrite E1, E2.
Qed.

(** One printed block reads back as its segment, through either parser. *)
Lemma parse_block_printed (i index : Z) (s : seg) :
  0 <= i -> printable s ->
  (exists p, parse_srt_block (block_with (format_timestamp sep) i s) = Ok (Some p)
             /\ read_back i s p)
  /\ (exists p, parse_vtt_block index (block_with (format_timestamp sep) i s) = Ok (Some p)
                /\ read_back (index + 1) s p).
Proof.
  intros Hi (Ha0 & Ha & Hb0 & Hb & Hne & Hblank).
  destruct (str_of_int_spec i Hi) as (In & Id & Ii).
  destruct (format_timestamp_solid _ Ha0 Ha) as (Pa & Da & Na).
  destruct (format_timestamp_solid _ Hb0 Hb) as (Pb & Db & Nb).
  set (I := str_of_int i) in *.
  set (T := format_timestamp sep (start s) ++ lit " --> " ++ format_timestamp sep (end_ s)).
  set (X := strip (text s)) in *.
  assert (HB : block_with (format_timestamp sep) i s = I ++ nl :: T ++ nl :: X).
  { unfold block_with, T. fold I X. by rewrite <- !(assoc_L (++)). }
  assert (PT : Forall (fun c => Ascii.eqb c nl = false) T).
  { unfold T. apply Forall_app. split; [by apply plain_no_nl|].
    apply Forall_app. split; [|by apply plain_no_nl].
    change (lit " --> ") with [sp; "-"; "-"; ">"; sp]%char. by repeat constructor. }
  assert (ST : strip T = T).
  { destruct (format_timestamp sep (start s)) as [|c0 F0] eqn:EF; [done|].
    destruct (last (format_timestamp sep (end_ s))) as [z|] eqn:Hz;
      [|by apply last_None in Hz].
    apply (strip_id _ c0 z).
    - done.
    - exact (Forall_inv Pa).
    - unfold T. rewrite !last_app, Hz. done.
    - rewrite Forall_forall in Pb. apply Pb. by eapply last_Some_elem_of. }
  assert (AT : contains_arrow T = true).
  { unfold T. rewrite contains_arrow_skip by done.
    change (lit " --> " ++ format_timestamp sep (end_ s))
      with (sp :: "-" :: "-" :: ">" :: sp :: format_timestamp sep (end_ s))%char.
    rewrite contains_arrow_cons by done. reflexivity. }
  assert (AI : contains_arrow I = false).
  { rewrite <- (app_nil_r I). by rewrite contains_arrow_skip by (by apply is_digit_no_dash). }
  destruct (last X) as [z|] eqn:Hz; [|by apply last_None in Hz].
  assert (SB : strip (block_with (format_timestamp sep) i s)
               = block_with (format_timestamp sep) i s).
  { rewrite HB. destruct I as [|c0 I0] eqn:EI; [done|].
    apply (strip_id _ c0 z).
    - done.
    - apply is_digit_not_space. exact (Forall_inv Id).
    - rewrite last_app. cbn [last]. rewrite last_cons, last_app.
      rewrite (last_cons nl X), Hz. done.
    - by apply (strip_last (text s)). }
  assert (Hlines : split_on nl (block_with (format_timestamp sep) i s)
                   = I :: T :: split_on nl X).
  { rewrite HB. rewrite split_on_app by (by apply plain_no_nl, is_digit_plain).
    by rewrite split_on_app. }
  destruct (parse_format_timestamp sep (start s) Hsep Ha0 Ha) as (q1 & Hq1 & Hq1' & E1).
  destruct (parse_format_timestamp sep (end_ s) Hsep Hb0 Hb) as (q2 & Hq2 & Hq2' & E2).
  destruct (match_time_printed _ _ Ha0 Ha Hb0 Hb) as [Msrt Mvtt].
  pose proof (split_on_nonempty nl X) as Hsx.
  destruct (split_on nl X) as [|x0 xs] eqn:EX; [done|].
  split.
  - exists (mkSeg (Some i) q1 q2 X None). split; [|by repeat split].
    unfold parse_srt_block. cbv zeta. rewrite SB, Hlines.
    cbn [length Nat.ltb Nat.leb].
    rewrite (getitem_ok (I :: T :: x0 :: xs) 0 I) by (done || lia).
    cbn [bind]. rewrite (plain_strip I) by (by apply is_digit_plain). rewrite Ii.
    rewrite (getitem_ok (I :: T :: x0 :: xs) 1 T) by (done || lia). cbn [bind].
    rewrite ST. unfold T at 1. rewrite Msrt.
    rewrite Hq1, Hq2. cbn [bind drop]. rewrite <- EX, join_split_on.
    unfold X. by rewrite strip_idemp.
  - exists (mkSeg (Some (index + 1)) q1 q2 X None). split; [|by repeat split].
    unfold parse_vtt_block. cbv zeta. rewrite SB, Hlines.
    cbn [length Nat.eqb find_time_line]. rewrite AI, AT.
    rewrite (getitem_ok (I :: T :: x0 :: xs) (Z.of_nat 1) T) by (done || lia).
    cbn [bind]. rewrite ST. unfold T at 1. rewrite Mvtt.
    rewrite Hq1', Hq2'. cbn [bind drop Nat.add]. rewrite <- EX, join_split_on.
    unfold X. by rewrite strip_idemp.
Qed.

Lemma block_with_shape (i : Z) (s : seg) :
  0 <= i -> printable s ->
  exists a z,
    head (block_with (format_timestamp sep) i s) = Some a /\ is_space a = false
    /\ last (block_with (format_timestamp sep) i s) = Some z /\ is_space z = false
    /\ has_blank (block_with (format_timestamp sep) i s ++ [nl]) = false.
Proof.
  intros Hi (Ha0 & Ha & Hb0 & Hb & Hne & Hblank).
  destruct (str_of_int_spec i Hi) as (In & Id & _).
  destruct (format_timestamp_solid _ Ha0 Ha) as (Pa & _ & Na).
  destruct (format_timestamp_solid _ Hb0 Hb) as (Pb & _ & Nb).
  unfold block_with.
  set (I := str_of_int i) in *. set (X := strip (text s)) in *.
  set (Fa := format_timestamp sep (start s)) in *.
  set (Fb := format_timestamp sep (end_ s)) in *.
  destruct I as [|a I0] eqn:EI; [done|].
  destruct (last X) as [z|] eqn:Hz; [|by apply last_None in Hz].
  destruct X as [|x0 X0] eqn:EX; [done|].
  exists a, z. split; [done|].
  split; [apply is_digit_not_space; exact (Forall_inv Id)|].
  split.
  { rewrite !last_app. by rewrite Hz. }
  split; [apply (strip_last (text s)); fold X; by rewrite EX|].
  rewrite <- !(assoc_L (++)).
  rewrite has_blank_app_plain by (by apply plain_no_nl, is_digit_plain).
  cbn [app has_blank]. rewrite Ascii.eqb_refl. cbn [andb].
  rewrite starts_with_nl_app by done.
  assert (starts_with_nl Fa = false) as ->.
  { destruct Fa as [|c F]; [done|]. apply not_space_not_nl. exact (Forall_inv Pa). }
  cbn [orb]. rewrite has_blank_app_plain by (by apply plain_no_nl).
  rewrite has_blank_app_plain
    by (change (lit " --> ") with [sp; "-"; "-"; ">"; sp]%char; by repeat constructor).
  rewrite has_blank_app_plain by (by apply plain_no_nl).
  cbn [app has_blank]. rewrite Ascii.eqb_refl. cbn [andb starts_with_nl].
  assert (Ascii.eqb x0 nl = false) as ->.
  { apply not_space_not_nl. apply (strip_head (text s)). fold X. by rewrite EX. }
  cbn [andb orb]. apply has_blank_snoc.
  - cbn [has_blank] in Hblank. by apply orb_false_iff in Hblank as [_ ?].
  - destruct X0 as [|x1 X1]; [done|]. rewrite last_cons_cons in Hz. rewrite Hz.
    intros [= ->].
    assert (is_space nl = false) as Hnl; [|by rewrite is_space_nl in Hnl].
    apply (strip_last (text s)). fold X. rewrite EX. by rewrite last_cons_cons.
Qed.

Lemma generate_blocks_with (i : Z) (segments : list seg) :
  segments <> [] ->
  generate_blocks (format_timestamp sep) i segments
  = join [nl; nl] (blocks_with (format_timestamp sep) i segments) ++ [nl; nl].
Proof.
  revert i. induction segments as [|s rest IH]; intros i Hne; [done|].
  cbn [generate_blocks blocks_with].
  assert (forall tail, str_of_int i ++ [nl] ++ format_timestamp sep (start s) ++ lit " --> "
            ++ format_timestamp sep (end_ s) ++ [nl] ++ strip (text s) ++ tail
          = block_with (format_timestamp sep) i s ++ tail) as ->.
  { intros tail. unfold block_with. by rewrite <- !(assoc_L (++)). }
  destruct rest as [|s' rest].
  - done.
  - rewrite IH by done. cbn [blocks_with].
    change (join [nl; nl] (block_with (format_timestamp sep) i s
                             :: block_with (format_timestamp sep) (i + 1) s'
                             :: blocks_with (format_timestamp sep) (i + 1 + 1) rest))
      with (block_with (format_timestamp sep) i s ++ [nl; nl]
            ++ join [nl; nl] (block_with (format_timestamp sep) (i + 1) s'
                                :: blocks_with (format_timestamp sep) (i + 1 + 1) rest)).
    by rewrite <- !(assoc_L (++)).
Qed.

Lemma blocks_with_last (i : Z) (segments : list seg) (b : str) :
  0 <= i -> last (blocks_with (format_timestamp sep) i segments) = Some b ->
  exists j s, 0 <= j /\ s ∈ segments /\ b = block_with (format_timestamp sep) j s.
Proof.
  revert i. induction segments as [|s rest IH]; intros i Hi Hb; [done|].
  cbn [blocks_with] in Hb. destruct rest as [|s' rest].
  - injection Hb as <-. exists i, s. split; [done|]. split; [|done].
    apply elem_of_cons. by left.
  - cbn [blocks_with] in Hb. rewrite last_cons_cons in Hb.
    destruct (IH (i + 1) ltac:(lia) Hb) as (j & s0 & Hj & Hin & ->).
    exists j, s0. split; [done|]. split; [|done]. apply elem_of_cons. by right.
Qed.

(** The joined blocks start and end with a character that is no
    whitespace. *)
Lemma blocks_with_ends (i : Z) (segments : list seg) :
  0 <= i -> segments <> [] -> Forall printable segments ->
  exists a z,
    head (join [nl; nl] (blocks_with (format_timestamp sep) i segments)) = Some a
    /\ is_space a = false
    /\ last (join [nl; nl] (blocks_with (format_timestamp sep) i segments)) = Some z
    /\ is_space z = false.
Proof.
  intros Hi Hne Hp. destruct segments as [|s rest]; [done|].
  pose proof (Forall_inv Hp) as Hs.
  destruct (block_with_shape i s Hi Hs) as (a & _ & Ha & Hsa & _).
  destruct (last (blocks_with (format_timestamp sep) i (s :: rest))) as [b|] eqn:Hb;
    [|by apply last_None in Hb].
  destruct (blocks_with_last i (s :: rest) b Hi Hb) as (j & s0 & Hj & Hin & ->).
  rewrite Forall_forall in Hp.
  destruct (block_with_shape j s0 Hj (Hp _ Hin)) as (_ & z & _ & _ & Hz & Hsz & _).
  exists a, z. split; [by apply join_head|]. split; [done|].
  split; [by eapply join_last|done].
Qed.

Lemma strip_generate_with (i : Z) (segments : list seg) :
  0 <= i -> segments <> [] -> Forall printable segments ->
  strip (generate_blocks (format_timestamp sep) i segments)
  = join [nl; nl] (blocks_with (format_timestamp sep) i segments).
Proof.
  intros Hi Hne Hp. rewrite generate_blocks_with by done.
  destruct (blocks_with_ends i segments Hi Hne Hp) as (a & z & Ha & Hsa & Hz & Hsz).
  unfold strip. rewrite (lstrip_id _ a).
  - by apply (rstrip_blank_line _ z).
  - destruct (join [nl; nl] (blocks_with (format_timestamp sep) i segments)); [done|].
    exact Ha.
  - done.
Qed.

Lemma blocks_with_solid (i : Z) (segments : list seg) :
  0 <= i -> Forall printable segments ->
  Forall (fun b => has_blank (b ++ [nl]) = false /\ starts_with_nl b = false /\ b <> [])
         (blocks_with (format_timestamp sep) i segments).
Proof.
  intros Hi Hp. revert i Hi. induction Hp as [|s rest Hs _ IH]; intros i Hi; [constructor|].
  cbn [blocks_with]. constructor; [|apply IH; lia].
  destruct (block_with_shape i s Hi Hs) as (a & z & Ha & Hsa & _ & _ & Hb).
  split; [done|]. destruct (block_with (format_timestamp sep) i s) as [|c b]; [done|].
  injection Ha as ->. split; [|done]. by apply not_space_not_nl.
Qed.

Lemma parse_srt_blocks_with (i : Z) (segments : list seg) :
  0 <= i -> Forall printable segments ->
  exists parsed,
    parse_srt_blocks (blocks_with (format_timestamp sep) i segments) = Ok parsed
    /\ length parsed = length segments
    /\ forall (k : nat) s p, segments !! k = Some s -> parsed !! k = Some p ->
                             read_back (i + Z.of_nat k) s p.
Proof.
  intros Hi Hp. revert i Hi. induction Hp as [|s rest Hs _ IH]; intros i Hi.
  - exists []. split; [done|]. split; [done|]. intros k s p H. by rewrite lookup_nil in H.
  - destruct (parse_block_printed i 0 s Hi Hs) as [(p0 & Hp0 & Hr0) _].
    destruct (IH (i + 1) ltac:(lia)) as (parsed & Hparsed & Hlen & Hall).
    exists (p0 :: parsed). cbn [blocks_with parse_srt_blocks].
    rewrite Hp0. cbn [bind]. rewrite Hparsed. cbn [bind].
    split; [done|]. split; [simpl; by rewrite Hlen|].
    intros [|k] s1 p1 Hs1 Hp1.
    + injection Hs1 as <-. injection Hp1 as <-. by rewrite Z.add_0_r.
    + replace (i + Z.of_nat (S k)) with (i + 1 + Z.of_nat k) by lia. by apply Hall.
Qed.

Lemma parse_vtt_blocks_with (i index : Z) (segments : list seg) :
  0 <= i -> Forall printable segments ->
  exists parsed,
    parse_vtt_blocks index (blocks_with (format_timestamp sep) i segments) = Ok parsed
    /\ length parsed = length segments
    /\ forall (k : nat) s p, segments !! k = Some s -> parsed !! k = Some p ->
                             read_back (index + Z.of_nat k + 1) s p.
Proof.
  intros Hi Hp. revert i index Hi. induction Hp as [|s rest Hs _ IH]; intros i index Hi.
  - exists []. split; [done|]. split; [done|]. intros k s p H. by rewrite lookup_nil in H.
  - destruct (parse_block_printed i index s Hi Hs) as [_ (p0 & Hp0 & Hr0)].
    destruct (IH (i + 1) (index + 1) ltac:(lia)) as (parsed & Hparsed & Hlen & Hall).
    exists (p0 :: parsed). cbn [blocks_with parse_vtt_blocks].
    rewrite Hp0. cbn [bind]. rewrite Hparsed. cbn [bind].
    split; [done|]. split; [simpl; by rewrite Hlen|].
    intros [|k] s1 p1 Hs1 Hp1.
    + injection Hs1 as <-. injection Hp1 as <-. by rewrite Z.add_0_r.
    + replace (index + Z.of_nat (S k) + 1) with (index + 1 + Z.of_nat k + 1) by lia.
      by apply Hall.
Qed.

(** The text of the blocks, read by either parser, with or without the
    header of the secondary format before it. *)
Lemma blocks_read_back (segments : list seg) :
  Forall printable segments ->
  reads_back segments (parse_srt (generate_blocks (format_timestamp sep) 1 segments))
  /\ reads_back segments (parse_vtt (generate_blocks (format_timestamp sep) 1 segments))
  /\ reads_back segments
       (parse_srt (lit "WEBVTT" ++ [nl; nl]
                     ++ generate_blocks (format_timestamp sep) 1 segments))
  /\ reads_back segments
       (parse_vtt (lit "WEBVTT" ++ [nl; nl]
                     ++ generate_blocks (format_timestamp sep) 1 segments)).
Proof.
  intros Hp.
  assert (Hhead : forall G, strip_header (lit "WEBVTT" ++ [nl; nl] ++ G) = G)
    by (intros G; reflexivity).
  destruct segments as [|s rest].
  { assert (reads_back [] (Ok [])) as Hnil.
    { exists []. split; [done|]. split; [done|]. intros k s p H. by rewrite lookup_nil in H. }
    repeat split; exact Hnil. }
  set (segments := s :: rest) in *.
  assert (Hne : segments <> []) by done.
  destruct (parse_srt_blocks_with 1 segments ltac:(lia) Hp) as (ps & Hps & Hls & Has).
  destruct (parse_vtt_blocks_with 1 0 segments ltac:(lia) Hp) as (pv & Hpv & Hlv & Hav).
  pose proof (blocks_with_solid 1 segments ltac:(lia) Hp) as Hsolid.
  pose proof (strip_generate_with 1 segments ltac:(lia) Hne Hp) as Hstrip.
  assert (Hbne : blocks_with (format_timestamp sep) 1 segments <> []) by done.
  assert (Hsrt : reads_back segments (Ok ps)).
  { exists ps. split; [done|]. split; [done|].
    intros k s1 p1 Hs1 Hp1. rewrite Z.add_comm. by apply Has. }
  assert (Hvtt : reads_back segments (Ok pv)).
  { exists pv. split; [done|]. split; [done|].
    intros k s1 p1 Hs1 Hp1. specialize (Hav k s1 p1 Hs1 Hp1).
    by rewrite Z.add_0_l in Hav. }
  assert (Hplain : strip_header (generate_blocks (format_timestamp sep) 1 segments)
                   = generate_blocks (format_timestamp sep) 1 segments).
  { unfold segments. cbn [generate_blocks]. reflexivity. }
  split; [|split; [|split]].
  - unfold parse_srt. rewrite Hstrip, split_blank_join by done. by rewrite Hps.
  - unfold parse_vtt. rewrite Hplain, Hstrip, split_blank_join by done. by rewrite Hpv.
  - unfold parse_srt.
    assert (strip (lit "WEBVTT" ++ [nl; nl]
                     ++ generate_blocks (format_timestamp sep) 1 segments)
            = join [nl; nl] (lit "WEBVTT" :: blocks_with (format_timestamp sep) 1 segments))
      as ->.
    { rewrite generate_blocks_with by done.
      destruct (blocks_with_ends 1 segments ltac:(lia) Hne Hp) as (a & z & Ha & Hsa & Hz & Hsz).
      set (J := join [nl; nl] (blocks_with (format_timestamp sep) 1 segments)) in *.
      assert (join [nl; nl] (lit "WEBVTT" :: blocks_with (format_timestamp sep) 1 segments)
              = lit "WEBVTT" ++ [nl; nl] ++ J) as ->.
      { unfold J. by destruct (blocks_with (format_timestamp sep) 1 segments). }
      unfold strip. rewrite (lstrip_id _ "W"%char) by done.
      rewrite !(assoc_L (++)). apply (rstrip_blank_line _ z); [|done].
      by rewrite last_app, Hz. }
    rewrite split_blank_join; [|done|].
    + cbn [parse_srt_blocks].
      change (parse_srt_block (lit "WEBVTT")) with (@Ok (option seg) None).
      cbn [bind]. by rewrite Hps.
    + constructor; [|done]. by vm_compute.
  - unfold parse_vtt. rewrite Hhead, Hstrip, split_blank_join by done. by rewrite Hpv.
Qed.
End printed.

(** The secondary format through its own parser: the written segments
    are read back, one per segment and in order, numbered from 1, with
    times within a millisecond of the written ones, the stripped text and
    no [original]. *)
Theorem parse_generate_vtt (segments : list seg) :
  Forall printable segments -> reads_near segments (parse_vtt (generate_vtt segments)).
Proof.
  intros Hp. apply reads_back_near. unfold generate_vtt, format_timestamp_vtt.
  by destruct (blocks_read_back "."%char eq_refl segments Hp) as (_ & _ & _ & H).
Qed.

Lemma parse_generate_vtt_witness :
  reads_near sample_store (parse_vtt (generate_vtt sample_store)).
Proof.
  apply (parse_generate_vtt sample_store).
  repeat constructor; try (vm_compute; discriminate); try reflexivity.
Defined.

(** Each parser reads the text the other format's generator writes, as
    in a round trip.  The header of the secondary format is a block of one
    line, which the primary parser skips. *)
Theorem parsers_read_the_other_format (segments : list seg) :
  Forall printable segments ->
  reads_near segments (parse_vtt (generate_srt segments))
  /\ reads_near segments (parse_srt (generate_vtt segments)).
Proof.
  intros Hp. unfold generate_srt, generate_vtt, format_timestamp_srt, format_timestamp_vtt.
  split; apply reads_back_near.
  - by destruct (blocks_read_back ","%char eq_refl segments Hp) as (_ & H & _).
  - by destruct (blocks_read_back "."%char eq_refl segments Hp) as (_ & _ & H & _).
Qed.

Lemma parsers_read_the_other_format_witness :
  reads_near sample_store (parse_vtt (generate_srt sample_store))
  /\ reads_near sample_store (parse_srt (generate_vtt sample_store)).
Proof.
  apply (parsers_read_the_other_format sample_store).
  repeat constructor; try (vm_compute; discriminate); try reflexivity.
Defined.

(** ** Content without a timing line *)

Lemma contains_arrow_app_r (x q : str) :
  contains_arrow x = true -> contains_arrow (x ++ q) = true.
Proof.
  induction x as [|a x IH]; [done|]. intros H.
  destruct x as [|b [|c r]]; try done.
  cbn [contains_arrow app] in *. apply orb_true_iff in H as [H|H].
  - by rewrite H.
  - rewrite (IH H). apply orb_true_r.
Qed.

Lemma contains_arrow_app_l (p x : str) :
  contains_arrow x = true -> contains_arrow (p ++ x) = true.
Proof.
  intros H. induction p as [|a p IH]; [done|].
  cbn [app]. destruct (p ++ x) as [|b [|c r]]; try done.
  change (contains_arrow (a :: b :: c :: r))
    with ((Ascii.eqb a "-" && Ascii.eqb b "-" && Ascii.eqb c ">")
          || contains_arrow (b :: c :: r)).
  rewrite IH. apply orb_true_r.
Qed.

(** A text without the range separator has no part with it. *)
Lemma contains_arrow_part (p x q : str) :
  contains_arrow (p ++ x ++ q) = false -> contains_arrow x = false.
Proof.
  intros H. destruct (contains_arrow x) eqn:E; [|done].
  by rewrite (contains_arrow_app_l p _ (contains_arrow_app_r x q E)) in H.
Qed.

Lemma strip_part (s : str) : exists p q, s = p ++ strip s ++ q.
Proof.
  destruct (lstrip_split s) as [p Hp]. destruct (rstrip_split (lstrip s)) as [q Hq].
  exists p, q. unfold strip. by rewrite <- Hq.
Qed.

Lemma split_on_head (d : ascii) (s : str) :
  exists l0 ls q, split_on d s = l0 :: ls /\ s = l0 ++ q.
Proof.
  induction s as [|c s (l0 & ls & q & E & Hs)].
  - by exists [], [], [].
  - cbn [split_on]. destruct (Ascii.eqb c d).
    + by exists [], (split_on d s), (c :: s).
    + rewrite E. exists (c :: l0), ls, q. by rewrite Hs at 1.
Qed.

Lemma split_on_part (d : ascii) (s l : str) :
  l ∈ split_on d s -> exists p q, s = p ++ l ++ q.
Proof.
  revert l. induction s as [|c s IH]; intros l Hl.
  - apply list_elem_of_singleton in Hl as ->. by exists [], [].
  - cbn [split_on] in Hl. destruct (Ascii.eqb c d).
    + apply elem_of_cons in Hl as [->|Hl].
      * by exists [], (c :: s).
      * destruct (IH l Hl) as (p & q & ->). by exists (c :: p), q.
    + destruct (split_on_head d s) as (l0 & ls & q0 & E & Hs). rewrite E in Hl, IH.
      apply elem_of_cons in Hl as [->|Hl].
      * exists [], q0. by rewrite Hs at 1.
      * destruct (IH l) as (p & q & ->); [apply elem_of_cons; by right|].
        by exists (c :: p), q.
Qed.

Lemma split_blank_head (s : str) :
  exists b0 bs q, split_blank s false = b0 :: bs /\ s = b0 ++ q.
Proof.
  induction s as [|c s (b0 & bs & q & E & Hs)].
  - by exists [], [], [].
  - cbn [split_blank andb]. destruct (Ascii.eqb c nl && starts_with_nl s).
    + by exists [], (split_blank s true), (c :: s).
    + rewrite E. exists (c :: b0), bs, q. by rewrite Hs at 1.
Qed.

Lemma split_blank_part (s : str) (skipping : bool) (b : str) :
  b ∈ split_blank s skipping -> exists p q, s = p ++ b ++ q.
Proof.
  revert skipping b. induction s as [|c s IH]; intros skipping b Hb.
  - apply list_elem_of_singleton in Hb as ->. by exists [], [].
  - cbn [split_blank] in Hb. destruct (skipping && Ascii.eqb c nl).
    + destruct (IH _ _ Hb) as (p & q & ->). by exists (c :: p), q.
    + destruct (Ascii.eqb c nl && starts_with_nl s).
      * apply elem_of_cons in Hb as [->|Hb].
        -- by exists [], (c :: s).
        -- destruct (IH _ _ Hb) as (p & q & ->). by exists (c :: p), q.
      * destruct (split_blank_head s) as (b0 & bs & q0 & E & Hs).
        specialize (IH false). rewrite E in Hb, IH.
        apply elem_of_cons in Hb as [->|Hb].
        -- exists [], q0. by rewrite Hs at 1.
        -- destruct (IH b) as (p & q & ->); [apply elem_of_cons; by right|].
           by exists (c :: p), q.
Qed.

Lemma strip_prefix_spec (p s rest : str) : strip_prefix p s = Some rest -> s = p ++ rest.
Proof.
  revert s. induction p as [|a p IH]; intros s H.
  - by injection H as ->.
  - destruct s as [|b s]; [done|]. cbn [strip_prefix] in H.
    destruct (Ascii.eqb_spec a b) as [->|]; [|done]. by rewrite (IH _ H).
Qed.

Lemma after_blank_spec (s body : str) : after_blank s = Some body -> exists p, s = p ++ body.
Proof.
  induction s as [|c s IH]; [done|]. cbn [after_blank].
  destruct (Ascii.eqb c nl && starts_with_nl s) eqn:E.
  - intros [= <-]. apply andb_true_iff in E as [_ E].
    destruct s as [|c' s]; [done|]. by exists [c; c'].
  - intros H. destruct (IH H) as [p ->]. by exists (c :: p).
Qed.

Lemma strip_header_spec (content : str) : exists p, content = p ++ strip_header content.
Proof.
  unfold strip_header.
  destruct (strip_prefix (lit "WEBVTT") content) as [rest|] eqn:E; [|by exists []].
  destruct (after_blank rest) as [body|] eqn:E'; [|by exists []].
  apply strip_prefix_spec in E as ->. destruct (after_blank_spec _ _ E') as [p ->].
  exists (lit "WEBVTT" ++ p). by rewrite <- (assoc_L (++)).
Qed.

Lemma match_arrow_arrow (r s2 : str) : match_arrow r = Some s2 -> contains_arrow r = true.
Proof.
  unfold match_arrow. intros H. destruct (lstrip_split r) as [p Hp].
  rewrite Hp. apply contains_arrow_app_l.
  destruct (lstrip r) as [|a [|b [|c r']]]; try done.
  destruct (Ascii.eqb a "-" && Ascii.eqb b "-" && Ascii.eqb c ">") eqn:E; [|done].
  cbn [contains_arrow]. by rewrite E.
Qed.

Lemma match_time_srt_arrow (s : str) (g : str * str) :
  match_time_srt s = Some g -> contains_arrow s = true.
Proof.
  unfold match_time_srt.
  destruct (match_full s) as [[[[[hh mm] ss] ms] r1]|] eqn:E; [|done].
  destruct (match_arrow r1) as [s2|] eqn:E'; [|done]. intros _.
  apply match_full_spec in E as (c1 & c2 & c3 & -> & _).
  apply match_arrow_arrow in E'.
  apply contains_arrow_app_l, (contains_arrow_app_l [c1]), contains_arrow_app_l,
    (contains_arrow_app_l [c2]), contains_arrow_app_l, (contains_arrow_app_l [c3]),
    contains_arrow_app_l, E'.
Qed.

Lemma find_time_line_none (i : nat) (lines : list str) :
  Forall (fun l => contains_arrow l = false) lines -> find_time_line i lines = None.
Proof.
  intros H. revert i. induction H as [|l ls Hl _ IH]; intros i; [done|].
  cbn [find_time_line]. by rewrite Hl.
Qed.

Lemma lines_without_arrow (block : str) :
  contains_arrow block = false ->
  Forall (fun l => contains_arrow (strip l) = false /\ contains_arrow l = false)
         (split_on nl (strip block)).
Proof.
  intros H. apply Forall_forall. intros l Hl.
  destruct (split_on_part _ _ _ Hl) as (p & q & E).
  destruct (strip_part block) as (p' & q' & E').
  rewrite E' in H. apply contains_arrow_part in H. rewrite E in H.
  apply contains_arrow_part in H. split; [|done].
  destruct (strip_part l) as (p'' & q'' & E''). rewrite E'' in H.
  by apply contains_arrow_part in H.
Qed.

Lemma block_without_arrow (index : Z) (block : str) :
  contains_arrow block = false ->
  parse_srt_block block = Ok None /\ parse_vtt_block index block = Ok None.
Proof.
  intros H. pose proof (lines_without_arrow block H) as Hl. split.
  - apply parse_srt_block_dropped.
    destruct (Nat.ltb_spec (length (split_on nl (strip block))) 3) as [?|Hlen]; [by left|].
    right. right.
    destruct (lookup_lt_is_Some_2 (split_on nl (strip block)) 1 ltac:(lia)) as [l1 Hl1].
    exists l1. split; [done|].
    destruct (match_time_srt (strip l1)) as [g|] eqn:E; [|done].
    apply match_time_srt_arrow in E.
    rewrite Forall_forall in Hl. destruct (Hl l1) as [Hs _]; [by eapply list_elem_of_lookup_2|].
    congruence.
  - unfold parse_vtt_block. cbv zeta.
    destruct (length (split_on nl (strip block)) =? 0)%nat; [done|].
    rewrite find_time_line_none; [done|].
    eapply Forall_impl; [exact Hl|]. by intros l [_ ?].
Qed.

(** A content that nowhere holds the range separator [-->] gives no
    segment, through either parser: the empty content, a content of
    whitespace, a text that is no subtitle file. *)
Theorem no_timing_line_no_segment (content : str) :
  contains_arrow content = false ->
  parse_srt content = Ok [] /\ parse_vtt content = Ok [].
Proof.
  intros H. split.
  - unfold parse_srt. apply parse_srt_blocks_none, Forall_forall. intros b Hb.
    destruct (split_blank_part _ _ _ Hb) as (p & q & E).
    destruct (strip_part content) as (p' & q' & E').
    rewrite E' in H. apply contains_arrow_part in H. rewrite E in H.
    apply contains_arrow_part in H. by apply (block_without_arrow 0).
  - unfold parse_vtt. apply parse_vtt_blocks_none, Forall_forall. intros b Hb.
    destruct (split_blank_part _ _ _ Hb) as (p & q & E).
    destruct (strip_header_spec content) as (p0 & E0).
    destruct (strip_part (strip_header content)) as (p' & q' & E').
    rewrite E0, <- (app_nil_r (strip_header content)) in H.
    apply contains_arrow_part in H. rewrite E' in H.
    apply contains_arrow_part in H. rewrite E in H.
    apply contains_arrow_part in H. by apply (block_without_arrow 0).
Qed.

Lemma no_timing_line_no_segment_witness :
  parse_srt (lit "1 -> 2") = Ok [] /\ parse_vtt (lit "1 -> 2") = Ok [].
Proof. apply (no_timing_line_no_segment (lit "1 -> 2")). reflexivity. Defined.

(** ** Loading a generated file *)

Lemma read_text_no_cr (s : str) : no_cr s -> read_text false s = s.
Proof.
  induction 1 as [|c s Hc _ IH]; [done|]. cbn [read_text].
  by rewrite Hc, andb_false_r, IH.
Qed.

Lemma not_space_not_cr (c : ascii) : is_space c = false -> Ascii.eqb c cr = false.
Proof. intros H. destruct (Ascii.eqb_spec c cr) as [->|]; [done|done]. Qed.

Lemma no_cr_solid (s : str) : Forall (fun c => is_space c = false) s -> no_cr s.
Proof. intros H. eapply Forall_impl; [exact H|]. apply not_space_not_cr. Qed.

Lemma generate_blocks_no_cr (sep : ascii) (i : Z) (segments : list seg) :
  is_sep sep = true -> 0 <= i -> Forall printable segments ->
  Forall (fun s => no_cr (strip (text s))) segments ->
  no_cr (generate_blocks (format_timestamp sep) i segments).
Proof.
  intros Hsep Hi Hp Hc. revert i Hi.
  induction Hp as [|s rest (Ha0 & Ha & Hb0 & Hb & _) _ IH]; intros i Hi; [constructor|].
  apply Forall_cons in Hc as [Hs Hc]. cbn [generate_blocks].
  destruct (str_of_int_spec i Hi) as (_ & Id & _).
  destruct (format_timestamp_solid sep Hsep _ Ha0 Ha) as (Pa & _).
  destruct (format_timestamp_solid sep Hsep _ Hb0 Hb) as (Pb & _).
  unfold no_cr. rewrite !Forall_app. split; [apply no_cr_solid; by apply is_digit_plain|].
  split; [by repeat constructor|]. split; [by apply no_cr_solid|].
  split; [by repeat constructor|]. split; [by apply no_cr_solid|].
  split; [by repeat constructor|]. split; [done|]. split; [by repeat constructor|].
  apply IH; [done|lia].
Qed.

(** Whatever the name of the file, the upload of the editor page reads
    back the text of either generator, and so does [parse_file] on a file
    that holds this text when no stripped text holds a carriage return:
    the parser that the extension selects reads both formats.  The upload
    decodes the bytes as they are; [parse_file] reads the file in text
    mode, where a carriage return becomes a newline. *)
Theorem loaders_read_generated (name : str) (segments : list seg) :
  Forall printable segments ->
  reads_near segments (load_upload name (generate_srt segments))
  /\ reads_near segments (load_upload name (generate_vtt segments))
  /\ (Forall (fun s => no_cr (strip (text s))) segments ->
      reads_near segments (parse_file name (generate_srt segments))
      /\ reads_near segments (parse_file name (generate_vtt segments))).
Proof.
  intros Hp.
  destruct (blocks_read_back ","%char eq_refl segments Hp) as (S1 & V1 & _ & _).
  destruct (blocks_read_back "."%char eq_refl segments Hp) as (_ & _ & S2 & V2).
  split; [|split].
  - unfold load_upload. destruct (endswith _ _); by apply reads_back_near.
  - unfold load_upload. destruct (endswith _ _); by apply reads_back_near.
  - intros Hc. unfold parse_file. cbv zeta.
    rewrite !read_text_no_cr.
    + destruct (str_eqb _ _); split; by apply reads_back_near.
    + unfold generate_vtt, format_timestamp_vtt, no_cr. rewrite !Forall_app.
      split; [by repeat constructor|]. split; [by repeat constructor|].
      apply generate_blocks_no_cr; done.
    + unfold generate_srt, format_timestamp_srt. apply generate_blocks_no_cr; done.
Qed.

Lemma loaders_read_generated_witness :
  reads_near sample_store (load_upload (lit "a/b.VTT") (generate_srt sample_store))
  /\ reads_near sample_store (load_upload (lit "a/b.VTT") (generate_vtt sample_store))
  /\ reads_near sample_store (parse_file (lit "a/b.VTT") (generate_srt sample_store))
  /\ reads_near sample_store (parse_file (lit "a/b.VTT") (generate_vtt sample_store)).
Proof.
  destruct (loaders_read_generated (lit "a/b.VTT") sample_store) as (H1 & H2 & H3).
  - repeat constructor; try (vm_compute; discriminate); try reflexivity.
  - split; [exact H1|]. split; [exact H2|]. apply H3.
    repeat constructor.
Defined.

(** A text with two carriage returns in a row is written as it is; a read
    of the file in text mode turns them into a blank line, where the
    parser cuts the text. *)
Lemma parse_file_carriage_returns :
  printable cr_seg
  /\ (exists p, load_upload (lit "a.srt") (generate_srt [cr_seg]) = Ok [p]
                /\ text p = text cr_seg)
  /\ (exists p, parse_file (lit "a.srt") (generate_srt [cr_seg]) = Ok [p]
                /\ text p = lit "a").
Proof.
  split; [repeat split; try (vm_compute; discriminate); reflexivity|]. split.
  - eexists. split; [vm_compute; reflexivity|reflexivity].
  - eexists. split; [vm_compute; reflexivity|reflexivity].
Qed.

(** ** The time columns of the editor's table *)

Lemma fmt_f_length (w : nat) (x : Q) : (w <= length (fmt_f w x))%nat.
Proof.
  unfold fmt_f. destruct (Qlt_le_dec x 0); cbv zeta.
  - cbn [length]. rewrite length_app, length_replicate. lia.
  - rewrite length_app, length_replicate. lia.
Qed.

(** The table shows a time of 100 minutes or more with three digits of
    minutes or more, nine characters at least; such a text is read as a
    timestamp of the primary format, which it is not, and the time read
    back is 0, whatever [float] does. *)
Theorem table_resets_late_times (py_float : str -> outcome Q) (s : Q) :
  (6000 <= s)%Q -> parse_time_display py_float (format_time_display s) = Ok 0%Q.
Proof.
  intros Hs.
  assert (Hm : 100 <= floordiv s 60).
  { unfold floordiv. change 100 with (Qfloor 100). apply Qfloor_resp_le.
    unfold Qdiv. change (/ 60)%Q with (1 # 60)%Q. lra. }
  destruct (digits_long _ Hm) as (d1 & d2 & d3 & r & E & H1 & H2 & H3).
  unfold format_time_display. cbv zeta. rewrite E.
  set (T := fmt_f 5 (fmod s 60)).
  pose proof (fmt_f_length 5 (fmod s 60)) as HT. fold T in HT.
  unfold parse_time_display. cbv zeta.
  assert (E8 : (8 <? length ((d1 :: d2 :: d3 :: r) ++ [":"%char] ++ T))%nat = true).
  { apply Nat.ltb_lt. rewrite !length_app. cbn [length]. lia. }
  rewrite E8, orb_true_r.
  assert (parse_timestamp_srt ((d1 :: d2 :: d3 :: r) ++ [":"%char] ++ T) = Ok 0%Q) as ->;
    [|done].
  unfold parse_timestamp_srt.
  destruct (strip_keeps_start [d1; d2; d3] (r ++ [":"%char] ++ T) d1 d3)
    as [r' Hr']; try done; try (by apply is_digit_not_space).
  change ((d1 :: d2 :: d3 :: r) ++ [":"%char] ++ T)
    with ([d1; d2; d3] ++ r ++ [":"%char] ++ T).
  rewrite Hr'. unfold match_full. cbn [app take_digits]. rewrite H1, H2.
  cbn [expect]. unfold is_colon.
  destruct (Ascii.eqb_spec d3 ":"%char) as [->|_]; [done|done].
Qed.

(** *** Times below 100 minutes *)

Lemma Qfloor_shift (x : Q) (z : Z) : Qfloor (x + inject_Z z) = Qfloor x + z.
Proof.
  destruct (Qfloor_bounds x) as [H1 H2]. apply Qfloor_unique.
  - rewrite inject_Z_plus. lra.
  - rewrite !inject_Z_plus. change (inject_Z 1) with 1%Q. lra.
Qed.

Lemma round_half_even_comp (x y : Q) : (x == y)%Q -> round_half_even x = round_half_even y.
Proof.
  intros E. unfold round_half_even. cbv zeta. rewrite (Qfloor_comp _ _ E).
  assert ((x - inject_Z (Qfloor y) ?= 1 # 2) = (y - inject_Z (Qfloor y) ?= 1 # 2))%Q as ->;
    [|done].
  by rewrite E.
Qed.

(** Adding an even integer moves the rounded value by that integer. *)
Lemma round_half_even_shift (x : Q) (k : Z) :
  round_half_even (x + inject_Z (2 * k)) = round_half_even x + 2 * k.
Proof.
  unfold round_half_even. cbv zeta. rewrite Qfloor_shift.
  assert ((x + inject_Z (2 * k) - inject_Z (Qfloor x + 2 * k) ?= 1 # 2)
          = (x - inject_Z (Qfloor x) ?= 1 # 2))%Q as ->.
  { apply Qcompare_comp; [|done]. rewrite inject_Z_plus. ring. }
  rewrite Z.even_add_mul_2.
  destruct (x - inject_Z (Qfloor x) ?= 1 # 2)%Q; [|lia|lia].
  destruct (Z.even (Qfloor x)); lia.
Qed.

Lemma round_half_even_near (x : Q) :
  (- (1 # 2) <= inject_Z (round_half_even x) - x <= 1 # 2)%Q.
Proof.
  unfold round_half_even. cbv zeta. destruct (Qfloor_bounds x) as [H1 H2].
  destruct (x - inject_Z (Qfloor x) ?= 1 # 2)%Q eqn:E.
  - apply Qeq_alt in E. destruct (Z.even (Qfloor x)); rewrite ?inject_Z_plus;
      change (inject_Z 1) with 1%Q; lra.
  - apply Qlt_alt in E. lra.
  - apply Qgt_alt in E. rewrite inject_Z_plus. change (inject_Z 1) with 1%Q. lra.
Qed.

Lemma seconds_text_checked (h : Z) : 0 <= h <= 6000 -> seconds_text_plain h = true.
Proof.
  intros H.
  assert (Hall : forallb seconds_text_plain (map Z.of_nat (seq 0 (Z.to_nat 6001))) = true)
    by (vm_compute; reflexivity).
  rewrite forallb_forall in Hall. apply Hall. apply (below_in_seq h (Z.to_nat 6001)). lia.
Qed.

Lemma is_digit_not_int_space (c : ascii) : is_digit c = true -> is_int_space c = false.
Proof.
  destruct c as [b0 b1 b2 b3 b4 b5 b6 b7].
  destruct b0, b1, b2, b3, b4, b5, b6, b7; vm_compute; congruence.
Qed.

Lemma lstrip_with_id (p : ascii -> bool) (s : str) (c : ascii) :
  head s = Some c -> p c = false -> lstrip_with p s = s.
Proof. destruct s as [|x s]; [done|]. intros [= ->] H. simpl. by rewrite H. Qed.

Lemma strip_with_id (p : ascii -> bool) (s : str) (a z : ascii) :
  head s = Some a -> p a = false -> last s = Some z -> p z = false -> strip_with p s = s.
Proof.
  intros Ha Hpa Hz Hpz. unfold strip_with.
  rewrite (lstrip_with_id p s a) by done.
  rewrite (lstrip_with_id p (rev s) z); [apply rev_involutive| |done].
  by rewrite head_rev.
Qed.

(** On a run of digits, [int] is what the parsers' [int] is. *)
Lemma int_of_str_digits (d : str) :
  d <> [] -> Forall (fun c => is_digit c = true) d -> int_of_str d = py_int d.
Proof.
  intros Hne Hd. destruct d as [|c d']; [done|].
  destruct (last (c :: d')) as [z|] eqn:Hz; [|by apply last_None in Hz].
  assert (Hzd : is_digit z = true).
  { rewrite Forall_forall in Hd. apply Hd. by eapply last_Some_elem_of. }
  pose proof (Forall_inv Hd) as Hc. cbn in Hc.
  unfold int_of_str, py_int.
  rewrite (strip_with_id _ (c :: d') c z), (strip_id (c :: d') c z);
    auto using is_digit_not_int_space, is_digit_not_space.
Qed.

Lemma split_on_plain (d : ascii) (s : str) :
  Forall (fun c => Ascii.eqb c d = false) s -> split_on d s = [s].
Proof.
  induction 1 as [|c s Hc _ IH]; [done|]. cbn [split_on]. by rewrite Hc, IH.
Qed.

(** The table shows a time from 0 to below 100 minutes as two digits of
    minutes, a colon and the seconds with two decimals: eight characters.
    Provided [float] reads that text of the seconds as the number it
    writes, the time read back is the time rounded to hundredths of a
    second, ties to the even hundredth. *)
Theorem table_rounds_times (py_float : str -> outcome Q) (s v : Q) :
  (0 <= s)%Q -> (s < 6000)%Q ->
  py_float (fmt_f 5 (fmod s 60)) = Ok v ->
  (v == inject_Z (round_half_even (fmod s 60 * 100)) / 100)%Q ->
  exists q,
    parse_time_display py_float (format_time_display s) = Ok q
    /\ (q == inject_Z (round_half_even (s * 100)) / 100)%Q
    /\ (- (1 # 200) <= q - s <= 1 # 200)%Q.
Proof.
  intros H0 H100 Hf Hv.
  set (m := floordiv s 60). set (secs := fmod s 60) in *.
  destruct (Qfloor_bounds (s / 60)) as [Hm1 Hm2]. fold (floordiv s 60) in Hm1, Hm2.
  fold m in Hm1, Hm2. unfold Qdiv in Hm1, Hm2. change (/ 60)%Q with (1 # 60)%Q in Hm1, Hm2.
  assert (Hm : 0 <= m < 100).
  { split.
    - assert (inject_Z (-1) < inject_Z m)%Q as H
        by (change (inject_Z (-1)) with (-1)%Q; lra).
      rewrite <- Zlt_Qlt in H. lia.
    - assert (inject_Z m < inject_Z 100)%Q as H
        by (change (inject_Z 100) with 100%Q; lra).
      rewrite <- Zlt_Qlt in H. lia. }
  assert (Esecs : (secs == s - 60 * inject_Z m)%Q) by reflexivity.
  assert (Hsecs : (0 <= secs)%Q /\ (secs < 60)%Q) by (rewrite Esecs; lra).
  destruct Hsecs as [Hs0 Hs60].
  set (h := round_half_even (secs * 100)) in *.
  pose proof (round_half_even_near (secs * 100)) as Hnear. fold h in Hnear.
  assert (Hh : 0 <= h <= 6000).
  { split.
    - assert (inject_Z (-1) < inject_Z h)%Q as H
        by (change (inject_Z (-1)) with (-1)%Q; lra).
      rewrite <- Zlt_Qlt in H. lia.
    - assert (inject_Z h < inject_Z 6001)%Q as H
        by (change (inject_Z 6001) with 6001%Q; lra).
      rewrite <- Zlt_Qlt in H. lia. }
  destruct (prints_width_spec 2 m (fmt_d_2 m Hm)) as (L & D & P).
  assert (ET : fmt_f 5 secs = seconds_text h).
  { unfold fmt_f. destruct (Qlt_le_dec secs 0) as [?|_]; [lra|]. done. }
  pose proof (seconds_text_checked h Hh) as Hplain. unfold seconds_text_plain in Hplain.
  apply andb_true_iff in Hplain as [HL HP]. apply Nat.eqb_eq in HL.
  rewrite forallb_forall in HP.
  assert (Hcolon : Forall (fun c => Ascii.eqb c ":"%char = false) (seconds_text h)).
  { apply Forall_forall. intros c Hc. apply list_elem_of_In in Hc. specialize (HP c Hc).
    apply andb_true_iff in HP as [HP _]. by apply negb_true_iff. }
  assert (Hcomma : Forall (fun c => Ascii.eqb c ","%char = false) (seconds_text h)).
  { apply Forall_forall. intros c Hc. apply list_elem_of_In in Hc. specialize (HP c Hc).
    apply andb_true_iff in HP as [_ HP]. by apply negb_true_iff. }
  exists (inject_Z (m * 60) + v)%Q. split; [|split].
  - unfold format_time_display. cbv zeta. fold m secs. rewrite ET in *.
    set (MM := fmt_d 2 m) in *. set (T := seconds_text h) in *.
    unfold parse_time_display. cbv zeta.
    assert (E1 : existsb (fun c => Ascii.eqb c ","%char) (MM ++ [":"%char] ++ T) = false).
    { rewrite !existsb_app. cbn [existsb].
      assert (forall l, Forall (fun c => Ascii.eqb c ","%char = false) l ->
                        existsb (fun c => Ascii.eqb c ","%char) l = false) as Hex.
      { induction 1 as [|c l Hc _ IH]; [done|]. cbn [existsb]. by rewrite Hc, IH. }
      rewrite (Hex MM), (Hex T); [done|done|].
      eapply Forall_impl; [exact D|]. intros c Hc.
      destruct (Ascii.eqb_spec c ","%char) as [->|]; done. }
    assert (E2 : (8 <? length (MM ++ [":"%char] ++ T))%nat = false).
    { apply Nat.ltb_ge. rewrite !length_app, L, HL. cbn [length]. lia. }
    rewrite E1, E2. cbn [orb].
    assert (Hparts : split_on ":"%char (MM ++ [":"%char] ++ T) = [MM; T]).
    { cbn [app]. rewrite split_on_app.
      - by rewrite split_on_plain.
      - eapply Forall_impl; [exact D|]. intros c Hc.
        destruct (Ascii.eqb_spec c ":"%char) as [->|]; done. }
    rewrite Hparts. cbn [length Nat.eqb].
    rewrite (getitem_ok [MM; T] 0 MM) by (done || lia). cbn [bind].
    rewrite int_of_str_digits, P by (done || by destruct MM). cbn [bind].
    rewrite (getitem_ok [MM; T] 1 T) by (done || lia). cbn [bind].
    by rewrite Hf.
  - rewrite Hv. fold h.
    assert (Es : (s * 100 == secs * 100 + inject_Z (2 * (3000 * m)))%Q).
    { rewrite Esecs, !inject_Z_mult. change (inject_Z 2) with 2%Q.
      change (inject_Z 3000) with 3000%Q. ring. }
    rewrite (round_half_even_comp _ _ Es), round_half_even_shift. fold h.
    rewrite !inject_Z_plus, !inject_Z_mult. change (inject_Z 60) with 60%Q.
    change (inject_Z 2) with 2%Q. change (inject_Z 3000) with 3000%Q.
    unfold Qdiv. change (/ 100)%Q with (1 # 100)%Q. ring.
  - rewrite Hv. rewrite inject_Z_mult. change (inject_Z 60) with 60%Q.
    unfold Qdiv. change (/ 100)%Q with (1 # 100)%Q. lra.
Qed.

Lemma table_rounds_times_witness :
  exists q,
    parse_time_display (fun _ => Ok (inject_Z 4 / 100)%Q)
                       (format_time_display (7 # 200)) = Ok q
    /\ (q == inject_Z (round_half_even ((7 # 200) * 100)) / 100)%Q
    /\ (- (1 # 200) <= q - (7 # 200) <= 1 # 200)%Q.
Proof.
  apply (table_rounds_times (fun _ => Ok (inject_Z 4 / 100)%Q) (7 # 200)
           (inject_Z 4 / 100)%Q).
  - vm_compute. discriminate.
  - reflexivity.
  - reflexivity.
  - reflexivity.
Defined.

Lemma table_resets_late_times_witness :
  parse_time_display (fun _ => Raise ValueError) (format_time_display 6000) = Ok 0%Q.
Proof.
  apply (table_resets_late_times (fun _ => Raise ValueError) 6000).
  vm_compute. discriminate.
Defined.

(** ** Translation *)

Lemma translate_loop_spec (service : list str -> str -> option str) (sent : list str)
    (segments : list seg) :
  let '(translated, sent') := translate_loop service sent segments in
  Forall2 (fun s t => index t = None /\ start t = start s /\ end_ t = end_ s
                      /\ original t = Some (text s)
                      /\ (is_blank (text s) = true -> text t = text s))
          segments translated
  /\ sent' = sent ++ List.filter (fun t => negb (is_blank t)) (text <$> segments)
  /\ ((forall sent0 t, service sent0 t = None) -> text <$> translated = text <$> segments).
Proof.
  revert sent. induction segments as [|s rest IH]; intros sent.
  - cbn [translate_loop]. split; [constructor|]. split; [by rewrite app_nil_r|done].
  - cbn [translate_loop]. cbv zeta. unfold translate.
    destruct (is_blank (text s)) eqn:Eb.
    + specialize (IH sent). destruct (translate_loop service sent rest) as [out sent2].
      destruct IH as (H1 & H2 & H3). split; [by constructor|].
      split; [|intros Hn; rewrite !fmap_cons; cbn [text]; by rewrite H3].
      rewrite fmap_cons. cbn [List.filter]. by rewrite Eb.
    + assert (forall t, (t = text s \/ service sent (text s) = Some t) ->
        let '(translated, sent') :=
          let '(translated, sent2) := translate_loop service (sent ++ [text s]) rest in
          (mkSeg None (start s) (end_ s) t (Some (text s)) :: translated, sent2) in
        Forall2 (fun s t => index t = None /\ start t = start s /\ end_ t = end_ s
                            /\ original t = Some (text s)
                            /\ (is_blank (text s) = true -> text t = text s))
                (s :: rest) translated
        /\ sent' = sent ++ List.filter (fun t => negb (is_blank t)) (text <$> s :: rest)
        /\ ((forall sent0 t, service sent0 t = None) ->
            text <$> translated = text <$> s :: rest)) as Hstep.
      { intros t Ht. specialize (IH (sent ++ [text s])).
        destruct (translate_loop service (sent ++ [text s]) rest) as [out sent2].
        destruct IH as (H1 & H2 & H3). split; [|split].
        - constructor; [|done]. cbn [index start end_ original text].
          repeat split. intros Hb. congruence.
        - rewrite fmap_cons. cbn [List.filter]. rewrite Eb. cbn [negb].
          rewrite H2. by rewrite <- (assoc_L (++)).
        - intros Hn. rewrite !fmap_cons. cbn [text]. rewrite (H3 Hn).
          destruct Ht as [->|Ht]; [done|]. by rewrite Hn in Ht. }
      destruct (service sent (text s)) as [t|] eqn:Es.
      * apply (Hstep t). by right.
      * apply (Hstep (text s)). by left.
Qed.

(** The translation of a sequence returns one fresh segment per segment,
    in order: without a number, with the times of its source, and with the
    source text as [original].  The service is asked for the texts that
    are not blank, each once and in order, and for no other text; a blank
    text stays as it is, and so does every text when all requests fail. *)
Theorem translate_segments_spec (service : list str -> str -> option str)
    (segments : list seg) :
  Forall2 (fun s t => index t = None /\ start t = start s /\ end_ t = end_ s
                      /\ original t = Some (text s)
                      /\ (is_blank (text s) = true -> text t = text s))
          segments (fst (translate_segments service segments))
  /\ snd (translate_segments service segments)
     = List.filter (fun t => negb (is_blank t)) (text <$> segments)
  /\ ((forall sent t, service sent t = None) ->
      text <$> fst (translate_segments service segments) = text <$> segments).
Proof.
  unfold translate_segments.
  pose proof (translate_loop_spec service [] segments) as H.
  destruct (translate_loop service [] segments) as [out sent]. exact H.
Qed.

Lemma translate_segments_spec_witness :
  text <$> fst (translate_segments (fun _ _ => None) sample_store) = text <$> sample_store.
Proof.
  destruct (translate_segments_spec (fun _ _ => None) sample_store) as (_ & _ & H).
  by apply H.
Defined.

(** ** Languages and voices *)

Lemma str_eqb_eq (a b : str) : str_eqb a b = true -> a = b.
Proof.
  revert b. induction a as [|x a IH]; intros [|y b] H; try done.
  cbn [str_eqb] in H. apply andb_true_iff in H as [Hx H].
  apply Ascii.eqb_eq in Hx as ->. by rewrite (IH b H).
Qed.

(** For every code, known or not, the voices offered are a list that is
    not empty (the lookup of the default never fails), and the default
    voice of the code is the first of them. *)
Theorem default_voice_is_first (lang_code : str) :
  exists voices,
    get_voices_for_language lang_code = Some voices
    /\ head voices = Some (get_default_voice lang_code).
Proof.
  unfold get_voices_for_language, get_default_voice.
  change (dict_get VOICE_OPTIONS (lit "en-US"))
    with (Some [lit "en-US-JennyNeural"; lit "en-US-GuyNeural"; lit "en-US-AriaNeural";
                lit "en-US-DavisNeural"]).
  eexists. split; [reflexivity|].
  unfold VOICE_OPTIONS, DEFAULT_VOICES. cbn [dict_get].
  repeat (match goal with
          | |- context [str_eqb lang_code ?k] => destruct (str_eqb lang_code k); [reflexivity|]
          end).
  reflexivity.
Qed.

(** The voices offered for a language of the language table.  For the ten
    languages that have voices of their own, every voice offered carries
    the speech code of the language; for every other code, among them
    eight languages of the table, the voices offered are the English
    ones. *)
Theorem voices_of_a_language (code : str) :
  exists voices,
    get_voices_for_language (get_tts_code code) = Some voices
    /\ head voices = Some (get_default_voice (get_tts_code code))
    /\ (code ∈ voiced_languages ->
        Forall (fun v => strip_prefix (get_tts_code code) v <> None) voices)
    /\ (code ∉ voiced_languages ->
        get_voices_for_language (get_tts_code code)
        = get_voices_for_language (lit "en-US")).
Proof.
  assert (Hin : forall k, k ∈ voiced_languages ->
            k = lit "en" \/ k = lit "zh" \/ k = lit "ja" \/ k = lit "ko" \/ k = lit "es"
            \/ k = lit "fr" \/ k = lit "de" \/ k = lit "ru" \/ k = lit "pt"
            \/ k = lit "ar").
  { intros k Hk. unfold voiced_languages in Hk.
    rewrite !elem_of_cons, elem_of_nil in Hk. tauto. }
  assert (Hcase : (exists k, k ∈ fst <$> SUPPORTED_LANGUAGES /\ code = k)
                  \/ dict_get SUPPORTED_LANGUAGES code = None).
  { unfold SUPPORTED_LANGUAGES. cbn [dict_get fmap list_fmap fst].
    repeat (match goal with
            | |- context [str_eqb code ?k] =>
                destruct (str_eqb code k) eqn:?E;
                [left; exists k; split;
                 [rewrite !elem_of_cons; tauto|by apply str_eqb_eq]|]
            end).
    by right. }
  destruct Hcase as [(k & Hk & ->)|Hnone].
  - cbn [fmap list_fmap fst SUPPORTED_LANGUAGES] in Hk.
    unfold SUPPORTED_LANGUAGES in Hk. cbn [fmap list_fmap fst] in Hk.
    rewrite !elem_of_cons, elem_of_nil in Hk.
    repeat (destruct Hk as [->|Hk];
            [eexists; split; [vm_compute; reflexivity|];
             split; [vm_compute; reflexivity|]; split;
             [first [intros _; repeat constructor; vm_compute; discriminate
                    |intros Hv; exfalso;
                     destruct (Hin _ Hv)
                       as [E|[E|[E|[E|[E|[E|[E|[E|[E|E]]]]]]]]];
                     vm_compute in E; discriminate]
             |first [intros _; vm_compute; reflexivity
                    |intros Hn; exfalso; apply Hn; unfold voiced_languages;
                     rewrite !elem_of_cons; tauto]]|]).
    done.
  - unfold get_tts_code. rewrite Hnone.
    eexists. split; [vm_compute; reflexivity|]. split; [vm_compute; reflexivity|].
    split; [|done]. intros Hv. exfalso.
    destruct (Hin _ Hv) as [->|[->|[->|[->|[->|[->|[->|[->|[->| ->]]]]]]]]];
      vm_compute in Hnone; discriminate.
Qed.

Lemma voices_of_a_language_witness :
  get_voices_for_language (get_tts_code (lit "it")) = get_voices_for_language (lit "en-US").
Proof.
  destruct (voices_of_a_language (lit "it")) as (voices & _ & _ & _ & H).
  apply H. unfold voiced_languages. rewrite !elem_of_cons, elem_of_nil.
  intros Hin. repeat (destruct Hin as [Hin|Hin]; [vm_compute in Hin; discriminate|]).
  done.
Defined.

(** ** Speech synthesis *)

Lemma zeros_value (k : nat) (d : str) :
  digits_value (replicate k "0"%char ++ d) 0 = digits_value d 0.
Proof. induction k as [|k IH]; [done|]. cbn [replicate app digits_value]. exact IH. Qed.

(** A number that is not negative is read off its print, whatever the
    width: no two of them print alike. *)
Lemma fmt_d_value (w : nat) (n : Z) : 0 <= n -> digits_value (fmt_d w n) 0 = n.
Proof.
  intros Hn. unfold fmt_d. destruct (Z.ltb_spec n 0) as [?|_]; [lia|]. cbv zeta.
  rewrite zeros_value. by apply digits_spec.
Qed.

Lemma path_join_segment (output_dir : str) :
  exists p, forall j, path_join output_dir (segment_name j) = p ++ segment_name j.
Proof.
  unfold path_join.
  destruct (match output_dir with [] => true | _ => false end
            || endswith output_dir (lit "/")).
  - exists output_dir. intros j. reflexivity.
  - exists (output_dir ++ lit "/"). intros j. cbn [segment_name app lit].
    by rewrite <- (assoc_L (++)).
Qed.

Lemma segment_path_inj (output_dir : str) (i j : Z) :
  0 <= i -> 0 <= j ->
  path_join output_dir (segment_name i) = path_join output_dir (segment_name j) -> i = j.
Proof.
  intros Hi Hj H. destruct (path_join_segment output_dir) as [p Hp].
  rewrite !Hp in H. apply app_inv_head in H. unfold segment_name in H.
  apply app_inv_head in H. apply app_inv_tail in H.
  rewrite <- (fmt_d_value 4 i Hi), <- (fmt_d_value 4 j Hj). by rewrite H.
Qed.

Lemma entry_of_next (output_dir : str) (i : Z) (s : seg) (rest : list seg) (a : audio) :
  0 <= i -> entry_of output_dir (i + 1) rest a ->
  entry_of output_dir i (s :: rest) a /\ i < audio_index a.
Proof.
  intros Hi (Hle & s' & Hs' & H). split; [|lia]. split; [lia|].
  exists s'. split; [|done].
  replace (Z.to_nat (audio_index a - i)) with (S (Z.to_nat (audio_index a - (i + 1))))
    by lia.
  done.
Qed.

Lemma synthesize_loop_spec (speak : list (str * str) -> str -> str -> bool)
    (output_dir : str) (i : Z) (sent : list (str * str)) (segments : list seg)
    (audio_files : list audio) (sent' : list (str * str)) :
  0 <= i ->
  synthesize_loop speak output_dir i sent segments = (Some audio_files, sent') ->
  Forall (entry_of output_dir i segments) audio_files
  /\ StronglySorted Z.lt (audio_index <$> audio_files)
  /\ sent' = sent ++ ((fun a => (audio_text a, path a)) <$> audio_files).
Proof.
  revert i sent audio_files sent'.
  induction segments as [|s rest IH]; intros i sent out sent' Hi H.
  - injection H as <- <-. split; [constructor|]. split; [constructor|].
    by rewrite app_nil_r.
  - cbn [synthesize_loop] in H. cbv zeta in H.
    destruct (strip (text s)) as [|c t] eqn:Et.
    + destruct (IH (i + 1) sent out sent' ltac:(lia) H) as (H1 & H2 & H3).
      split; [|done]. eapply Forall_impl; [exact H1|].
      intros a Ha. by apply entry_of_next.
    + unfold synthesize in H. rewrite <- Et, strip_idemp, Et in H. rewrite <- Et in H.
      destruct (speak sent (strip (text s)) (path_join output_dir (segment_name i)));
        [|done].
      destruct (synthesize_loop speak output_dir (i + 1) _ rest) as [[out'|] sent2] eqn:E;
        [|done].
      injection H as <- <-.
      destruct (IH (i + 1) _ out' sent2 ltac:(lia) E) as (H1 & H2 & H3).
      assert (Hnext : Forall (fun a => entry_of output_dir i (s :: rest) a
                                       /\ i < audio_index a) out').
      { eapply Forall_impl; [exact H1|]. intros a Ha. by apply entry_of_next. }
      split; [|split].
      * constructor.
        -- split; [cbn; lia|]. exists s. cbn [audio_index audio_start audio_end
             audio_text path]. rewrite Z.sub_diag. repeat split. by rewrite Et.
        -- eapply Forall_impl; [exact Hnext|]. by intros a [? _].
      * rewrite fmap_cons. constructor; [done|]. cbn [audio_index].
        apply Forall_fmap. eapply Forall_impl; [exact Hnext|]. by intros a [_ ?].
      * rewrite H3, fmap_cons. cbn [audio_text path]. by rewrite <- (assoc_L (++)).
Qed.

Lemma synthesize_loop_complete (speak : list (str * str) -> str -> str -> bool)
    (output_dir : str) (i : Z) (sent : list (str * str)) (segments : list seg)
    (audio_files : list audio) (sent' : list (str * str)) :
  synthesize_loop speak output_dir i sent segments = (Some audio_files, sent') ->
  forall (k : nat) s, segments !! k = Some s -> strip (text s) <> [] ->
    exists a, a ∈ audio_files /\ audio_index a = i + Z.of_nat k.
Proof.
  revert i sent audio_files sent'.
  induction segments as [|s rest IH]; intros i sent out sent' H k s0 Hk Hne.
  - by rewrite lookup_nil in Hk.
  - cbn [synthesize_loop] in H. cbv zeta in H.
    destruct (strip (text s)) as [|c t] eqn:Et.
    + destruct k as [|k]; [injection Hk as <-; congruence|].
      destruct (IH _ _ _ _ H k s0 Hk Hne) as (a & Ha & Hi).
      exists a. split; [done|]. lia.
    + unfold synthesize in H. rewrite <- Et, strip_idemp, Et in H. rewrite <- Et in H.
      destruct (speak sent (strip (text s)) (path_join output_dir (segment_name i)));
        [|done].
      destruct (synthesize_loop speak output_dir (i + 1) _ rest) as [[out'|] sent2] eqn:E;
        [|done].
      injection H as <- <-.
      destruct k as [|k].
      * eexists. split; [apply list_elem_of_here|]. cbn [audio_index]. lia.
      * destruct (IH _ _ _ _ E k s0 Hk Hne) as (a & Ha & Hi).
        exists a. split; [by apply list_elem_of_further|]. lia.
Qed.

Lemma synthesize_loop_returns (speak : list (str * str) -> str -> str -> bool)
    (output_dir : str) (i : Z) (sent : list (str * str)) (segments : list seg) :
  (forall sent text output_path, speak sent text output_path = true) ->
  exists audio_files sent',
    synthesize_loop speak output_dir i sent segments = (Some audio_files, sent').
Proof.
  intros Hs. revert i sent. induction segments as [|s rest IH]; intros i sent.
  - by eexists _, _.
  - cbn [synthesize_loop]. cbv zeta.
    destruct (strip (text s)) as [|c t] eqn:Et; [apply IH|].
    unfold synthesize. rewrite <- Et, strip_idemp, Et. rewrite Hs.
    destruct (IH (i + 1) (sent ++ [(c :: t, path_join output_dir (segment_name i))]))
      as (out & sent2 & ->).
    by eexists _, _.
Qed.

(** The synthesis of a sequence returns when the output directory can be
    made and every request succeeds; it never returns for the empty path.
    When it returns, it returns exactly one entry for each segment whose
    stripped text is not empty, in order: every entry names the position of
    a segment with such a text and carries its times and its stripped
    text, and every such segment has an entry.  The files of the entries
    are pairwise distinct, and the requests made are those of the entries,
    one each and in order: no request for a blank text, no file written
    twice. *)
Theorem synthesize_segments_spec (makedirs : str -> bool)
    (speak : list (str * str) -> str -> str -> bool)
    (segments : list seg) (output_dir : str) :
  (output_dir <> [] -> makedirs output_dir = true ->
   (forall sent text output_path, speak sent text output_path = true) ->
   exists audio_files sent,
     synthesize_segments makedirs speak segments output_dir = (Some audio_files, sent))
  /\ (forall audio_files sent,
        synthesize_segments makedirs speak segments output_dir = (Some audio_files, sent) ->
        output_dir <> [] /\ makedirs output_dir = true
        /\ Forall (entry_of output_dir 0 segments) audio_files
        /\ (forall (k : nat) s, segments !! k = Some s -> strip (text s) <> [] ->
              exists a, a ∈ audio_files /\ audio_index a = Z.of_nat k)
        /\ StronglySorted Z.lt (audio_index <$> audio_files)
        /\ NoDup (path <$> audio_files)
        /\ sent = (fun a => (audio_text a, path a)) <$> audio_files).
Proof.
  split.
  - intros Hd Hm Hs. unfold synthesize_segments. destruct output_dir as [|c d]; [done|].
    rewrite Hm. by apply synthesize_loop_returns.
  - intros audio_files sent H. unfold synthesize_segments in H.
    destruct output_dir as [|c d]; [done|].
    destruct (makedirs (c :: d)) eqn:Hm; [|done].
    split; [done|]. split; [done|].
    destruct (synthesize_loop_spec _ _ 0 _ _ _ _ ltac:(lia) H) as (H1 & H2 & H3).
    pose proof (synthesize_loop_complete _ _ _ _ _ _ _ H) as H4.
    split; [done|]. split; [done|]. split; [done|]. split; [|done].
    clear H H3 H4. induction audio_files as [|a out IH]; [constructor|].
    apply Forall_cons in H1 as [Ha H1]. rewrite fmap_cons in H2.
    apply StronglySorted_inv in H2 as [H2 Hlt].
    rewrite fmap_cons. apply NoDup_cons. split; [|by apply IH].
    intros Hin. apply list_elem_of_fmap in Hin as (b & Hb & Hin).
    rewrite Forall_forall in H1. rewrite Forall_forall in Hlt.
    destruct Ha as (Ha0 & sa & _ & _ & _ & _ & _ & Hpa).
    destruct (H1 b Hin) as (Hb0 & sb & _ & _ & _ & _ & _ & Hpb).
    assert (audio_index a < audio_index b) as Hab.
    { apply Hlt. apply list_elem_of_fmap. by exists b. }
    rewrite Hpa, Hpb in Hb. apply segment_path_inj in Hb; lia.
Qed.

Lemma synthesize_segments_spec_witness :
  exists audio_files sent,
    synthesize_segments (fun _ => true) (fun _ _ _ => true) sample_store (lit "out")
    = (Some audio_files, sent)
    /\ audio_index <$> audio_files = [0; 1; 2]
    /\ NoDup (path <$> audio_files)
    /\ sent = (fun a => (audio_text a, path a)) <$> audio_files.
Proof.
  destruct (synthesize_segments_spec (fun _ => true) (fun _ _ _ => true) sample_store
              (lit "out")) as [Hret Hspec].
  destruct Hret as (audio_files & sent & E); [done|done|done|].
  exists audio_files, sent. split; [exact E|].
  destruct (Hspec _ _ E) as (_ & _ & _ & _ & _ & H1 & H2).
  split; [|split; [exact H1|exact H2]].
  vm_compute in E. by injection E as <- _.
Defined.
